(** * lutris/services/amazon.py: the Amazon Prime Gaming service

    A shallow embedding of [AmazonService] (authentication, token life
    cycle and paginated library synchronisation) together with the
    properties of its specification.

    Conventions of the embedding.
    - A value produced by [json.load] is a [json]; Python's [None] is
      [JNull], a Python [dict] is an association list in insertion order.
    - Python [str] and [bytes] are both [string] (a sequence of 8-bit
      characters): a [str] is given by the UTF-8 bytes of its text.
    - A Python float is the number it denotes ([number]): a rational, an
      infinity or a NaN.  The clock is in [Q]; float arithmetic rounds
      its exact result to binary64 ([round_b64]).
    - The library is that of CPython 3.11.
    - A file that exists holds a JSON document; [None] is a file that
      does not exist.
    - A method is a function from the state of the world to an outcome
      and a new state of the world ([M]).  The world holds the files, the
      instance attributes, the clock, the replies the network is going to
      give and the trace of everything the method did. *)

From Stdlib Require Import ZArith QArith Qround Qabs List String Ascii Bool
  Lia Lqa.
Import ListNotations.

#[local] Set Warnings "-register-all".
Local Open Scope string_scope.
Local Open Scope Z_scope.

(** ** Python values *)

(** What a float denotes. *)
Inductive number : Type :=
| Finite (q : Q)
| Infinity (negative : bool)
| NaN.

Coercion Finite : Q >-> number.

Inductive json : Type :=
| JNull
| JBool (b : bool)
| JInt (z : Z)
| JFloat (x : number)
| JStr (s : string)
| JList (l : list json)
| JDict (d : list (string * json)).

Arguments JFloat x%_Q.

(** [bool(v)], what [if v] and [not v] test. *)
Definition truthy (v : json) : bool :=
  match v with
  | JNull => false
  | JBool b => b
  | JInt z => negb (z =? 0)
  | JFloat (Finite q) => negb (Qeq_bool q 0)
  | JFloat _ => true
  | JStr s => negb (s =? "")%string
  | JList l => match l with [] => false | _ :: _ => true end
  | JDict d => match d with [] => false | _ :: _ => true end
  end.

Inductive exn : Type :=
| KeyError (k : string)
| TypeError
| ValueError
| OverflowError
| AttributeError
| FileNotFoundError
| UnicodeDecodeError.

(** A pure computation that may raise. *)
Definition res (A : Type) : Type := (exn + A)%type.
Definition Ok {A} (a : A) : res A := inr a.
Definition Err {A} (e : exn) : res A := inl e.

Fixpoint dict_get (k : string) (d : list (string * json)) : option json :=
  match d with
  | [] => None
  | (k', v) :: d' => if (k =? k')%string then Some v else dict_get k d'
  end.

(** [d[k] = v] on a dict: an existing key keeps its place, a new key goes
    to the end. *)
Fixpoint dict_set (k : string) (v : json) (d : list (string * json))
  : list (string * json) :=
  match d with
  | [] => [(k, v)]
  | (k', v') :: d' =>
      if (k =? k')%string then (k, v) :: d' else (k', v') :: dict_set k v d'
  end.

(** [k in d] *)
Definition dict_mem (k : string) (d : list (string * json)) : bool :=
  match dict_get k d with Some _ => true | None => false end.

(** [obj[k]] with a string key. *)
Definition subscript (obj : json) (k : string) : res json :=
  match obj with
  | JDict d =>
      match dict_get k d with
      | Some v => Ok v
      | None => Err (KeyError k)
      end
  | _ => Err TypeError
  end.

(** [obj[k] = v] with a string key; the result is the object after the
    assignment. *)
Definition setitem (obj : json) (k : string) (v : json) : res json :=
  match obj with
  | JDict d => Ok (JDict (dict_set k v d))
  | _ => Err TypeError
  end.

(** *** Bytes *)

Definition byte_val (c : ascii) : Z := Z.of_N (N_of_ascii c).
Definition byte_chr (z : Z) : ascii := ascii_of_N (Z.to_N (z mod 256)).

(** *** UTF-8 *)

Definition continuation (b : Z) : bool := (0x80 <=? b) && (b <=? 0xBF).

(** The second byte that may follow the lead byte [b0] of a sequence of
    three or four bytes. *)
Definition second_ok (b0 b1 : Z) : bool :=
  continuation b1
  && negb ((b0 =? 0xE0) && (b1 <? 0xA0))
  && negb ((b0 =? 0xED) && (0xA0 <=? b1))
  && negb ((b0 =? 0xF0) && (b1 <? 0x90))
  && negb ((b0 =? 0xF4) && (0x90 <=? b1)).

(** The code points of UTF-8 bytes; [None] when the bytes are not
    well formed. *)
Fixpoint code_points (bs : list Z) : option (list Z) :=
  match bs with
  | [] => Some []
  | b0 :: r0 =>
      if b0 <? 0x80 then option_map (cons b0) (code_points r0)
      else if (b0 <? 0xC2) || (0xF4 <? b0) then None
      else
        match r0 with
        | [] => None
        | b1 :: r1 =>
            if b0 <? 0xE0 then
              if continuation b1
              then option_map (cons ((b0 - 0xC0) * 64 + (b1 - 0x80)))
                     (code_points r1)
              else None
            else if negb (second_ok b0 b1) then None
            else
              match r1 with
              | [] => None
              | b2 :: r2 =>
                  if negb (continuation b2) then None
                  else if b0 <? 0xF0 then
                    option_map
                      (cons ((b0 - 0xE0) * 4096 + (b1 - 0x80) * 64
                             + (b2 - 0x80)))
                      (code_points r2)
                  else
                    match r2 with
                    | [] => None
                    | b3 :: r3 =>
                        if continuation b3 then
                          option_map
                            (cons ((b0 - 0xF0) * 262144 + (b1 - 0x80) * 4096
                                   + (b2 - 0x80) * 64 + (b3 - 0x80)))
                            (code_points r3)
                        else None
                    end
              end
        end
  end.

(** U+FFFD in UTF-8. *)
Definition replacement : list Z := [0xEF; 0xBF; 0xBD].

(** [bytes.decode("utf-8", "replace")], the text given by its UTF-8
    bytes: a well-formed sequence is kept; the longest start of a
    sequence that cannot be completed becomes one U+FFFD, as does a byte
    that starts no sequence and a sequence the input ends in. *)
Fixpoint decode_replace (bs : list Z) : list Z :=
  match bs with
  | [] => []
  | b0 :: r0 =>
      if b0 <? 0x80 then b0 :: decode_replace r0
      else if (b0 <? 0xC2) || (0xF4 <? b0)
      then (replacement ++ decode_replace r0)%list
      else
        match r0 with
        | [] => replacement
        | b1 :: r1 =>
            if b0 <? 0xE0 then
              if continuation b1 then b0 :: b1 :: decode_replace r1
              else (replacement ++ decode_replace r0)%list
            else if negb (second_ok b0 b1)
            then (replacement ++ decode_replace r0)%list
            else
              match r1 with
              | [] => replacement
              | b2 :: r2 =>
                  if negb (continuation b2)
                  then (replacement ++ decode_replace r1)%list
                  else if b0 <? 0xF0
                  then b0 :: b1 :: b2 :: decode_replace r2
                  else
                    match r2 with
                    | [] => replacement
                    | b3 :: r3 =>
                        if continuation b3
                        then b0 :: b1 :: b2 :: b3 :: decode_replace r3
                        else (replacement ++ decode_replace r2)%list
                    end
              end
        end
  end.

(** *** [int(x)] *)

(** The characters [int] skips around the digits, among the 7-bit
    ones. *)
Definition is_space (c : ascii) : bool :=
  let n := byte_val c in ((9 <=? n) && (n <=? 13)) || (n =? 32).

Definition is_digit (c : ascii) : bool :=
  let n := byte_val c in (48 <=? n) && (n <=? 57).

Definition digit_val (c : ascii) : Z := byte_val c - 48.

(** The characters beyond the 7-bit ones that count as white space. *)
Definition unicode_space (c : Z) : bool :=
  existsb (Z.eqb c) [0x85; 0xA0; 0x1680; 0x2028; 0x2029; 0x202F; 0x205F;
                     0x3000]
  || ((0x2000 <=? c) && (c <=? 0x200A)).

(** The digit zero of every script that has decimal digits (Unicode
    14.0, the tables of CPython 3.11); the nine other digits follow it. *)
Definition decimal_zeros : list Z :=
  [0x660; 0x6F0; 0x7C0; 0x966; 0x9E6; 0xA66; 0xAE6; 0xB66; 0xBE6; 0xC66;
   0xCE6; 0xD66; 0xDE6; 0xE50; 0xED0; 0xF20; 0x1040; 0x1090; 0x17E0;
   0x1810; 0x1946; 0x19D0; 0x1A80; 0x1A90; 0x1B50; 0x1BB0; 0x1C40; 0x1C50;
   0xA620; 0xA8D0; 0xA900; 0xA9D0; 0xA9F0; 0xAA50; 0xABF0; 0xFF10;
   0x104A0; 0x10D30; 0x11066; 0x110F0; 0x11136; 0x111D0; 0x112F0; 0x11450;
   0x114D0; 0x11650; 0x116C0; 0x11730; 0x118E0; 0x11950; 0x11C50; 0x11D50;
   0x11DA0; 0x16A60; 0x16AC0; 0x16B50; 0x1D7CE; 0x1D7D8; 0x1D7E2; 0x1D7EC;
   0x1D7F6; 0x1E140; 0x1E2F0; 0x1E950; 0x1FBF0].

Definition unicode_decimal (c : Z) : option Z :=
  match List.find (fun z => (z <=? c) && (c <=? z + 9)) decimal_zeros with
  | Some z => Some (c - z)
  | None => None
  end.

(** What [int] makes of a text before it reads it: the characters up to
    U+007E stay, any other white space becomes a space, any other decimal
    digit its 7-bit digit, and anything else a character that is neither. *)
Definition to_ascii_digit (c : Z) : ascii :=
  if c <? 127 then byte_chr c
  else if unicode_space c then " "%char
  else match unicode_decimal c with
       | Some d => byte_chr (48 + d)
       | None => "?"%char
       end.

Fixpoint lstrip_space (cs : list ascii) : list ascii :=
  match cs with
  | c :: cs' => if is_space c then lstrip_space cs' else cs
  | [] => []
  end.

Definition strip_space (cs : list ascii) : list ascii :=
  rev (lstrip_space (rev (lstrip_space cs))).

(** Decimal digits, a single underscore allowed between two digits. *)
Fixpoint parse_digits (cs : list ascii) (acc : Z) (after_digit : bool)
  : option Z :=
  match cs with
  | [] => if after_digit then Some acc else None
  | c :: cs' =>
      if is_digit c then parse_digits cs' (10 * acc + digit_val c) true
      else if (Ascii.eqb c "_" && after_digit)%bool then
        match cs' with
        | d :: _ => if is_digit d then parse_digits cs' acc false else None
        | [] => None
        end
      else None
  end.

(** [sys.int_info.default_max_str_digits]: a text of more digits is not
    converted. *)
Definition max_str_digits : Z := 4300.

Definition parse_unsigned (cs : list ascii) : res Z :=
  match parse_digits cs 0 false with
  | Some n =>
      if max_str_digits <? Z.of_nat (List.length (filter is_digit cs))
      then Err ValueError
      else Ok n
  | None => Err ValueError
  end.

(** [int(s)] for a [str]: white space around, a sign, decimal digits. *)
Definition int_of_str (s : string) : res Z :=
  match code_points (map byte_val (list_ascii_of_string s)) with
  | None => Err ValueError
  | Some points =>
      match strip_space (map to_ascii_digit points) with
      | "-"%char :: cs =>
          match parse_unsigned cs with
          | inr n => Ok (- n)
          | inl e => Err e
          end
      | "+"%char :: cs => parse_unsigned cs
      | cs => parse_unsigned cs
      end
  end.

(** *** Floats *)

Definition pow2 (e : Z) : Q :=
  if e <? 0 then 1 # Z.to_pos (2 ^ (- e)) else inject_Z (2 ^ e).

(** The [e] with [2^e <= x < 2^(e+1)], for a positive [x]. *)
Definition floor_log2 (x : Q) : Z :=
  let e := Z.log2 (Qnum x) - Z.log2 (Zpos (Qden x)) in
  if Qle_bool (pow2 e) x then e else e - 1.

(** The nearest integer, the even one of two that are equally near. *)
Definition round_half_even (r : Q) : Z :=
  let f := Qfloor r in
  match (r - inject_Z f ?= 1 # 2)%Q with
  | Lt => f
  | Gt => f + 1
  | Eq => if Z.even f then f else f + 1
  end.

Definition round_b64 (x : Q) : number :=
  let x := Qred x in
  if Qeq_bool x 0 then Finite 0
  else
    let a := Qabs x in
    let e := Z.max (floor_log2 a) (-1022) in
    let quantum := pow2 (e - 52) in
    let v := (inject_Z (round_half_even (a / quantum)) * quantum)%Q in
    if Qle_bool (pow2 1024) v then Infinity (negb (Qle_bool 0 x))
    else Finite (Qred (if Qle_bool 0 x then v else - v)).

(** [float(n)] for an [int]: the nearest binary64, [OverflowError] when
    there is none. *)
Definition float_of_int (n : Z) : res Q :=
  match round_b64 (inject_Z n) with
  | Finite y => Ok y
  | Infinity _ | NaN => Err OverflowError
  end.

(** [x + y] on floats, [y] finite. *)
Definition float_add (x : number) (y : Q) : number :=
  match x with
  | Finite q => round_b64 (q + y)
  | Infinity negative => Infinity negative
  | NaN => NaN
  end.

(** [int(v)] *)
Definition py_int (v : json) : res Z :=
  match v with
  | JInt z => Ok z
  | JBool b => Ok (Z.b2z b)
  | JFloat (Finite q) => Ok (Z.quot (Qnum q) (Zpos (Qden q)))
  | JFloat (Infinity _) => Err OverflowError
  | JFloat NaN => Err ValueError
  | JStr s => int_of_str s
  | JNull | JList _ | JDict _ => Err TypeError
  end.

(** [v + n] for an [int] n, when the sum is a number: an [int] when [v]
    is one, and otherwise the float sum of [v] and [float(n)]. *)
Definition add_int (v : json) (n : Z) : res number :=
  match v with
  | JInt a => Ok (Finite (inject_Z (a + n)))
  | JBool b => Ok (Finite (inject_Z (Z.b2z b + n)))
  | JFloat x =>
      match float_of_int n with
      | inr y => Ok (float_add x y)
      | inl e => Err e
      end
  | JNull | JStr _ | JList _ | JDict _ => Err TypeError
  end.

(** [a > b] on rationals. *)
Definition Qgtb (a b : Q) : bool := negb (Qle_bool a b).

(** [now > x] for a float [now] and a number [x]. *)
Definition gt_number (now : Q) (x : number) : bool :=
  match x with
  | Finite q => Qgtb now q
  | Infinity negative => negative
  | NaN => false
  end.

(** ** SHA-256 and base64 *)

Module SHA256.

(** [hashlib.sha256], FIPS 180-4, on 32-bit words held in [Z]. *)

Definition w32 (x : Z) : Z := x mod 2 ^ 32.
Definition add32 (x y : Z) : Z := w32 (x + y).
Definition rotr (n x : Z) : Z :=
  w32 (Z.lor (Z.shiftr x n) (Z.shiftl x (32 - n))).
Definition shr (n x : Z) : Z := Z.shiftr x n.
Definition not32 (x : Z) : Z := Z.lxor x (2 ^ 32 - 1).

Definition Ch (x y z : Z) : Z := Z.lxor (Z.land x y) (Z.land (not32 x) z).
Definition Maj (x y z : Z) : Z :=
  Z.lxor (Z.lxor (Z.land x y) (Z.land x z)) (Z.land y z).
Definition Sigma0 (x : Z) : Z :=
  Z.lxor (Z.lxor (rotr 2 x) (rotr 13 x)) (rotr 22 x).
Definition Sigma1 (x : Z) : Z :=
  Z.lxor (Z.lxor (rotr 6 x) (rotr 11 x)) (rotr 25 x).
Definition sigma0 (x : Z) : Z :=
  Z.lxor (Z.lxor (rotr 7 x) (rotr 18 x)) (shr 3 x).
Definition sigma1 (x : Z) : Z :=
  Z.lxor (Z.lxor (rotr 17 x) (rotr 19 x)) (shr 10 x).

(** The constants are defined as FIPS 180-4 defines them, from the first
    prime numbers: the first 32 bits of the fractional part of the cube
    root (of the square root, for the initial hash value) of each. *)
Definition is_prime (n : nat) : bool :=
  forallb (fun d => negb (Nat.eqb (Nat.modulo n d) 0)) (seq 2 (n - 2)).

Definition primes (count : nat) : list Z :=
  map Z.of_nat (firstn count (filter is_prime (seq 2 400))).

(** The largest [r] below [2 ^ bits] whose cube is at most [n]. *)
Fixpoint cube_root (bits : nat) (n r : Z) : Z :=
  match bits with
  | O => r
  | S bits' =>
      let r' := r + 2 ^ Z.of_nat bits' in
      cube_root bits' n (if r' * r' * r' <=? n then r' else r)
  end.

Definition K : list Z :=
  Eval vm_compute in
    map (fun p => w32 (cube_root 36 (p * 2 ^ 96) 0)) (primes 64).

Definition H0 : list Z :=
  Eval vm_compute in map (fun p => w32 (Z.sqrt (p * 2 ^ 64))) (primes 8).

(** [n] as [len] big-endian bytes. *)
Fixpoint be_bytes (len : nat) (n : Z) : list Z :=
  match len with
  | O => []
  | S len' => be_bytes len' (n / 256) ++ [n mod 256]
  end.

Definition pad (msg : list Z) : list Z :=
  let l := Z.of_nat (List.length msg) in
  let k := (55 - l) mod 64 in
  msg ++ [0x80] ++ repeat 0 (Z.to_nat k) ++ be_bytes 8 (8 * l).

Fixpoint words (bs : list Z) : list Z :=
  match bs with
  | a :: b :: c :: d :: rest =>
      (((a * 256 + b) * 256 + c) * 256 + d) :: words rest
  | _ => []
  end.

(** The message schedule, newest word first. *)
Fixpoint schedule (n : nat) (ws : list Z) : list Z :=
  match n with
  | O => ws
  | S n' =>
      let w := add32 (add32 (sigma1 (nth 1 ws 0)) (nth 6 ws 0))
                     (add32 (sigma0 (nth 14 ws 0)) (nth 15 ws 0)) in
      schedule n' (w :: ws)
  end.

Record regs : Type := { ra : Z; rb : Z; rc : Z; rd : Z;
                        re : Z; rf : Z; rg : Z; rh : Z }.

Definition round (r : regs) (kw : Z * Z) : regs :=
  let t1 := add32 (add32 (add32 (rh r) (Sigma1 (re r)))
                         (add32 (Ch (re r) (rf r) (rg r)) (fst kw)))
                  (snd kw) in
  let t2 := add32 (Sigma0 (ra r)) (Maj (ra r) (rb r) (rc r)) in
  {| ra := add32 t1 t2; rb := ra r; rc := rb r; rd := rc r;
     re := add32 (rd r) t1; rf := re r; rg := rf r; rh := rg r |}.

Definition compress (h : list Z) (block : list Z) : list Z :=
  let ws := rev (schedule 48 (rev (words block))) in
  let r0 := {| ra := nth 0 h 0; rb := nth 1 h 0; rc := nth 2 h 0;
               rd := nth 3 h 0; re := nth 4 h 0; rf := nth 5 h 0;
               rg := nth 6 h 0; rh := nth 7 h 0 |} in
  let r := fold_left round (combine K ws) r0 in
  map (fun p => add32 (fst p) (snd p))
      (combine h [ra r; rb r; rc r; rd r; re r; rf r; rg r; rh r]).

Fixpoint blocks (n : nat) (h : list Z) (bs : list Z) : list Z :=
  match n with
  | O => h
  | S n' =>
      match bs with
      | [] => h
      | _ => blocks n' (compress h (firstn 64 bs)) (skipn 64 bs)
      end
  end.

Definition digest (msg : string) : string :=
  let bs := pad (map byte_val (list_ascii_of_string msg)) in
  let h := blocks (List.length bs) H0 bs in
  string_of_list_ascii (map byte_chr (flat_map (be_bytes 4) h)).

End SHA256.

Definition sha256 : string -> string := SHA256.digest.

Definition hex_digit (upper : bool) (n : Z) : ascii :=
  if n <? 10 then byte_chr (48 + n)
  else byte_chr ((if upper then 55 else 87) + n).

(** [bytes.hex()], and [.upper()] of it when [upper]. *)
Definition hex (upper : bool) (s : string) : string :=
  string_of_list_ascii
    (flat_map (fun c => [hex_digit upper (byte_val c / 16);
                         hex_digit upper (byte_val c mod 16)])
              (list_ascii_of_string s)).

Module Base64.

Definition alphabet : list ascii :=
  list_ascii_of_string
    "ABCDEFGHIJKLMNOPQRSTUVWXYZabcdefghijklmnopqrstuvwxyz0123456789+/".

Definition urlsafe_alphabet : list ascii :=
  list_ascii_of_string
    "ABCDEFGHIJKLMNOPQRSTUVWXYZabcdefghijklmnopqrstuvwxyz0123456789-_".

Definition sextet (abc : list ascii) (i : Z) : ascii :=
  nth (Z.to_nat i) abc "="%char.

(** The sextets of one, two and three bytes. *)
Definition s1 (a : ascii) : Z := byte_val a / 4.
Definition s2 (a b : ascii) : Z := (byte_val a mod 4) * 16 + byte_val b / 16.
Definition s3 (b c : ascii) : Z := (byte_val b mod 16) * 4 + byte_val c / 64.
Definition s4 (c : ascii) : Z := byte_val c mod 64.

Definition zero : ascii := byte_chr 0.

(** [base64.b64encode] *)
Fixpoint b64encode (bs : list ascii) : list ascii :=
  match bs with
  | [] => []
  | [a] =>
      [sextet alphabet (s1 a); sextet alphabet (s2 a zero);
       "="%char; "="%char]
  | [a; b] =>
      [sextet alphabet (s1 a); sextet alphabet (s2 a b);
       sextet alphabet (s3 b zero); "="%char]
  | a :: b :: c :: rest =>
      sextet alphabet (s1 a) :: sextet alphabet (s2 a b)
      :: sextet alphabet (s3 b c) :: sextet alphabet (s4 c)
      :: b64encode rest
  end.

(** [bytes.translate] with the table of [urlsafe_b64encode]:
    [+] becomes [-] and [/] becomes [_]. *)
Definition urlsafe_translate (c : ascii) : ascii :=
  if Ascii.eqb c "+" then "-"%char
  else if Ascii.eqb c "/" then "_"%char
  else c.

(** [base64.urlsafe_b64encode] *)
Definition urlsafe_b64encode (s : string) : string :=
  string_of_list_ascii
    (map urlsafe_translate (b64encode (list_ascii_of_string s))).

(** What the specification calls base64url without padding (RFC 4648,
    section 5, padding omitted), written from its words: every three
    bytes give four characters of the URL-safe alphabet, a rest of one
    byte gives two and a rest of two bytes gives three. *)
Fixpoint base64url_nopad_list (bs : list ascii) : list ascii :=
  match bs with
  | [] => []
  | [a] =>
      [sextet urlsafe_alphabet (s1 a); sextet urlsafe_alphabet (s2 a zero)]
  | [a; b] =>
      [sextet urlsafe_alphabet (s1 a); sextet urlsafe_alphabet (s2 a b);
       sextet urlsafe_alphabet (s3 b zero)]
  | a :: b :: c :: rest =>
      sextet urlsafe_alphabet (s1 a) :: sextet urlsafe_alphabet (s2 a b)
      :: sextet urlsafe_alphabet (s3 b c) :: sextet urlsafe_alphabet (s4 c)
      :: base64url_nopad_list rest
  end.

Definition base64url_nopad (s : string) : string :=
  string_of_list_ascii (base64url_nopad_list (list_ascii_of_string s)).

(** The entry [n] of the two alphabets: translating the standard one
    gives the URL-safe one, and that is not the padding character. *)
Definition sextet_ok (n : nat) : bool :=
  let i := Z.of_nat n in
  (Ascii.eqb (urlsafe_translate (sextet alphabet i))
             (sextet urlsafe_alphabet i)
   && negb (Ascii.eqb (sextet urlsafe_alphabet i) "="))%bool.

Definition no_pad (cs : list ascii) : Prop :=
  Forall (fun c => c <> "="%char) cs.

End Base64.

(** [s.rstrip(chars)] for a one-character [chars]. *)
Fixpoint lstrip_char (c : ascii) (cs : list ascii) : list ascii :=
  match cs with
  | c' :: cs' => if Ascii.eqb c' c then lstrip_char c cs' else cs
  | [] => []
  end.

Definition rstrip (c : ascii) (s : string) : string :=
  string_of_list_ascii (rev (lstrip_char c (rev (list_ascii_of_string s)))).

(** Sequencing of pure computations that may raise. *)
Definition rbind {A B} (r : res A) (k : A -> res B) : res B :=
  match r with
  | inr a => k a
  | inl e => inl e
  end.

Notation "x <~ c ;; k" := (rbind c (fun x => k))
  (at level 61, c at next level, right associativity).

Fixpoint rmap {A B} (f : A -> res B) (l : list A) : res (list B) :=
  match l with
  | [] => Ok []
  | a :: l' => b <~ f a ;; bs <~ rmap f l' ;; Ok (b :: bs)
  end.

(** [d[k1]...[kn] = v]: the inner objects are reached through [d] and
    changed in place, so the assignment shows in [d]. *)
Fixpoint set_path (ks : list string) (v : json) (d : json) : res json :=
  match ks with
  | [] => Ok v
  | [k] => setitem d k v
  | k :: ks' =>
      child <~ subscript d k ;;
      child' <~ set_path ks' v child ;;
      setitem d k child'
  end.

(** [iter(v)]: the items a [for] loop, a comprehension or [list.extend]
    takes from [v]. *)
Definition iterate (v : json) : res (list json) :=
  match v with
  | JList l => Ok l
  | JDict d => Ok (map (fun kv => JStr (fst kv)) d)
  | JStr s => Ok (map (fun c => JStr (String c EmptyString))
                      (list_ascii_of_string s))
  | JNull | JBool _ | JInt _ | JFloat _ => Err TypeError
  end.

(** [s.encode()] of a value that has to be a [str]. *)
Definition encode (v : json) : res string :=
  match v with
  | JStr s => Ok s
  | _ => Err AttributeError
  end.

(** [b.decode("utf-8")]: a [str] holds the UTF-8 bytes of its text, so
    decoding checks that the bytes are well formed and keeps them. *)
Fixpoint utf8_valid (bs : list Z) : bool :=
  match bs with
  | [] => true
  | b0 :: r0 =>
      if b0 <=? 0x7F then utf8_valid r0
      else
        match r0 with
        | [] => false
        | b1 :: r1 =>
            if (0xC2 <=? b0) && (b0 <=? 0xDF)
            then continuation b1 && utf8_valid r1
            else
              match r1 with
              | [] => false
              | b2 :: r2 =>
                  if (0xE0 <=? b0) && (b0 <=? 0xEF) then
                    (if b0 =? 0xE0 then (0xA0 <=? b1) && (b1 <=? 0xBF)
                     else if b0 =? 0xED then (0x80 <=? b1) && (b1 <=? 0x9F)
                     else continuation b1)
                    && continuation b2 && utf8_valid r2
                  else
                    match r2 with
                    | [] => false
                    | b3 :: r3 =>
                        (0xF0 <=? b0) && (b0 <=? 0xF4)
                        && (if b0 =? 0xF0 then (0x90 <=? b1) && (b1 <=? 0xBF)
                            else if b0 =? 0xF4
                                 then (0x80 <=? b1) && (b1 <=? 0x8F)
                            else continuation b1)
                        && continuation b2 && continuation b3
                        && utf8_valid r3
                    end
              end
        end
  end.

Definition decode_utf8 (b : string) : res string :=
  if utf8_valid (map byte_val (list_ascii_of_string b)) then Ok b
  else Err UnicodeDecodeError.

(** ** URLs *)

(** [s.find(sub)] *)
Definition find (s sub : string) : Z :=
  match index 0 sub s with
  | Some i => Z.of_nat i
  | None => -1
  end.

Fixpoint before (c : ascii) (cs : list ascii) : list ascii :=
  match cs with
  | [] => []
  | c' :: cs' => if Ascii.eqb c' c then [] else c' :: before c cs'
  end.

Fixpoint after (c : ascii) (cs : list ascii) : option (list ascii) :=
  match cs with
  | [] => None
  | c' :: cs' => if Ascii.eqb c' c then Some cs' else after c cs'
  end.

Fixpoint split_on (sep : ascii) (cs : list ascii) : list (list ascii) :=
  match cs with
  | [] => [[]]
  | c :: cs' =>
      if Ascii.eqb c sep then [] :: split_on sep cs'
      else
        match split_on sep cs' with
        | piece :: pieces => (c :: piece) :: pieces
        | [] => [[c]]
        end
  end.

(** What [urlsplit] asks of [ipaddress] and [unicodedata], neither of
    which is modelled: whether [_check_bracketed_host] accepts a host, and
    whether the NFKC form of a host that is not 7-bit is free of the
    characters [/?#@:]. *)
Record host_checks : Type := {
  bracketed_host_ok : string -> bool;
  nfkc_netloc_ok : string -> bool
}.

Definition has (c : ascii) (cs : list ascii) : bool :=
  existsb (Ascii.eqb c) cs.

Definition is_7bit (c : ascii) : bool := byte_val c <? 128.

Definition is_alpha (c : ascii) : bool :=
  let n := byte_val c in
  ((65 <=? n) && (n <=? 90)) || ((97 <=? n) && (n <=? 122)).

Definition is_scheme_char (c : ascii) : bool :=
  is_alpha c || is_digit c || has c ["+"; "-"; "."]%char.

Fixpoint lstrip_c0 (cs : list ascii) : list ascii :=
  match cs with
  | c :: cs' => if byte_val c <=? 32 then lstrip_c0 cs' else cs
  | [] => []
  end.

Definition is_unsafe (c : ascii) : bool :=
  let n := byte_val c in (n =? 9) || (n =? 10) || (n =? 13).

(** The URL without its scheme, when it has one. *)
Definition without_scheme (cs : list ascii) : list ascii :=
  match cs, after ":" cs with
  | c0 :: _, Some rest =>
      if is_alpha c0 && forallb is_scheme_char (before ":" cs) then rest
      else cs
  | _, _ => cs
  end.

Fixpoint netloc_of (cs : list ascii) : list ascii :=
  match cs with
  | [] => []
  | c :: cs' => if has c ["/"; "?"; "#"]%char then [] else c :: netloc_of cs'
  end.

Fixpoint after_netloc (cs : list ascii) : list ascii :=
  match cs with
  | [] => []
  | c :: cs' => if has c ["/"; "?"; "#"]%char then cs else after_netloc cs'
  end.

(** [s.rpartition(c)[2]] *)
Fixpoint after_last (c : ascii) (cs : list ascii) : list ascii :=
  match cs with
  | [] => []
  | c' :: cs' =>
      if has c cs' then after_last c cs'
      else if Ascii.eqb c' c then cs' else cs
  end.

(** [_check_bracketed_netloc], for a host with both brackets. *)
Definition check_bracketed_netloc (checks : host_checks) (netloc : list ascii)
  : bool :=
  let hostname_and_port := after_last "@" netloc in
  match after "[" hostname_and_port with
  | Some bracketed =>
      match before "[" hostname_and_port with
      | _ :: _ => false
      | [] =>
          match after "]" bracketed with
          | Some (c :: _) =>
              Ascii.eqb c ":"
              && bracketed_host_ok checks
                   (string_of_list_ascii (before "]" bracketed))
          | Some [] | None =>
              bracketed_host_ok checks
                (string_of_list_ascii (before "]" bracketed))
          end
      end
  | None =>
      bracketed_host_ok checks
        (string_of_list_ascii (before ":" hostname_and_port))
  end.

Definition netloc_ok (checks : host_checks) (netloc : list ascii) : bool :=
  (if has "[" netloc then has "]" netloc && check_bracketed_netloc checks netloc
   else negb (has "]" netloc))
  && (forallb is_7bit netloc
      || nfkc_netloc_ok checks (string_of_list_ascii netloc)).

(** [urlparse(url).query]: control characters and spaces in front and
    tabs and line breaks anywhere are dropped, the scheme and the host
    are taken off, the fragment is cut at the first [#], and the query is
    what follows the first [?] of the rest.  A host that is not
    acceptable raises [ValueError]. *)
Definition url_query (checks : host_checks) (url : string)
  : res (list ascii) :=
  let cs :=
    filter (fun c => negb (is_unsafe c))
           (lstrip_c0 (list_ascii_of_string url)) in
  let rest := without_scheme cs in
  match rest with
  | "/"%char :: "/"%char :: host =>
      if netloc_ok checks (netloc_of host) then
        match after "?" (before "#" (after_netloc host)) with
        | Some q => Ok q
        | None => Ok []
        end
      else Err ValueError
  | _ =>
      match after "?" (before "#" rest) with
      | Some q => Ok q
      | None => Ok []
      end
  end.

Definition hex_val (c : ascii) : option Z :=
  let n := byte_val c in
  if (48 <=? n) && (n <=? 57) then Some (n - 48)
  else if (65 <=? n) && (n <=? 70) then Some (n - 55)
  else if (97 <=? n) && (n <=? 102) then Some (n - 87)
  else None.

(** [unquote_to_bytes]: every [%XX] becomes the byte XX, anything else
    stays. *)
Fixpoint unquote_to_bytes (cs : list ascii) : list ascii :=
  match cs with
  | [] => []
  | c :: cs' =>
      if Ascii.eqb c "%" then
        match cs' with
        | h :: l :: rest =>
            match hex_val h, hex_val l with
            | Some a, Some b => byte_chr (16 * a + b) :: unquote_to_bytes rest
            | _, _ => c :: unquote_to_bytes cs'
            end
        | _ => c :: unquote_to_bytes cs'
        end
      else c :: unquote_to_bytes cs'
  end.

(** The runs of 7-bit characters and the runs of other characters of a
    text, in order. *)
Fixpoint runs (cs : list ascii) : list (bool * list ascii) :=
  match cs with
  | [] => []
  | c :: cs' =>
      match runs cs' with
      | (plain, run) :: rest =>
          if Bool.eqb (is_7bit c) plain then (plain, c :: run) :: rest
          else (is_7bit c, [c]) :: (plain, run) :: rest
      | [] => [(is_7bit c, [c])]
      end
  end.

(** [unquote]: a text without [%] is returned as it is; otherwise every
    run of 7-bit characters is unquoted to bytes and these are decoded as
    UTF-8, what is not well formed being replaced by U+FFFD. *)
Definition unquote (cs : list ascii) : list ascii :=
  if has "%" cs then
    flat_map
      (fun r : bool * list ascii =>
         if fst r
         then map byte_chr
                (decode_replace (map byte_val (unquote_to_bytes (snd r))))
         else snd r)
      (runs cs)
  else cs.

Definition unquote_plus (cs : list ascii) : string :=
  string_of_list_ascii
    (unquote (map (fun c => if Ascii.eqb c "+" then " "%char else c) cs)).

(** [parse_qsl(qs)]: the fields are separated by [&]; a field without
    [=] or with nothing after it is dropped. *)
Definition parse_qsl (qs : list ascii) : list (string * string) :=
  flat_map
    (fun name_value =>
       match after "=" name_value with
       | Some (c :: value) =>
           [(unquote_plus (before "=" name_value), unquote_plus (c :: value))]
       | Some [] | None => []
       end)
    (split_on "&" qs).

(** [parse_qs(qs)[key][0]]: the first value given for [key]. *)
Fixpoint first_value (key : string) (fields : list (string * string))
  : res string :=
  match fields with
  | [] => Err (KeyError key)
  | (k, v) :: fields' =>
      if (k =? key)%string then Ok v else first_value key fields'
  end.

(** ** The world *)

Inductive path : Type :=
| user_path    (* CACHE_DIR/.amazon.user *)
| cache_path.  (* CACHE_DIR/amazon-library.json *)

Inductive level : Type := DEBUG | INFO | WARNING | ERROR.

Record AmazonGame : Type := {
  appid : string;
  slug : string;
  name : json;
  details : string
}.

Inductive event : Type :=
| EvLog (lv : level) (fmt : string) (args : list json)
| EvRead (p : path)
| EvWrite (p : path) (content : json)
| EvPost (url : string) (headers : list (string * json)) (body : json)
| EvEmit (signal : string)
| EvSave (g : AmazonGame).

(** What the network is going to do with one request: after [latency]
    seconds either a JSON body ([Some]) or an [HTTPError] ([None]). *)
Record reply : Type := {
  latency : Q;
  payload : option json
}.

Record world : Type := {
  w_user : option json;
  w_cache : option json;
  w_is_loading : bool;
  w_client_id : json;
  w_serial : json;
  w_verifier : option string;
  w_now : Q;
  w_net : list reply;
  w_trace : list event
}.

(** ** Methods: state, exceptions and a network that may not answer *)

Inductive outcome (A : Type) : Type :=
| Done (a : A)
| Raised (e : exn)
| Blocked.
Arguments Done {A} a.
Arguments Raised {A} e.
Arguments Blocked {A}.

Definition M (A : Type) : Type := world -> outcome A * world.

Definition ret {A} (a : A) : M A := fun w => (Done a, w).

Definition bind {A B} (c : M A) (k : A -> M B) : M B :=
  fun w =>
    match c w with
    | (Done a, w') => k a w'
    | (Raised e, w') => (Raised e, w')
    | (Blocked, w') => (Blocked, w')
    end.

Definition raise {A} (e : exn) : M A := fun w => (Raised e, w).

Definition lift {A} (r : res A) : M A :=
  match r with
  | inr a => ret a
  | inl e => raise e
  end.

(** [try: c  except: h] with a bare [except]: every exception is caught.
    A request that is never answered is not an exception. *)
Definition try_except {A} (c : M A) (h : M A) : M A :=
  fun w =>
    match c w with
    | (Raised _, w') => h w'
    | r => r
    end.

Declare Scope monad_scope.
Delimit Scope monad_scope with monad.
Notation "x <- c ;; k" := (bind c (fun x => k))
  (at level 61, c at next level, right associativity) : monad_scope.
Notation "c ;; k" := (bind c (fun _ => k))
  (at level 61, right associativity) : monad_scope.
Local Open Scope monad_scope.

(** The world after the events [es]. *)
Definition add_trace (es : list event) (w : world) : world :=
  {| w_user := w_user w; w_cache := w_cache w;
     w_is_loading := w_is_loading w; w_client_id := w_client_id w;
     w_serial := w_serial w; w_verifier := w_verifier w;
     w_now := w_now w; w_net := w_net w;
     w_trace := (w_trace w ++ es)%list |}.

Definition record (e : event) : M unit :=
  fun w => (Done tt, add_trace [e] w).

Definition log (lv : level) (fmt : string) (args : list json) : M unit :=
  record (EvLog lv fmt args).

(** [time.time()] *)
Definition time_time : M Q := fun w => (Done (w_now w), w).

Definition file (p : path) (w : world) : option json :=
  match p with
  | user_path => w_user w
  | cache_path => w_cache w
  end.

(** Modelled from the spec: [system.path_exists] (lutris/util/system.py
    is not among the sources) tells whether the file exists. *)
Definition path_exists (p : path) : M bool :=
  fun w => (Done (match file p w with Some _ => true | None => false end), w).

(** [with open(p, "r") as f: json.load(f)] *)
Definition read_json (p : path) : M json :=
  fun w =>
    match file p w with
    | Some v => record (EvRead p) ;; ret v
    | None => raise FileNotFoundError
    end w.

(** The world in which the file [p] holds [v]. *)
Definition set_file (p : path) (v : json) (w : world) : world :=
  {| w_user := match p with user_path => Some v | _ => w_user w end;
     w_cache := match p with cache_path => Some v | _ => w_cache w end;
     w_is_loading := w_is_loading w; w_client_id := w_client_id w;
     w_serial := w_serial w; w_verifier := w_verifier w;
     w_now := w_now w; w_net := w_net w; w_trace := w_trace w |}.

(** [with open(p, "w") as f: f.write(json.dumps(v))], and [json.dump(v, f)]:
    the file is replaced as a whole. *)
Definition write_json (p : path) (v : json) : M unit :=
  fun w => (Done tt, add_trace [EvWrite p v] (set_file p v w)).

(** ** AmazonService *)

Definition save_user_data (user_data : json) : M unit :=
  write_json user_path user_data.

Definition load_user_data : M json := read_json user_path.

Definition is_token_expired : M bool :=
  user_data <- load_user_data ;;
  token_obtain_time <- lift (subscript user_data "token_obtain_time") ;;
  tokens <- lift (subscript user_data "tokens") ;;
  bearer <- lift (subscript tokens "bearer") ;;
  expires_in <- lift (subscript bearer "expires_in") ;;
  if (negb (truthy token_obtain_time) || negb (truthy expires_in))%bool
  then ret false
  else
    now <- time_time ;;
    n <- lift (py_int expires_in) ;;
    deadline <- lift (add_int token_obtain_time n) ;;
    ret (gt_number now deadline).

Definition get_world : M world := fun w => (Done w, w).

(** The world once the reply [r] has arrived: the clock has advanced by
    the time it took, and [rest] are the replies still to come. *)
Definition receive (r : reply) (rest : list reply) (w : world) : world :=
  {| w_user := w_user w; w_cache := w_cache w;
     w_is_loading := w_is_loading w; w_client_id := w_client_id w;
     w_serial := w_serial w; w_verifier := w_verifier w;
     w_now := (w_now w + latency r)%Q; w_net := rest;
     w_trace := w_trace w |}.

(** Modelled from the spec: [Request(url, headers).post(body)] followed
    by [request.json] (lutris/util/http.py is not among the sources) is
    the transport collaborator: it issues the request and either exposes
    the parsed JSON of the reply or signals the one transport error,
    [HTTPError] (here [None]), which every caller below catches on the
    spot.  When the network has no reply to give, the call does not
    return. *)
Definition post (url : string) (headers : list (string * json)) (body : json)
  : M (option json) :=
  record (EvPost url headers body) ;;
  fun w =>
    match w_net w with
    | [] => (Blocked, w)
    | r :: rest => (Done (payload r), receive r rest w)
    end.

Definition set_is_loading (b : bool) : M unit :=
  fun w =>
    (Done tt,
     {| w_user := w_user w; w_cache := w_cache w;
        w_is_loading := b; w_client_id := w_client_id w;
        w_serial := w_serial w; w_verifier := w_verifier w;
        w_now := w_now w; w_net := w_net w; w_trace := w_trace w |}).

Definition amazon_api : string := "https://api.amazon.com".
Definition amazon_sds : string := "https://sds.amazon.com".

Definition failed_to_request : string :=
  "Failed to request %s, check your Amazon credentials and internet connectivity".

Definition generate_challange (code_verifier : string) : M string :=
  let challenge_hash := sha256 code_verifier in
  let challenge := rstrip "=" (Base64.urlsafe_b64encode challenge_hash) in
  log INFO "Generated challange: %s" [JStr challenge] ;;
  ret challenge.

(** The [data] dict of [register_device]. *)
Definition registration_data (code : string) (client_id : json)
  (code_verifier : string) (serial : json) : json :=
  JDict
    [("auth_data",
      JDict [("authorization_code", JStr code);
             ("client_domain", JStr "DeviceLegacy");
             ("client_id", client_id);
             ("code_algorithm", JStr "SHA-256");
             ("code_verifier", JStr code_verifier);
             ("use_global_authentication", JBool false)]);
     ("registration_data",
      JDict [("app_name", JStr "AGSLauncher for Windows");
             ("app_version", JStr "1.0.0");
             ("device_model", JStr "Windows");
             ("device_name", JNull);
             ("device_serial", serial);
             ("device_type", JStr "A2UMVHOX7UP4V7");
             ("domain", JStr "Device");
             ("os_version", JStr "10.0.19044.0")]);
     ("requested_extensions",
      JList [JStr "customer_info"; JStr "device_info"]);
     ("requested_token_type", JList [JStr "bearer"; JStr "mac_dms"]);
     ("user_context_map", JDict [])].

Definition register_device (code : string) : M json :=
  w <- get_world ;;
  log INFO "Registerring a device. ID: %s" [w_client_id w] ;;
  code_verifier <- match w_verifier w with
                   | Some b => lift (decode_utf8 b)
                   | None => raise AttributeError
                   end ;;
  let data :=
    registration_data code (w_client_id w) code_verifier (w_serial w) in
  let url := amazon_api ++ "/auth/register" in
  r <- post url [] data ;;
  match r with
  | None => log ERROR failed_to_request [JStr url] ;; ret JNull
  | Some res_json =>
      log INFO "Succesfully registered a device" [] ;;
      response <- lift (subscript res_json "response") ;;
      user_data <- lift (subscript response "success") ;;
      ret user_data
  end.

(** [self.emit("service-login")] is the signal of the base class
    (lutris/services/base.py is not among the sources); it is recorded as
    an event. *)
Definition login_callback (checks : host_checks) (url : string) : M unit :=
  if find url "openid.oa2.authorization_code" >? 0 then
    log INFO "Got authorization code" [] ;;
    query_string <- lift (url_query checks url) ;;
    let query := parse_qsl query_string in
    auth_code <- lift (first_value "openid.oa2.authorization_code" query) ;;
    user_data <- register_device auth_code ;;
    if negb (truthy user_data) then ret tt
    else
      now <- time_time ;;
      user_data' <- lift (set_path ["token_obtain_time"] (JFloat now)
                                   user_data) ;;
      save_user_data user_data' ;;
      record (EvEmit "service-login")
  else ret tt.

Definition refresh_token : M unit :=
  let url := amazon_api ++ "/auth/token" in
  log INFO "Refreshing token" [] ;;
  user_data <- load_user_data ;;
  let headers :=
    [("Accept", JStr "application/json");
     ("Accept-Language", JStr "en_US");
     ("User-Agent", JStr "AGSLauncher/1.0.0");
     ("Content-Type", JStr "application/json");
     ("charset", JStr "utf-8")] in
  tokens <- lift (subscript user_data "tokens") ;;
  bearer <- lift (subscript tokens "bearer") ;;
  refresh_token <- lift (subscript bearer "refresh_token") ;;
  let request_data :=
    JDict [("source_token", refresh_token);
           ("source_token_type", JStr "refresh_token");
           ("requested_token_type", JStr "access_token");
           ("app_name", JStr "AGSLauncher for Windows");
           ("app_version", JStr "1.0.0")] in
  r <- post url headers request_data ;;
  match r with
  | None => log ERROR failed_to_request [JStr url]
  | Some res_json =>
      access_token <- lift (subscript res_json "access_token") ;;
      user_data1 <- lift (set_path ["tokens"; "bearer"; "access_token"]
                                   access_token user_data) ;;
      expires_in <- lift (subscript res_json "expires_in") ;;
      user_data2 <- lift (set_path ["tokens"; "bearer"; "expires_in"]
                                   expires_in user_data1) ;;
      now <- time_time ;;
      user_data3 <- lift (set_path ["token_obtain_time"] (JFloat now)
                                   user_data2) ;;
      save_user_data user_data3
  end.

(** The dict of [get_sync_request_data], [bytes] being [serial.encode()]. *)
Definition sync_request_data (bytes : string) (nextToken : json) : json :=
  JDict [("Operation", JStr "GetEntitlementsV2");
         ("clientId", JStr "Sonic");
         ("syncPoint", JNull);
         ("nextToken", nextToken);
         ("maxResults", JInt 50);
         ("productIdFilter", JNull);
         ("keyId", JStr "d5dc8b8b-86c8-4fc4-ae93-18c0def5314d");
         ("hardwareHash", JStr (hex true (sha256 bytes)))].

Definition get_sync_request_data (serial nextToken : json) : res json :=
  bytes <~ encode serial ;;
  Ok (sync_request_data bytes nextToken).

Definition sds_headers (target : string) (token : json)
  : list (string * json) :=
  [("X-Amz-Target", JStr target);
   ("x-amzn-token", token);
   ("User-Agent", JStr "com.amazon.agslauncher.win/2.1.7437.6");
   ("UserAgent", JStr "com.amazon.agslauncher.win/2.1.7437.6");
   ("Content-Type", JStr "application/json");
   ("Content-Encoding", JStr "amz-1.0")].

(** Returns [JNull] (Python's [None]) when the request fails. *)
Definition request_sds (target : string) (token body : json) : M json :=
  let headers := sds_headers target token in
  let url := amazon_sds ++ "/amazon/" in
  r <- post url headers body ;;
  match r with
  | None => log ERROR failed_to_request [JStr url] ;; ret JNull
  | Some j => ret j
  end.

Definition GetEntitlementsV2 : string :=
  "com.amazonaws.gearbox.softwaredistribution.service.model.SoftwareDistributionService.GetEntitlementsV2".

(** [k in obj], at a place where [obj] has already been subscripted with
    a string and is therefore a dict. *)
Definition contains (obj : json) (k : string) : bool :=
  match obj with
  | JDict d => dict_mem k d
  | _ => false
  end.

(** The [while True] loop of [get_library] (lines 349-369).  [None] is
    the [return] at line 361, [Some games] the [break] at line 366.  Every
    turn takes one reply from the network, so [get_library] runs the loop
    with one more turn than there are replies to come. *)
Fixpoint sync_loop (turns : nat) (serial access_token : json)
  (games : list json) (nextToken : json) : M (option (list json)) :=
  match turns with
  | O => fun w => (Blocked, w)
  | S turns' =>
      request_data <- lift (get_sync_request_data serial nextToken) ;;
      json_data <- request_sds GetEntitlementsV2 access_token request_data ;;
      if negb (truthy json_data) then ret None
      else
        entitlements <- lift (subscript json_data "entitlements") ;;
        items <- lift (iterate entitlements) ;;
        let games := (games ++ items)%list in
        if negb (contains json_data "nextToken") then ret (Some games)
        else
          log INFO "Got next token in response, making next request" [] ;;
          nextToken <- lift (subscript json_data "nextToken") ;;
          sync_loop turns' serial access_token games nextToken
  end.

(** Lines 339-345 of [get_library]: refresh the token when it has
    expired, then read the access token and the serial number. *)
Definition get_library_credentials : M (json * json) :=
  expired <- is_token_expired ;;
  (if expired then refresh_token else ret tt) ;;
  user_data <- load_user_data ;;
  tokens <- lift (subscript user_data "tokens") ;;
  bearer <- lift (subscript tokens "bearer") ;;
  access_token <- lift (subscript bearer "access_token") ;;
  extensions <- lift (subscript user_data "extensions") ;;
  device_info <- lift (subscript extensions "device_info") ;;
  serial <- lift (subscript device_info "device_serial_number") ;;
  ret (access_token, serial).

Definition get_library : M json :=
  cached <- path_exists cache_path ;;
  if cached then
    log DEBUG "Returning cached Amazon library" [] ;;
    read_json cache_path
  else
    credentials <- get_library_credentials ;;
    let (access_token, serial) := credentials in
    w <- get_world ;;
    fetched <- sync_loop (S (List.length (w_net w)))
                         serial access_token [] JNull ;;
    match fetched with
    | None => ret JNull
    | Some games =>
        write_json cache_path (JList games) ;;
        ret (JList games)
    end.

(** Modelled from the spec: [OnlineService.is_authenticated]
    (lutris/services/base.py is not among the sources) is "local
    credentials exist": every file of [credential_files], which is
    [[user_path]], exists. *)
Definition is_authenticated : M bool := path_exists user_path.

Section Load.

(** Collaborators of [AmazonGame.new_from_amazon_game]: the builtin
    [str], [slugify] of lutris.util.strings and [json.dumps]. *)
Variable py_str : json -> string.
Variable slugify : json -> res string.
Variable json_dumps : json -> string.

Definition new_from_amazon_game (amazon_game : json) : res AmazonGame :=
  id <~ subscript amazon_game "id" ;;
  product <~ subscript amazon_game "product" ;;
  title <~ subscript product "title" ;;
  slug <~ slugify title ;;
  product' <~ subscript amazon_game "product" ;;
  name <~ subscript product' "title" ;;
  Ok {| appid := py_str id; slug := slug; name := name;
        details := json_dumps amazon_game |}.

(** [for game in games: game.save()].  Modelled from the spec:
    [ServiceGame.save] (lutris/services/service_game.py is not among the
    sources) persists the mapped record; it is recorded as an event. *)
Fixpoint save_all (games : list AmazonGame) : M unit :=
  match games with
  | [] => ret tt
  | game :: games' => record (EvSave game) ;; save_all games'
  end.

(** The result is [None] or the list of games. *)
Definition load : M (option (list AmazonGame)) :=
  w <- get_world ;;
  if w_is_loading w then
    log WARNING "Amazon games are already loading" [] ;;
    ret None
  else
    authenticated <- is_authenticated ;;
    if negb authenticated then
      log ERROR "User not connected to Amazon" [] ;;
      ret None
    else
      set_is_loading true ;;
      games <- try_except
                 (library <- get_library ;;
                  items <- lift (iterate library) ;;
                  games <- lift (rmap new_from_amazon_game items) ;;
                  save_all games ;;
                  ret (Some games))
                 (log ERROR "Unable to get games library" [] ;;
                  ret None) ;;
      set_is_loading false ;;
      ret games.

End Load.

(** ** Vocabulary of the properties *)

(** [d[k1][k2]...] *)
Fixpoint get_path (ks : list string) (d : json) : res json :=
  match ks with
  | [] => Ok d
  | k :: ks' => v <~ subscript d k ;; get_path ks' v
  end.

(** [x] is a binary64 value: rounding leaves it as it is. *)
Definition is_binary64 (x : Q) : bool :=
  match round_b64 x with
  | Finite x' => Qeq_bool x' x
  | Infinity _ | NaN => false
  end.

(** [now] is past the number [x]. *)
Definition exceeds (now : Q) (x : number) : Prop :=
  match x with
  | Finite q => (q < now)%Q
  | Infinity negative => negative = true
  | NaN => False
  end.

(** The reply [r] is a page of entitlements: a JSON object whose
    [entitlements] is the array [ents] and whose [nextToken] is [next]
    ([None]: the key is not there). *)
Definition is_page (r : reply) (ents : list json) (next : option json)
  : Prop :=
  exists d,
    payload r = Some (JDict d) /\
    dict_get "entitlements" d = Some (JList ents) /\
    dict_get "nextToken" d = next.

(** [rs] are pages that announce a next page: the entitlements and the
    [nextToken] of each are in [more]. *)
Definition are_pages (rs : list reply) (more : list (list json * json))
  : Prop :=
  Forall2 (fun r p => is_page r (fst p) (Some (snd p))) rs more.

(** The bodies of the requests sent to the entitlement endpoint, oldest
    first. *)
Definition sds_requests (tr : list event) : list json :=
  flat_map
    (fun e =>
       match e with
       | EvPost url _ body =>
           if (url =? amazon_sds ++ "/amazon/")%string then [body] else []
       | _ => []
       end)
    tr.

(** All the requests sent, whatever the endpoint. *)
Definition requests (tr : list event) : list event :=
  filter (fun e => match e with EvPost _ _ _ => true | _ => false end) tr.

(** What was written to the file [p], oldest first. *)
Definition writes (p : path) (tr : list event) : list json :=
  flat_map
    (fun e =>
       match e with
       | EvWrite user_path v =>
           match p with user_path => [v] | cache_path => [] end
       | EvWrite cache_path v =>
           match p with cache_path => [v] | user_path => [] end
       | _ => []
       end)
    tr.

(** The signals emitted. *)
Definition emitted (tr : list event) : list string :=
  flat_map (fun e => match e with EvEmit s => [s] | _ => [] end) tr.

(** The fields [refresh_token] assigns. *)
Definition refreshed_fields : list (list string) :=
  [["tokens"; "bearer"; "access_token"];
   ["tokens"; "bearer"; "expires_in"];
   ["token_obtain_time"]].

Fixpoint is_prefix (p q : list string) : bool :=
  match p, q with
  | [], _ => true
  | _ :: _, [] => false
  | a :: p', b :: q' => ((a =? b)%string && is_prefix p' q')%bool
  end.

(** Two paths that part ways: neither leads to the other. *)
Definition apart (p q : list string) : bool :=
  (negb (is_prefix p q) && negb (is_prefix q p))%bool.

(** A field that is none of the refreshed ones, nor inside one, nor
    around one. *)
Definition other_field (p : list string) : bool :=
  forallb (apart p) refreshed_fields.

(** A service that has just been created, with the given credential
    file, clock and network. *)
Definition fresh_world (user : option json) (now : Q) (net : list reply)
  : world :=
  {| w_user := user; w_cache := None; w_is_loading := false;
     w_client_id := JNull; w_serial := JNull; w_verifier := None;
     w_now := now; w_net := net; w_trace := [] |}.

Definition user_doc (token_obtain_time expires_in : list (string * json))
  : json :=
  JDict
    ([("extensions",
       JDict [("device_info",
               JDict [("device_serial_number", JStr "G0W0XX");
                      ("device_type", JStr "A2UMVHOX7UP4V7")])]);
      ("tokens",
       JDict [("bearer",
               JDict ([("access_token", JStr "Atna|old")]
                      ++ expires_in
                      ++ [("refresh_token", JStr "Atnr|r0")]))])]
     ++ token_obtain_time)%list.

Definition sds_url : string := amazon_sds ++ "/amazon/".
Definition token_url : string := amazon_api ++ "/auth/token".
Definition register_url : string := amazon_api ++ "/auth/register".
Definition auth_code_key : string := "openid.oa2.authorization_code".

(** The world once the entitlement endpoint has answered [r] to the
    request [body]. *)
Definition asked (tok : json) (body : json) (r : reply) (rest : list reply)
  (w : world) : world :=
  receive r rest
    (add_trace [EvPost sds_url (sds_headers GetEntitlementsV2 tok) body] w).

(** [w'] has the files and the flag of [w]. *)
Definition quiet (w w' : world) : Prop :=
  w_user w' = w_user w /\ w_cache w' = w_cache w /\
  w_is_loading w' = w_is_loading w.

(** A method that never touches the library cache. *)
Definition keeps_cache {A} (c : M A) : Prop :=
  forall w, w_cache (snd (c w)) = w_cache w.

(** *** Scenarios *)

Definition page (ents : list json) (next : option json) : reply :=
  {| latency := 1 # 2;
     payload :=
       Some (JDict (("entitlements", JList ents)
                    :: match next with
                       | Some t => [("nextToken", t)]
                       | None => []
                       end)) |}.

Definition http_error : reply := {| latency := 3; payload := None |}.

Definition game (id title : string) : json :=
  JDict [("id", JStr id); ("product", JDict [("title", JStr title)])].

(** Credentials obtained at time 100 and valid for an hour. *)
Definition doc_valid : json :=
  user_doc [("token_obtain_time", JFloat 100)] [("expires_in", JStr "3600")].

Definition three_pages : list reply :=
  [page [game "a1" "Alpha"; game "b2" "Beta"] (Some (JStr "cursor-1"));
   page [game "c3" "Gamma"] (Some (JStr "cursor-2"));
   page [game "d4" "Delta"] None].

Definition world_three_pages : world :=
  fresh_world (Some doc_valid) 200 three_pages.

Definition world_page_two_fails : world :=
  fresh_world (Some doc_valid) 200
    [page [game "a1" "Alpha"] (Some (JStr "cursor-1"));
     http_error;
     page [game "d4" "Delta"] None].

Definition world_empty_library : world :=
  fresh_world (Some doc_valid) 200 [page [] None].

Definition world_cached : world :=
  {| w_user := None; w_cache := Some (JList [game "a1" "Alpha"]);
     w_is_loading := false; w_client_id := JNull; w_serial := JNull;
     w_verifier := None; w_now := 200; w_net := [http_error];
     w_trace := [] |}.

Definition token_reply : reply :=
  {| latency := 2;
     payload := Some (JDict [("access_token", JStr "Atna|new");
                             ("token_type", JStr "bearer");
                             ("expires_in", JInt 3600)]) |}.

Definition world_refresh (r : reply) : world :=
  fresh_world (Some doc_valid) 4000 [r].

Definition registration_reply : reply :=
  {| latency := 2;
     payload :=
       Some (JDict
               [("response",
                 JDict [("success",
                         JDict [("tokens",
                                 JDict [("bearer",
                                         JDict [("access_token", JStr "Atna|a");
                                                ("refresh_token", JStr "Atnr|r");
                                                ("expires_in", JStr "3600")])])])])]) |}.

(** Checks that accept no host in brackets and no host beyond the 7-bit
    characters; the hosts of the scenarios are neither. *)
Definition plain_hosts : host_checks :=
  {| bracketed_host_ok := fun _ => false;
     nfkc_netloc_ok := fun _ => false |}.

(** A text given by its bytes. *)
Definition of_bytes (bs : list Z) : string :=
  string_of_list_ascii (map byte_chr bs).

Definition redirect_url : string :=
  "https://www.amazon.com/?openid.assoc_handle=amzn_sonic_games_launcher&openid.oa2.authorization_code=ANdNAVhyhqirUelHGEHA&openid.mode=id_res".

(** A redirect in which the text is there but not as a parameter of the
    query. *)
Definition stray_url : string :=
  "https://www.amazon.com/?openid.assoc_handle=amzn_sonic_games_launcher&missing=openid.oa2.authorization_code".

Definition world_login (r : reply) : world :=
  {| w_user := None; w_cache := None; w_is_loading := false;
     w_client_id := JStr "3030"; w_serial := JStr "00";
     w_verifier := Some "dBjftJeZ4CVP-mB92K27uhbUJU1p1r_wW1gFWFOEjXk";
     w_now := 50; w_net := [r]; w_trace := [] |}.

Definition world_loading : world :=
  {| w_user := Some doc_valid; w_cache := None; w_is_loading := true;
     w_client_id := JNull; w_serial := JNull; w_verifier := None;
     w_now := 200; w_net := three_pages; w_trace := [] |}.

(** Stand-ins for the collaborators of [load] in the scenarios. *)
Definition id_text (v : json) : string :=
  match v with JStr s => s | _ => "" end.

Definition title_slug (title : json) : res string :=
  match title with JStr s => Ok s | _ => Err TypeError end.

Definition no_details (_ : json) : string := "".

(** ** The rest of the service: identity and login URL *)

(** [str(n)] for an [int]. *)
Fixpoint dec_digits (fuel : nat) (n : Z) (acc : list ascii) : list ascii :=
  match fuel with
  | O => acc
  | S fuel' =>
      let acc' := byte_chr (48 + n mod 10) :: acc in
      if n <? 10 then acc' else dec_digits fuel' (n / 10) acc'
  end.

Definition str_of_int (n : Z) : string :=
  let digits m := dec_digits (S (Z.to_nat (Z.log2 m))) m [] in
  string_of_list_ascii
    (if n <? 0 then "-"%char :: digits (- n) else digits n).

(** The characters [quote] never escapes: letters, digits and [_.-~]. *)
Definition always_safe (c : ascii) : bool :=
  let n := byte_val c in
  ((48 <=? n) && (n <=? 57)) || ((65 <=? n) && (n <=? 90))
  || ((97 <=? n) && (n <=? 122))
  || (n =? 95) || (n =? 46) || (n =? 45) || (n =? 126).

(** [quote_plus(s, safe="")], one character (one byte of the UTF-8 text)
    at a time: a space becomes [+], what is not always safe becomes
    [%XX] with capital digits. *)
Definition quote_plus_char (c : ascii) : list ascii :=
  if always_safe c then [c]
  else if Ascii.eqb c " " then ["+"%char]
  else ["%"%char; hex_digit true (byte_val c / 16);
        hex_digit true (byte_val c mod 16)].

Definition quote_plus (s : string) : list ascii :=
  flat_map quote_plus_char (list_ascii_of_string s).

(** A value of the dict given to [urlencode]. *)
Inductive urlarg : Type :=
| AStr (s : string)
| ABytes (b : string)
| AInt (n : Z).

(** What [urlencode] quotes: the bytes as they are, [str(v)] of the
    rest. *)
Definition urlarg_text (v : urlarg) : string :=
  match v with
  | AStr s => s
  | ABytes b => b
  | AInt n => str_of_int n
  end.

Fixpoint join (sep : ascii) (pieces : list (list ascii)) : list ascii :=
  match pieces with
  | [] => []
  | [p] => p
  | p :: pieces' => (p ++ sep :: join sep pieces')%list
  end.

(** [urlencode(arguments)] for a dict with [str] keys. *)
Definition urlencode (arguments : list (string * urlarg)) : string :=
  string_of_list_ascii
    (join "&"
       (map (fun kv =>
               (quote_plus (fst kv)
                ++ "="%char :: quote_plus (urlarg_text (snd kv)))%list)
            arguments)).

(** [generate_code_verifier], [token_bytes] being what
    [secrets.token_bytes(32)] returned. *)
Definition generate_code_verifier (token_bytes : string) : M string :=
  let code_verifier := rstrip "=" (Base64.urlsafe_b64encode token_bytes) in
  log INFO "Generated code_verifier: %s" [JStr code_verifier] ;;
  ret code_verifier.

(** [n] as [len] hexadecimal digits, the most significant first. *)
Fixpoint hex_digits (len : nat) (n : Z) : list ascii :=
  match len with
  | O => []
  | S len' => (hex_digits len' (n / 16) ++ [hex_digit false (n mod 16)])%list
  end.

(** [uuid.UUID(int=n).hex]: 32 digits for a 128-bit value, [ValueError]
    for anything else. *)
Definition uuid_hex (n : Z) : res string :=
  if (0 <=? n) && (n <? 2 ^ 128)
  then Ok (string_of_list_ascii (hex_digits 32 n))
  else Err ValueError.

(** [s.upper()] on 7-bit text. *)
Definition ascii_upper (c : ascii) : ascii :=
  let n := byte_val c in
  if (97 <=? n) && (n <=? 122) then byte_chr (n - 32) else c.

Definition upper (s : string) : string :=
  string_of_list_ascii (map ascii_upper (list_ascii_of_string s)).

(** [generate_device_serial], [node] being what [uuid.getnode()]
    returned. *)
Definition generate_device_serial (node : Z) : M string :=
  h <- lift (uuid_hex node) ;;
  let serial := upper h in
  log INFO "Generated serial: %s" [JStr serial] ;;
  ret serial.

(** [s.encode("ascii")]: [UnicodeEncodeError], which is a [ValueError],
    when a character is beyond the 7-bit ones. *)
Definition encode_ascii (s : string) : res string :=
  if forallb (fun c => byte_val c <? 128) (list_ascii_of_string s)
  then Ok s
  else Err ValueError.

Definition generate_client_id (serial : string) : M string :=
  let serialEx := serial ++ "#A2UMVHOX7UP4V7" in
  clientId <- lift (encode_ascii serialEx) ;;
  let clientIdHex := hex false clientId in
  log INFO "Generated client_id: %s" [JStr clientIdHex] ;;
  ret clientIdHex.

Definition set_verifier (v : option string) : M unit :=
  fun w =>
    (Done tt,
     {| w_user := w_user w; w_cache := w_cache w;
        w_is_loading := w_is_loading w; w_client_id := w_client_id w;
        w_serial := w_serial w; w_verifier := v;
        w_now := w_now w; w_net := w_net w; w_trace := w_trace w |}).

Definition set_serial (v : json) : M unit :=
  fun w =>
    (Done tt,
     {| w_user := w_user w; w_cache := w_cache w;
        w_is_loading := w_is_loading w; w_client_id := w_client_id w;
        w_serial := v; w_verifier := w_verifier w;
        w_now := w_now w; w_net := w_net w; w_trace := w_trace w |}).

Definition set_client_id (v : json) : M unit :=
  fun w =>
    (Done tt,
     {| w_user := w_user w; w_cache := w_cache w;
        w_is_loading := w_is_loading w; w_client_id := v;
        w_serial := w_serial w; w_verifier := w_verifier w;
        w_now := w_now w; w_net := w_net w; w_trace := w_trace w |}).

Definition marketplace_id : string := "ATVPDKIKX0DER".

(** The [arguments] dict of [login_url]. *)
Definition login_arguments (client_id challenge : string)
  : list (string * urlarg) :=
  [("openid.ns", AStr "http://specs.openid.net/auth/2.0");
   ("openid.claimed_id",
    AStr "http://specs.openid.net/auth/2.0/identifier_select");
   ("openid.identity",
    AStr "http://specs.openid.net/auth/2.0/identifier_select");
   ("openid.mode", AStr "checkid_setup");
   ("openid.oa2.scope", AStr "device_auth_access");
   ("openid.ns.oa2", AStr "http://www.amazon.com/ap/ext/oauth/2");
   ("openid.oa2.response_type", AStr "code");
   ("openid.oa2.code_challenge_method", AStr "S256");
   ("openid.oa2.client_id", AStr ("device:" ++ client_id));
   ("language", AStr "en_US");
   ("marketPlaceId", AStr marketplace_id);
   ("openid.return_to", AStr "https://www.amazon.com");
   ("openid.pape.max_auth_age", AInt 0);
   ("openid.assoc_handle", AStr "amzn_sonic_games_launcher");
   ("pageId", AStr "amzn_sonic_games_launcher");
   ("openid.oa2.code_challenge", ABytes challenge)].

Definition signin_url : string := "https://amazon.com/ap/signin".

(** The property [login_url], [token_bytes] and [node] being what
    [secrets.token_bytes(32)] and [uuid.getnode()] returned. *)
Definition login_url (token_bytes : string) (node : Z) : M string :=
  verifier <- generate_code_verifier token_bytes ;;
  set_verifier (Some verifier) ;;
  challenge <- generate_challange verifier ;;
  serial <- generate_device_serial node ;;
  set_serial (JStr serial) ;;
  client_id <- generate_client_id serial ;;
  set_client_id (JStr client_id) ;;
  let arguments := login_arguments client_id challenge in
  ret (signin_url ++ "?" ++ urlencode arguments).

(** *** Vocabulary of the further properties *)

(** A character of the URL-safe base64 alphabet. *)
Definition is_urlsafe (c : ascii) : bool :=
  existsb (Ascii.eqb c) Base64.urlsafe_alphabet.

Definition is_upper_hex (c : ascii) : bool :=
  let n := byte_val c in
  ((48 <=? n) && (n <=? 57)) || ((65 <=? n) && (n <=? 70)).

Definition is_lower_hex (c : ascii) : bool :=
  let n := byte_val c in
  ((48 <=? n) && (n <=? 57)) || ((97 <=? n) && (n <=? 102)).

Definition all_chars (p : ascii -> bool) (s : string) : bool :=
  forallb p (list_ascii_of_string s).

(** The value a text of hexadecimal digits stands for ([None] when a
    character is no digit). *)
Definition hex_value (cs : list ascii) : option Z :=
  fold_left
    (fun acc c =>
       match acc, hex_val c with
       | Some a, Some d => Some (16 * a + d)
       | _, _ => None
       end)
    cs (Some 0).

(** The bytes a text of hexadecimal digit pairs stands for. *)
Fixpoint unhex (cs : list ascii) : option (list ascii) :=
  match cs with
  | [] => Some []
  | h :: l :: rest =>
      match hex_val h, hex_val l, unhex rest with
      | Some a, Some b, Some bs => Some (byte_chr (16 * a + b) :: bs)
      | _, _, _ => None
      end
  | [_] => None
  end.

(** The fields [parse_qsl] keeps: those with a value. *)
Definition with_value (fields : list (string * string))
  : list (string * string) :=
  filter (fun kv => negb (snd kv =? "")%string) fields.

Definition rendered (arguments : list (string * urlarg))
  : list (string * string) :=
  map (fun kv => (fst kv, urlarg_text (snd kv))) arguments.

(** The games saved, oldest first. *)
Definition saved (tr : list event) : list AmazonGame :=
  flat_map (fun e => match e with EvSave g => [g] | _ => [] end) tr.

(** A method that never touches the credential file. *)
Definition keeps_user {A} (c : M A) : Prop :=
  forall w, w_user (snd (c w)) = w_user w.

(** A method that changes the credential file, if at all, as its last
    step before returning. *)
Definition writes_user_last {A} (c : M A) : Prop :=
  forall w, (exists a, fst (c w) = Done a) \/ w_user (snd (c w)) = w_user w.

(** A method that is left waiting only once the network has given all
    its replies. *)
Definition waits_only_when_dry {A} (c : M A) : Prop :=
  forall w, fst (c w) = Blocked -> w_net (snd (c w)) = [].

Definition token_bytes_example : string :=
  "0123456789abcdefghijklmnopqrstuv".

Definition world_new : world := fresh_world None 10 [].

Definition empty_success_reply : reply :=
  {| latency := 2;
     payload := Some (JDict [("response", JDict [("success", JDict [])])]) |}.

(** The library is cached; its second record has no [product]. *)
Definition world_cached_library : world :=
  {| w_user := Some doc_valid;
     w_cache := Some (JList [game "a1" "Alpha"; JDict [("id", JStr "b2")]]);
     w_is_loading := false; w_client_id := JNull; w_serial := JNull;
     w_verifier := None; w_now := 200; w_net := [http_error];
     w_trace := [] |}.

(** ** Vocabulary of the query string and the serial *)

Definition plus_to_space (c : ascii) : ascii :=
  if Ascii.eqb c "+" then " "%char else c.

(** A character that ends or separates nothing in a URL. *)
Definition is_plain (c : ascii) : bool :=
  negb (existsb (Ascii.eqb c)
          ["&"; "="; "#"; "?"; byte_chr 9; byte_chr 10; byte_chr 13])%char.

(** The field [urlencode] writes for a key and a value. *)
Definition field (kv : string * urlarg) : list ascii :=
  (quote_plus (fst kv) ++ "="%char :: quote_plus (urlarg_text (snd kv)))%list.

(** The serial of a node number. *)
Definition serial_of (node : Z) : string :=
  upper (string_of_list_ascii (hex_digits 32 node)).

(** A method that sends no request and takes no reply. *)
Definition sends_nothing {A} (c : M A) : Prop :=
  forall w,
    requests (w_trace (snd (c w))) = requests (w_trace w) /\
    w_net (snd (c w)) = w_net w.
(** * Properties *)

(** ** Test vectors *)

Example sha256_abc :
  hex false (sha256 "abc")
  = "ba7816bf8f01cfea414140de5dae2223b00361a396177a9cb410ff61f20015ad".
Proof. vm_compute. reflexivity. Qed.

Example sha256_two_blocks :
  hex false (sha256 "abcdbcdecdefdefgefghfghighijhijkijkljklmklmnlmnomnopnopq")
  = "248d6a61d20638b8e5c026930c3e6039a33ce45964ff2167f6ecedd419db06c1".
Proof. vm_compute. reflexivity. Qed.

Example urlsafe_b64encode_foob : Base64.urlsafe_b64encode "foob" = "Zm9vYg==".
Proof. vm_compute. reflexivity. Qed.

(** The verifier and the challenge of RFC 7636, appendix B. *)
Example challenge_rfc7636 :
  fst (generate_challange "dBjftJeZ4CVP-mB92K27uhbUJU1p1r_wW1gFWFOEjXk"
         world_cached)
  = Done "E9Melhoa2OwvFrEMTJguCHaoeK1t8URWbuGJSstw-cM".
Proof. vm_compute. reflexivity. Qed.

Example int_of_str_examples :
  int_of_str " 3600 " = Ok 3600 /\ int_of_str "-1_000" = Ok (-1000) /\
  int_of_str "3600.0" = Err ValueError /\ int_of_str "" = Err ValueError.
Proof. vm_compute. repeat split. Qed.

(** U+001C is no white space for [int]; U+00A0 is, and the Arabic-Indic
    digits are digits; 4300 digits are read and 4301 are not. *)
Example int_of_str_edges :
  int_of_str (of_bytes [0x1C; 0x35; 0x30]) = Err ValueError /\
  int_of_str (of_bytes [0xC2; 0xA0; 0x35; 0x30]) = Ok 50 /\
  int_of_str (of_bytes [0xD9; 0xA3; 0xD9; 0xA6; 0xD9; 0xA0; 0xD9; 0xA0])
  = Ok 3600 /\
  (exists n, int_of_str (of_bytes (repeat 0x31 4300)) = Ok n) /\
  int_of_str (of_bytes (repeat 0x31 4301)) = Err ValueError.
Proof.
  split; [vm_compute; reflexivity |]. split; [vm_compute; reflexivity |].
  split; [vm_compute; reflexivity |].
  split; [eexists; vm_compute; reflexivity | vm_compute; reflexivity].
Qed.

(** 0.1, a tie that goes to the even neighbour, the largest float and
    the first number past the floats. *)
Example round_b64_examples :
  round_b64 (1 # 10)
  = Finite (3602879701896397 # 36028797018963968) /\
  round_b64 (inject_Z (2 ^ 53 + 1)) = Finite (inject_Z (2 ^ 53)) /\
  round_b64 (inject_Z (2 ^ 53 + 3)) = Finite (inject_Z (2 ^ 53 + 4)) /\
  round_b64 (inject_Z (2 ^ 1024 - 2 ^ 970 - 1))
  = Finite (inject_Z (2 ^ 1024 - 2 ^ 971)) /\
  round_b64 (inject_Z (2 ^ 1024 - 2 ^ 970)) = Infinity false /\
  float_of_int (10 ^ 400) = Err OverflowError.
Proof. vm_compute. repeat split. Qed.

Example parse_qsl_example :
  url_query plain_hosts "https://h/p?a=1&b=&c&d=x%2By+z#e=2"
  = Ok (list_ascii_of_string "a=1&b=&c&d=x%2By+z") /\
  parse_qsl (list_ascii_of_string "a=1&b=&c&d=x%2By+z")
  = [("a", "1"); ("d", "x+y z")].
Proof. vm_compute. split; reflexivity. Qed.

(** A host with one bracket only is refused whatever the checks say;
    a byte that is not UTF-8 comes out of the query as U+FFFD. *)
Example url_query_edges :
  (forall checks,
      url_query checks "https://[www.amazon.com/?openid.oa2.authorization_code=abc"
      = Err ValueError) /\
  parse_qsl (list_ascii_of_string "code=a%FFb")
  = [("code", of_bytes [0x61; 0xEF; 0xBF; 0xBD; 0x62])].
Proof. split; [intros checks |]; vm_compute; reflexivity. Qed.

(** ** Running a method *)

Lemma bind_done {A B} (c : M A) (k : A -> M B) w a w' :
  c w = (Done a, w') -> bind c k w = k a w'.
Proof. intros H. unfold bind. rewrite H. reflexivity. Qed.

Lemma bind_blocked {A B} (c : M A) (k : A -> M B) w w' :
  c w = (Blocked, w') -> bind c k w = (Blocked, w').
Proof. intros H. unfold bind. rewrite H. reflexivity. Qed.

Lemma load_user_data_some w d :
  w_user w = Some d ->
  load_user_data w = (Done d, add_trace [EvRead user_path] w).
Proof.
  intros H. unfold load_user_data, read_json. simpl. rewrite H. reflexivity.
Qed.

Lemma post_answered url headers body w r rest :
  w_net w = r :: rest ->
  post url headers body w
  = (Done (payload r), receive r rest (add_trace [EvPost url headers body] w)).
Proof.
  intros H. unfold post, bind, record. cbn [add_trace w_net]. rewrite H.
  reflexivity.
Qed.

Lemma writes_app p tr1 tr2 :
  writes p (tr1 ++ tr2) = (writes p tr1 ++ writes p tr2)%list.
Proof. unfold writes. apply flat_map_app. Qed.

Lemma emitted_app tr1 tr2 :
  emitted (tr1 ++ tr2) = (emitted tr1 ++ emitted tr2)%list.
Proof. unfold emitted. apply flat_map_app. Qed.

Lemma requests_app tr1 tr2 :
  requests (tr1 ++ tr2) = (requests tr1 ++ requests tr2)%list.
Proof. unfold requests. apply filter_app. Qed.

Lemma sds_requests_app tr1 tr2 :
  sds_requests (tr1 ++ tr2) = (sds_requests tr1 ++ sds_requests tr2)%list.
Proof. unfold sds_requests. apply flat_map_app. Qed.

(** ** is_token_expired *)

Lemma get_path_expires_in d ei :
  get_path ["tokens"; "bearer"; "expires_in"] d = Ok ei ->
  exists tokens bearer,
    subscript d "tokens" = Ok tokens /\
    subscript tokens "bearer" = Ok bearer /\
    subscript bearer "expires_in" = Ok ei.
Proof.
  simpl. unfold rbind.
  destruct (subscript d "tokens") as [e | tokens] eqn:E1; [discriminate |].
  destruct (subscript tokens "bearer") as [e | bearer] eqn:E2;
    [discriminate |].
  destruct (subscript bearer "expires_in") as [e | v] eqn:E3;
    [discriminate |].
  unfold Ok. intros [= ->]. exists tokens, bearer. auto.
Qed.

(** The reads of [is_token_expired], up to the test of line 255. *)
Lemma is_token_expired_reads w d tot ei :
  w_user w = Some d ->
  subscript d "token_obtain_time" = Ok tot ->
  get_path ["tokens"; "bearer"; "expires_in"] d = Ok ei ->
  is_token_expired w =
  (if (negb (truthy tot) || negb (truthy ei))%bool
   then ret false
   else bind time_time (fun now =>
        bind (lift (py_int ei)) (fun n =>
        bind (lift (add_int tot n)) (fun deadline =>
        ret (gt_number now deadline)))))
    (add_trace [EvRead user_path] w).
Proof.
  intros Hu Ht Hp.
  destruct (get_path_expires_in _ _ Hp) as (tokens & bearer & H1 & H2 & H3).
  unfold is_token_expired.
  rewrite (bind_done _ _ _ _ _ (load_user_data_some _ _ Hu)).
  rewrite Ht. cbn [lift Ok bind ret].
  rewrite H1. cbn [lift Ok bind ret].
  rewrite H2. cbn [lift Ok bind ret].
  rewrite H3. cbn [lift Ok bind ret].
  reflexivity.
Qed.

(** C1, as the code has it: a document from which [token_obtain_time]
    or [expires_in] is missing does not make [is_token_expired] return
    false; the lookup of the missing key raises [KeyError]. *)
Lemma is_token_expired_absent_field :
  let no_time := user_doc [] [("expires_in", JStr "3600")] in
  let no_expiry := user_doc [("token_obtain_time", JFloat 100)] [] in
  (subscript no_time "token_obtain_time" = Err (KeyError "token_obtain_time")
   /\ fst (is_token_expired (fresh_world (Some no_time) 200 []))
      = Raised (KeyError "token_obtain_time")) /\
  (get_path ["tokens"; "bearer"; "expires_in"] no_expiry
   = Err (KeyError "expires_in")
   /\ fst (is_token_expired (fresh_world (Some no_expiry) 200 []))
      = Raised (KeyError "expires_in")).
Proof. vm_compute. repeat split. Qed.

(** C1 (amended): for every stored UserData document in which
    [token_obtain_time] and [tokens.bearer.expires_in] are both present
    and one of them holds an empty value (null, zero, false, an empty
    string, list or object), [is_token_expired] returns false; all it
    does is read the credential file. *)
Theorem is_token_expired_fail_open (w : world) (d tot ei : json) :
  w_user w = Some d ->
  subscript d "token_obtain_time" = Ok tot ->
  get_path ["tokens"; "bearer"; "expires_in"] d = Ok ei ->
  truthy tot = false \/ truthy ei = false ->
  is_token_expired w = (Done false, add_trace [EvRead user_path] w).
Proof.
  intros Hu Ht Hp Hf.
  rewrite (is_token_expired_reads _ _ _ _ Hu Ht Hp).
  destruct Hf as [Hf | Hf]; rewrite Hf; simpl.
  - reflexivity.
  - rewrite orb_true_r. reflexivity.
Qed.

Lemma is_token_expired_fail_open_witness :
  let d := user_doc [("token_obtain_time", JNull)]
                    [("expires_in", JStr "3600")] in
  let w := fresh_world (Some d) 200 [] in
  is_token_expired w = (Done false, add_trace [EvRead user_path] w).
Proof.
  intros d w.
  apply (is_token_expired_fail_open w d JNull (JStr "3600"));
    [reflexivity | reflexivity | reflexivity | left; reflexivity].
Defined.

Lemma Qgtb_lt a b : Qgtb a b = true <-> (b < a)%Q.
Proof.
  unfold Qgtb. rewrite negb_true_iff.
  split.
  - intros H. apply Qnot_le_lt. intros Hle.
    apply Qle_bool_iff in Hle. congruence.
  - intros H. destruct (Qle_bool a b) eqn:E; [| reflexivity].
    apply Qle_bool_iff in E. exfalso. apply (Qlt_not_le _ _ H E).
Qed.

Lemma gt_number_exceeds now x : gt_number now x = true <-> exceeds now x.
Proof.
  destruct x as [q | negative |]; cbn [gt_number exceeds].
  - apply Qgtb_lt.
  - reflexivity.
  - split; [discriminate | contradiction].
Qed.

(** Rounding sees the number, not the fraction that denotes it. *)
Lemma round_b64_Qeq x x' : (x == x')%Q -> round_b64 x = round_b64 x'.
Proof.
  intros H. unfold round_b64. rewrite (Qred_complete x x' H). reflexivity.
Qed.

Lemma is_binary64_round x :
  is_binary64 x = true -> exists x', round_b64 x = Finite x' /\ (x' == x)%Q.
Proof.
  unfold is_binary64. destruct (round_b64 x) as [x' | |]; try discriminate.
  intros H. exists x'. split; [reflexivity | now apply Qeq_bool_iff].
Qed.

(** The run of [is_token_expired] once both fields are there and
    non-empty and [int(expires_in)] is [n]. *)
Lemma is_token_expired_sum w d tot ei n :
  w_user w = Some d ->
  subscript d "token_obtain_time" = Ok tot ->
  get_path ["tokens"; "bearer"; "expires_in"] d = Ok ei ->
  truthy tot = true -> truthy ei = true ->
  py_int ei = Ok n ->
  is_token_expired w
  = match add_int tot n with
    | inr deadline =>
        (Done (gt_number (w_now w) deadline), add_trace [EvRead user_path] w)
    | inl e => (Raised e, add_trace [EvRead user_path] w)
    end.
Proof.
  intros Hu Ht Hp Htt Hte Hn.
  rewrite (is_token_expired_reads _ _ _ _ Hu Ht Hp).
  rewrite Htt, Hte. cbn [negb orb].
  unfold bind at 1. cbn [time_time]. rewrite Hn. cbn [lift Ok bind ret].
  destruct (add_int tot n) as [e | deadline]; reflexivity.
Qed.

(** C8, as the code has it: with both fields present and non-empty, a
    fractional [expires_in] is cut to its whole part by [int], so the
    token counts as expired before now exceeds token_obtain_time +
    expires_in; and an [expires_in] that is a text but no number makes the
    call raise [ValueError]. *)
Lemma is_token_expired_not_the_sum :
  let fractional := user_doc [("token_obtain_time", JFloat 100)]
                             [("expires_in", JFloat (7201 # 2))] in
  let text := user_doc [("token_obtain_time", JFloat 100)]
                       [("expires_in", JStr "soon")] in
  (fst (is_token_expired (fresh_world (Some fractional) (14801 # 4) []))
   = Done true
   /\ ~ (100 + (7201 # 2) < 14801 # 4)%Q) /\
  fst (is_token_expired (fresh_world (Some text) 200 []))
  = Raised ValueError.
Proof.
  split; [split |].
  - vm_compute. reflexivity.
  - intros H. vm_compute in H. discriminate.
  - vm_compute. reflexivity.
Qed.

(** C8 (amended): for every stored UserData document in which
    [token_obtain_time] is an integer or a finite float and [expires_in]
    is something [int] makes a whole number [n] of, both non-empty,
    [is_token_expired] returns true iff now > token_obtain_time + n, the
    sum being the one Python computes.  For an integer [token_obtain_time] the sum is
    exact.  For a float [token_obtain_time] it is the float sum: [n] goes
    to its nearest float (the call raises [OverflowError] when there is
    none) and the sum is rounded to binary64; whenever [n] and
    token_obtain_time + n are binary64 values themselves, this is the
    exact sum.  When now equals the sum, the token is not expired. *)
Theorem is_token_expired_iff (w : world) (d tot ei : json) (n : Z) :
  w_user w = Some d ->
  subscript d "token_obtain_time" = Ok tot ->
  get_path ["tokens"; "bearer"; "expires_in"] d = Ok ei ->
  truthy tot = true -> truthy ei = true ->
  py_int ei = Ok n ->
  (forall a : Z,
      tot = JInt a ->
      exists b : bool,
        is_token_expired w = (Done b, add_trace [EvRead user_path] w) /\
        (b = true <-> (inject_Z (a + n) < w_now w)%Q) /\
        ((w_now w == inject_Z (a + n))%Q -> b = false)) /\
  (forall t y : Q,
      tot = JFloat t -> float_of_int n = Ok y ->
      exists b : bool,
        is_token_expired w = (Done b, add_trace [EvRead user_path] w) /\
        (b = true <-> exceeds (w_now w) (round_b64 (t + y))) /\
        (is_binary64 (inject_Z n) = true ->
         is_binary64 (t + inject_Z n) = true ->
         (b = true <-> (t + inject_Z n < w_now w)%Q) /\
         ((w_now w == t + inject_Z n)%Q -> b = false))) /\
  (forall t : Q,
      tot = JFloat t -> float_of_int n = Err OverflowError ->
      is_token_expired w
      = (Raised OverflowError, add_trace [EvRead user_path] w)).
Proof.
  intros Hu Ht Hp Htt Hte Hn.
  pose proof (is_token_expired_sum _ _ _ _ _ Hu Ht Hp Htt Hte Hn) as Hrun.
  assert (Hedge : forall (b : bool) (s : Q),
             (b = true <-> (s < w_now w)%Q) ->
             (w_now w == s)%Q -> b = false).
  { intros b s Hiff Hnow. destruct b; [| reflexivity].
    exfalso. destruct Hiff as [Hlt _]. specialize (Hlt eq_refl).
    rewrite Hnow in Hlt. exact (Qlt_irrefl _ Hlt). }
  split; [| split].
  - intros a ->. cbn [add_int Ok] in Hrun.
    eexists. split; [exact Hrun |].
    assert (Hiff : gt_number (w_now w) (Finite (inject_Z (a + n))) = true
                   <-> (inject_Z (a + n) < w_now w)%Q)
      by apply gt_number_exceeds.
    split; [exact Hiff | apply Hedge, Hiff].
  - intros t y -> Hy. cbn [add_int] in Hrun. rewrite Hy in Hrun.
    cbn [Ok float_add] in Hrun.
    eexists. split; [exact Hrun |].
    split; [apply gt_number_exceeds |].
    intros Bn Bs.
    destruct (is_binary64_round _ Bn) as (y' & Hy' & Eqy).
    destruct (is_binary64_round _ Bs) as (s & Hs & Eqs).
    unfold float_of_int in Hy. rewrite Hy' in Hy.
    unfold Ok in Hy. injection Hy as <-.
    assert (Hsum : round_b64 (t + y') = Finite s).
    { rewrite <- Hs. apply round_b64_Qeq. rewrite Eqy. reflexivity. }
    rewrite Hsum.
    assert (Hiff : gt_number (w_now w) (Finite s) = true
                   <-> (t + inject_Z n < w_now w)%Q).
    { rewrite gt_number_exceeds. cbn [exceeds]. rewrite Eqs. reflexivity. }
    split; [exact Hiff | apply Hedge, Hiff].
  - intros t -> Hy. cbn [add_int] in Hrun. rewrite Hy in Hrun. exact Hrun.
Qed.

(** At the boundary: obtained at 100, valid 3600 seconds, read at 3700. *)
Lemma is_token_expired_iff_witness :
  let w := fresh_world (Some doc_valid) 3700 [] in
  exists b : bool,
    is_token_expired w = (Done b, add_trace [EvRead user_path] w) /\
    (b = true <-> (100 + inject_Z 3600 < w_now w)%Q) /\
    ((w_now w == 100 + inject_Z 3600)%Q -> b = false).
Proof.
  intros w.
  destruct (proj1 (proj2 (is_token_expired_iff w doc_valid (JFloat 100)
                            (JStr "3600") 3600
                            eq_refl eq_refl eq_refl eq_refl eq_refl eq_refl))
              100%Q (inject_Z 3600) eq_refl eq_refl)
    as (b & Hrun & _ & Hexact).
  exists b. split; [exact Hrun |].
  apply Hexact; reflexivity.
Defined.

Example is_token_expired_boundary :
  fst (is_token_expired (fresh_world (Some doc_valid) 3700 [])) = Done false
  /\ fst (is_token_expired (fresh_world (Some doc_valid) (7401 # 2) []))
     = Done true.
Proof. vm_compute. split; reflexivity. Qed.

(** The float sum is not always the exact sum: obtained 3600 seconds
    before 2^31 and three quanta, the deadline is a tie between two
    floats and goes to the even one, 2^31 + 2^-20; read at that instant,
    which is past the exact sum, the token is not expired. *)
Example is_token_expired_rounds :
  let t := (inject_Z (2 ^ 31 - 3600) + (3 # 2 ^ 22))%Q in
  let now := (inject_Z (2 ^ 31) + (1 # 2 ^ 20))%Q in
  is_binary64 t = true /\ is_binary64 now = true /\
  (t + inject_Z 3600 < now)%Q /\
  fst (is_token_expired
         (fresh_world
            (Some (user_doc [("token_obtain_time", JFloat t)]
                            [("expires_in", JInt 3600)]))
            now []))
  = Done false.
Proof. vm_compute. repeat split. Qed.

(** ** generate_challange *)

Module Base64Facts.
Import Base64.

Lemma byte_val_range a : 0 <= byte_val a < 256.
Proof.
  unfold byte_val. pose proof (N_ascii_bounded a). lia.
Qed.

Lemma sextet_table : forallb sextet_ok (seq 0 64) = true.
Proof. vm_compute. reflexivity. Qed.

Lemma sextet_urlsafe i :
  0 <= i < 64 ->
  urlsafe_translate (sextet alphabet i) = sextet urlsafe_alphabet i /\
  sextet urlsafe_alphabet i <> "="%char.
Proof.
  intros Hi.
  pose proof (proj1 (forallb_forall _ _) sextet_table (Z.to_nat i)) as H.
  assert (Hin : In (Z.to_nat i) (seq 0 64)) by (apply in_seq; lia).
  specialize (H Hin). unfold sextet_ok in H.
  rewrite Z2Nat.id in H by lia.
  apply andb_true_iff in H. destruct H as [H1 H2].
  apply Ascii.eqb_eq in H1. apply negb_true_iff in H2.
  apply Ascii.eqb_neq in H2. auto.
Qed.

Lemma s1_range a : 0 <= s1 a < 64.
Proof.
  unfold s1. pose proof (byte_val_range a). Z.div_mod_to_equations. lia.
Qed.
Lemma s2_range a b : 0 <= s2 a b < 64.
Proof.
  unfold s2. pose proof (byte_val_range a). pose proof (byte_val_range b).
  Z.div_mod_to_equations. lia.
Qed.
Lemma s3_range b c : 0 <= s3 b c < 64.
Proof.
  unfold s3. pose proof (byte_val_range b). pose proof (byte_val_range c).
  Z.div_mod_to_equations. lia.
Qed.
Lemma s4_range c : 0 <= s4 c < 64.
Proof.
  unfold s4. pose proof (byte_val_range c). Z.div_mod_to_equations. lia.
Qed.

(** Induction three bytes at a time, the way the encoders recurse. *)
Lemma triples_ind (P : list ascii -> Prop) :
  P [] -> (forall a, P [a]) -> (forall a b, P [a; b]) ->
  (forall a b c rest, P rest -> P (a :: b :: c :: rest)) ->
  forall bs, P bs.
Proof.
  intros H0 H1 H2 H3 bs.
  assert (H : P bs /\ (forall a, P (a :: bs)) /\ (forall a b, P (a :: b :: bs))).
  { induction bs as [| c bs IH].
    - auto.
    - destruct IH as (IH0 & IH1 & IH2). auto. }
  apply H.
Qed.

(** The padded URL-safe encoding is the unpadded one followed by
    nothing but [=]. *)
Lemma urlsafe_is_nopad_then_pad bs :
  exists k,
    map urlsafe_translate (b64encode bs)
    = (base64url_nopad_list bs ++ repeat "="%char k)%list /\
    no_pad (base64url_nopad_list bs).
Proof.
  induction bs as [| a | a b | a b c rest IH] using triples_ind.
  - exists 0%nat. split; [reflexivity | constructor].
  - exists 2%nat. cbn [b64encode base64url_nopad_list map app repeat].
    destruct (sextet_urlsafe _ (s1_range a)) as [-> N1].
    destruct (sextet_urlsafe _ (s2_range a zero)) as [-> N2].
    split; [reflexivity | repeat constructor; assumption].
  - exists 1%nat. cbn [b64encode base64url_nopad_list map app repeat].
    destruct (sextet_urlsafe _ (s1_range a)) as [-> N1].
    destruct (sextet_urlsafe _ (s2_range a b)) as [-> N2].
    destruct (sextet_urlsafe _ (s3_range b zero)) as [-> N3].
    split; [reflexivity | repeat constructor; assumption].
  - destruct IH as (k & IH & Hn). exists k.
    cbn [b64encode base64url_nopad_list map app]. rewrite IH.
    destruct (sextet_urlsafe _ (s1_range a)) as [-> N1].
    destruct (sextet_urlsafe _ (s2_range a b)) as [-> N2].
    destruct (sextet_urlsafe _ (s3_range b c)) as [-> N3].
    destruct (sextet_urlsafe _ (s4_range c)) as [-> N4].
    split; [reflexivity | repeat (constructor; [assumption |]); exact Hn].
Qed.

End Base64Facts.

Lemma lstrip_char_repeat c k cs :
  lstrip_char c (repeat c k ++ cs) = lstrip_char c cs.
Proof.
  induction k as [| k IH]; [reflexivity |].
  simpl. rewrite Ascii.eqb_refl. exact IH.
Qed.

Lemma lstrip_char_none c cs :
  Forall (fun c' => c' <> c) cs -> lstrip_char c cs = cs.
Proof.
  intros H. destruct H as [| c' cs' Hc _]; [reflexivity |].
  simpl. apply Ascii.eqb_neq in Hc. rewrite Hc. reflexivity.
Qed.

Lemma rev_repeat {A} (a : A) k : rev (repeat a k) = repeat a k.
Proof.
  induction k as [| k IH]; [reflexivity |].
  simpl. rewrite IH. clear IH.
  induction k as [| k IH]; [reflexivity |].
  simpl. rewrite IH. reflexivity.
Qed.

Lemma rstrip_padding c cs k :
  Forall (fun c' => c' <> c) cs ->
  rstrip c (string_of_list_ascii (cs ++ repeat c k)) = string_of_list_ascii cs.
Proof.
  intros H. unfold rstrip.
  rewrite list_ascii_of_string_of_list_ascii.
  rewrite rev_app_distr, rev_repeat, lstrip_char_repeat.
  rewrite lstrip_char_none by (apply Forall_rev; exact H).
  rewrite rev_involutive. reflexivity.
Qed.

Lemma rstrip_urlsafe_b64encode s :
  rstrip "=" (Base64.urlsafe_b64encode s) = Base64.base64url_nopad s.
Proof.
  unfold Base64.urlsafe_b64encode, Base64.base64url_nopad.
  destruct (Base64Facts.urlsafe_is_nopad_then_pad (list_ascii_of_string s))
    as (k & -> & Hn).
  apply rstrip_padding. exact Hn.
Qed.

(** C9: for every verifier byte string, [generate_challange] returns the
    URL-safe base64 encoding without padding of the SHA-256 digest of the
    verifier; the result is the same whatever the state it is called in,
    and the call does nothing but log. *)
Theorem generate_challange_spec (code_verifier : string) (w : world) :
  let challenge := Base64.base64url_nopad (sha256 code_verifier) in
  generate_challange code_verifier w
  = (Done challenge,
     add_trace [EvLog INFO "Generated challange: %s" [JStr challenge]] w)
  /\ forall w',
       fst (generate_challange code_verifier w')
       = fst (generate_challange code_verifier w).
Proof.
  unfold generate_challange. rewrite rstrip_urlsafe_b64encode.
  split; reflexivity.
Qed.
(** ** Dicts and paths *)

Lemma dict_get_set_same k v d : dict_get k (dict_set k v d) = Some v.
Proof.
  induction d as [| [k' v'] d IH]; cbn [dict_set dict_get].
  - rewrite String.eqb_refl. reflexivity.
  - destruct (k =? k')%string eqn:E; cbn [dict_get].
    + rewrite String.eqb_refl. reflexivity.
    + rewrite E. exact IH.
Qed.

Lemma dict_get_set_other k k' v d :
  (k' =? k)%string = false -> dict_get k' (dict_set k v d) = dict_get k' d.
Proof.
  intros Hk. induction d as [| [k0 v0] d IH]; cbn [dict_set dict_get].
  - rewrite Hk. reflexivity.
  - destruct (k =? k0)%string eqn:E; cbn [dict_get].
    + apply String.eqb_eq in E. subst k0. rewrite Hk. reflexivity.
    + rewrite IH. reflexivity.
Qed.

Lemma subscript_setitem_same d k v d' :
  setitem d k v = Ok d' -> subscript d' k = Ok v.
Proof.
  destruct d; try discriminate. unfold Ok. intros [= <-].
  cbn [subscript]. rewrite dict_get_set_same. reflexivity.
Qed.

Lemma subscript_setitem_other d k v d' k' :
  setitem d k v = Ok d' -> (k' =? k)%string = false ->
  subscript d' k' = subscript d k'.
Proof.
  destruct d; try discriminate. unfold Ok. intros [= <-] Hk.
  cbn [subscript]. rewrite dict_get_set_other by exact Hk. reflexivity.
Qed.

(** One step down a path that has been assigned. *)
Lemma set_path_cons k ks v d d' :
  set_path (k :: ks) v d = Ok d' ->
  exists child',
    setitem d k child' = Ok d' /\
    match ks with
    | [] => child' = v
    | _ :: _ => exists child, subscript d k = Ok child /\
                              set_path ks v child = Ok child'
    end.
Proof.
  destruct ks as [| k2 ks].
  - cbn [set_path]. intros H. exists v. auto.
  - change (set_path (k :: k2 :: ks) v d)
      with (rbind (subscript d k) (fun child =>
            rbind (set_path (k2 :: ks) v child) (fun child' =>
            setitem d k child'))).
    unfold rbind.
    destruct (subscript d k) as [e | child] eqn:E1; [discriminate |].
    destruct (set_path (k2 :: ks) v child) as [e | child'] eqn:E2;
      [discriminate |].
    intros H. exists child'. split; [exact H |]. exists child. auto.
Qed.

Lemma get_path_set_path_same ks v :
  forall k d d',
    set_path (k :: ks) v d = Ok d' -> get_path (k :: ks) d' = Ok v.
Proof.
  induction ks as [| k2 ks IH]; intros k d d' H;
    destruct (set_path_cons _ _ _ _ _ H) as (child' & Hset & Hks);
    cbn [get_path]; rewrite (subscript_setitem_same _ _ _ _ Hset);
    cbn [rbind Ok].
  - subst child'. reflexivity.
  - destruct Hks as (child & _ & Hc). apply (IH _ _ _ Hc).
Qed.

Lemma get_path_set_path_apart ks v :
  forall p d d',
    set_path ks v d = Ok d' -> apart p ks = true ->
    get_path p d' = get_path p d.
Proof.
  induction ks as [| k ks IH]; intros p d d' H Hp.
  - unfold apart in Hp. destruct p; discriminate.
  - destruct p as [| k' p]; [discriminate |].
    destruct (set_path_cons _ _ _ _ _ H) as (child' & Hset & Hks).
    cbn [get_path].
    destruct (k' =? k)%string eqn:E.
    + apply String.eqb_eq in E. subst k'.
      rewrite (subscript_setitem_same _ _ _ _ Hset). cbn [rbind Ok].
      unfold apart in Hp. cbn [is_prefix] in Hp.
      rewrite String.eqb_refl in Hp. cbn [andb] in Hp.
      destruct ks as [| k2 ks].
      * destruct p; cbn [is_prefix] in Hp;
          rewrite ?andb_false_r in Hp; discriminate.
      * destruct Hks as (child & Hsub & Hc). rewrite Hsub. cbn [rbind].
        apply (IH _ _ _ Hc). exact Hp.
    + rewrite (subscript_setitem_other _ _ _ _ _ Hset E). reflexivity.
Qed.

Lemma other_field_apart p :
  other_field p = true ->
  apart p ["tokens"; "bearer"; "access_token"] = true /\
  apart p ["tokens"; "bearer"; "expires_in"] = true /\
  apart p ["token_obtain_time"] = true.
Proof.
  unfold other_field, refreshed_fields. cbn [forallb].
  rewrite !andb_true_iff. tauto.
Qed.

(** Assigning to an existing path of dicts succeeds. *)
Lemma set_path_bearer d k v x :
  get_path ["tokens"; "bearer"; x] d = Ok v ->
  forall a, exists d', set_path ["tokens"; "bearer"; k] a d = Ok d'.
Proof.
  cbn [get_path]. unfold rbind.
  destruct (subscript d "tokens") as [e | tokens] eqn:E1; [discriminate |].
  destruct (subscript tokens "bearer") as [e | bearer] eqn:E2;
    [discriminate |].
  destruct (subscript bearer x) as [e | y] eqn:E3; [discriminate |].
  intros _ a. cbn [set_path]. rewrite E1. cbn [rbind]. rewrite E2.
  cbn [rbind].
  destruct bearer; try discriminate. cbn [setitem Ok].
  destruct tokens; try discriminate. cbn [setitem Ok].
  destruct d; try discriminate. cbn [setitem Ok]. eexists. reflexivity.
Qed.

(** ** refresh_token *)

(** [refresh_token] up to the reply of the token endpoint. *)
Lemma refresh_token_request w d rt r rest :
  w_user w = Some d ->
  get_path ["tokens"; "bearer"; "refresh_token"] d = Ok rt ->
  w_net w = r :: rest ->
  exists w1,
    w_user w1 = w_user w /\ w_now w1 = (w_now w + latency r)%Q /\
    w_net w1 = rest /\
    writes user_path (w_trace w1) = writes user_path (w_trace w) /\
    refresh_token w =
    match payload r with
    | None => log ERROR failed_to_request [JStr token_url] w1
    | Some res_json =>
        bind (lift (subscript res_json "access_token")) (fun access_token =>
        bind (lift (set_path ["tokens"; "bearer"; "access_token"]
                      access_token d)) (fun user_data1 =>
        bind (lift (subscript res_json "expires_in")) (fun expires_in =>
        bind (lift (set_path ["tokens"; "bearer"; "expires_in"]
                      expires_in user_data1)) (fun user_data2 =>
        bind time_time (fun now =>
        bind (lift (set_path ["token_obtain_time"] (JFloat now) user_data2))
          (fun user_data3 => save_user_data user_data3)))))) w1
    end.
Proof.
  intros Hu Hp Hn.
  cbn [get_path] in Hp. unfold rbind in Hp.
  destruct (subscript d "tokens") as [e | tokens] eqn:E1; [discriminate |].
  destruct (subscript tokens "bearer") as [e | bearer] eqn:E2;
    [discriminate |].
  destruct (subscript bearer "refresh_token") as [e | y] eqn:E3;
    [discriminate |].
  unfold Ok in Hp. injection Hp as ->.
  eexists. split; [| split; [| split; [| split]]]; cycle 4.
  - unfold refresh_token.
    erewrite bind_done by reflexivity.
    erewrite bind_done by (apply load_user_data_some; exact Hu).
    rewrite E1. cbn [lift bind ret]. rewrite E2. cbn [lift bind ret].
    rewrite E3. cbn [lift bind ret].
    erewrite bind_done by (apply post_answered; exact Hn).
    destruct (payload r); reflexivity.
  - reflexivity.
  - reflexivity.
  - reflexivity.
  - cbn [w_trace receive add_trace]. rewrite !writes_app.
    cbn [writes flat_map app]. rewrite !app_nil_r. reflexivity.
Qed.

(** C6: a successful [refresh_token] changes [access_token],
    [expires_in] and [token_obtain_time] (set to the time the reply
    arrived) in the persisted document and nothing else: [refresh_token]
    and every other field are as before.  On a transport failure the call
    returns without raising and the persisted document is untouched. *)
Theorem refresh_token_frame (w : world) (d rt : json) (r : reply)
  (rest : list reply) :
  w_user w = Some d ->
  get_path ["tokens"; "bearer"; "refresh_token"] d = Ok rt ->
  w_net w = r :: rest ->
  (forall res_json access_token expires_in,
      payload r = Some res_json ->
      subscript res_json "access_token" = Ok access_token ->
      subscript res_json "expires_in" = Ok expires_in ->
      exists d' w',
        refresh_token w = (Done tt, w') /\
        w_user w' = Some d' /\
        get_path ["tokens"; "bearer"; "access_token"] d' = Ok access_token /\
        get_path ["tokens"; "bearer"; "expires_in"] d' = Ok expires_in /\
        get_path ["token_obtain_time"] d'
        = Ok (JFloat (w_now w + latency r)%Q) /\
        get_path ["tokens"; "bearer"; "refresh_token"] d' = Ok rt /\
        forall p, other_field p = true -> get_path p d' = get_path p d) /\
  (payload r = None ->
   exists w',
     refresh_token w = (Done tt, w') /\
     w_user w' = Some d /\
     writes user_path (w_trace w') = writes user_path (w_trace w)).
Proof.
  intros Hu Hp Hn.
  destruct (refresh_token_request _ _ _ _ _ Hu Hp Hn)
    as (w1 & Hu1 & Hnow & _ & Hw & Hrun).
  split.
  - intros j a e Hj Ha He. rewrite Hj in Hrun.
    destruct (set_path_bearer d "access_token" _ _ Hp a) as (d1 & H1).
    assert (Hp1 : get_path ["tokens"; "bearer"; "refresh_token"] d1 = Ok rt).
    { rewrite (get_path_set_path_apart
                 _ _ ["tokens"; "bearer"; "refresh_token"] _ _ H1 eq_refl).
      exact Hp. }
    destruct (set_path_bearer d1 "expires_in" _ _ Hp1 e) as (d2 & H2).
    assert (H3 : exists d3, set_path ["token_obtain_time"]
                              (JFloat (w_now w + latency r)%Q) d2 = Ok d3).
    { destruct (set_path_cons _ _ _ _ _ H2) as (c & Hc & _).
      destruct d2; try (destruct d1; discriminate).
      cbn [set_path setitem]. eexists. reflexivity. }
    destruct H3 as (d3 & H3).
    rewrite Ha in Hrun. cbn [lift bind ret Ok] in Hrun. rewrite H1 in Hrun.
    cbn [lift bind ret Ok] in Hrun. rewrite He in Hrun.
    cbn [lift bind ret Ok] in Hrun. rewrite H2 in Hrun.
    cbn [lift bind ret Ok time_time] in Hrun. rewrite Hnow, H3 in Hrun.
    cbn [lift bind ret Ok save_user_data write_json] in Hrun.
    exists d3. eexists. split; [exact Hrun |].
    split; [reflexivity |]. repeat split.
    + rewrite (get_path_set_path_apart
                 _ _ ["tokens"; "bearer"; "access_token"] _ _ H3 eq_refl).
      rewrite (get_path_set_path_apart
                 _ _ ["tokens"; "bearer"; "access_token"] _ _ H2 eq_refl).
      apply (get_path_set_path_same _ _ _ _ _ H1).
    + rewrite (get_path_set_path_apart
                 _ _ ["tokens"; "bearer"; "expires_in"] _ _ H3 eq_refl).
      apply (get_path_set_path_same _ _ _ _ _ H2).
    + apply (get_path_set_path_same _ _ _ _ _ H3).
    + rewrite (get_path_set_path_apart
                 _ _ ["tokens"; "bearer"; "refresh_token"] _ _ H3 eq_refl).
      rewrite (get_path_set_path_apart
                 _ _ ["tokens"; "bearer"; "refresh_token"] _ _ H2 eq_refl).
      exact Hp1.
    + intros p Hother.
      destruct (other_field_apart _ Hother) as (A1 & A2 & A3).
      rewrite (get_path_set_path_apart _ _ _ _ _ H3 A3).
      rewrite (get_path_set_path_apart _ _ _ _ _ H2 A2).
      apply (get_path_set_path_apart _ _ _ _ _ H1 A1).
  - intros Hfail. rewrite Hfail in Hrun. eexists.
    split; [exact Hrun |]. cbn [w_user add_trace w_trace].
    split; [congruence |].
    rewrite writes_app, Hw. cbn [writes flat_map app]. apply app_nil_r.
Qed.

Lemma refresh_token_frame_witness :
  (exists d' w',
      refresh_token (world_refresh token_reply) = (Done tt, w') /\
      w_user w' = Some d' /\
      get_path ["tokens"; "bearer"; "access_token"] d' = Ok (JStr "Atna|new")
      /\ get_path ["tokens"; "bearer"; "expires_in"] d' = Ok (JInt 3600) /\
      get_path ["token_obtain_time"] d'
      = Ok (JFloat (w_now (world_refresh token_reply) + latency token_reply)%Q)
      /\ get_path ["tokens"; "bearer"; "refresh_token"] d'
         = Ok (JStr "Atnr|r0") /\
      forall p, other_field p = true -> get_path p d' = get_path p doc_valid)
  /\
  (exists w',
      refresh_token (world_refresh http_error) = (Done tt, w') /\
      w_user w' = Some doc_valid /\
      writes user_path (w_trace w')
      = writes user_path (w_trace (world_refresh http_error))).
Proof.
  split.
  - apply (proj1 (refresh_token_frame (world_refresh token_reply) doc_valid
                    (JStr "Atnr|r0") token_reply []
                    eq_refl eq_refl eq_refl)
             (JDict [("access_token", JStr "Atna|new");
                     ("token_type", JStr "bearer");
                     ("expires_in", JInt 3600)])
             (JStr "Atna|new") (JInt 3600));
      reflexivity.
  - apply (proj2 (refresh_token_frame (world_refresh http_error) doc_valid
                    (JStr "Atnr|r0") http_error []
                    eq_refl eq_refl eq_refl)).
    reflexivity.
Defined.

Example refresh_token_run :
  w_user (snd (refresh_token (world_refresh token_reply)))
  = Some (JDict
            [("extensions",
              JDict [("device_info",
                      JDict [("device_serial_number", JStr "G0W0XX");
                             ("device_type", JStr "A2UMVHOX7UP4V7")])]);
             ("tokens",
              JDict [("bearer",
                      JDict [("access_token", JStr "Atna|new");
                             ("expires_in", JInt 3600);
                             ("refresh_token", JStr "Atnr|r0")])]);
             ("token_obtain_time", JFloat (4002 # 1))]).
Proof. vm_compute. reflexivity. Qed.
(** ** login_callback *)

(** [register_device] up to the reply of the registration endpoint. *)
Lemma register_device_request code w verifier r rest :
  w_verifier w = Some verifier ->
  decode_utf8 verifier = Ok verifier ->
  w_net w = r :: rest ->
  let data :=
    registration_data code (w_client_id w) verifier (w_serial w) in
  let w1 :=
    receive r rest
      (add_trace [EvPost register_url [] data]
         (add_trace
            [EvLog INFO "Registerring a device. ID: %s" [w_client_id w]] w))
    in
  register_device code w =
  match payload r with
  | None =>
      (Done JNull, add_trace [EvLog ERROR failed_to_request [JStr register_url]] w1)
  | Some res_json =>
      bind (lift (subscript res_json "response")) (fun response =>
      bind (lift (subscript response "success")) (fun user_data =>
      ret user_data))
        (add_trace [EvLog INFO "Succesfully registered a device" []] w1)
  end.
Proof.
  intros Hv Hd Hn data w1. unfold register_device.
  cbn [bind get_world log record ret add_trace w_verifier w_client_id w_serial].
  rewrite Hv, Hd. cbn [lift Ok bind ret].
  erewrite bind_done by (apply post_answered; exact Hn).
  destruct (payload r); reflexivity.
Qed.

(** C5, as the code has it: the text [openid.oa2.authorization_code]
    is in the URL, but the query has no such parameter; [login_callback]
    does not return silently, the lookup in the parsed query raises
    [KeyError]. *)
Lemma login_callback_text_outside_query :
  (exists query,
      url_query plain_hosts stray_url = Ok query /\
      first_value auth_code_key (parse_qsl query)
      = Err (KeyError auth_code_key)) /\
  fst (login_callback plain_hosts stray_url (world_login registration_reply))
  = Raised (KeyError auth_code_key).
Proof.
  split; [eexists; split |]; vm_compute; reflexivity.
Qed.

(** The start of [login_callback] on a URL that carries a code. *)
Lemma login_callback_with_code checks url w query code :
  0 < find url auth_code_key ->
  url_query checks url = Ok query ->
  first_value auth_code_key (parse_qsl query) = Ok code ->
  login_callback checks url w =
  bind (register_device code) (fun user_data =>
    if negb (truthy user_data) then ret tt
    else
      bind time_time (fun now =>
      bind (lift (set_path ["token_obtain_time"] (JFloat now) user_data))
        (fun user_data' =>
      bind (save_user_data user_data') (fun _ =>
      record (EvEmit "service-login")))))
    (add_trace [EvLog INFO "Got authorization code" []] w).
Proof.
  intros Hfind Hquery Hcode. unfold login_callback. fold auth_code_key.
  destruct (find url auth_code_key >? 0) eqn:E.
  - cbn [bind log record]. rewrite Hquery. cbn [lift Ok bind ret].
    rewrite Hcode. reflexivity.
  - rewrite Z.gtb_ltb in E. apply Z.ltb_ge in E. lia.
Qed.

(** C5 (amended): for every URL in which the text
    [openid.oa2.authorization_code] does not occur, or occurs first at
    the very start, [login_callback] does nothing at all.  For every URL
    in which its first occurrence is later, which [urlparse] accepts and
    whose query gives the parameter a value, with the verifier of the
    login attempt in place, the code is sent to the registration
    endpoint; when that answers with a credential set, the set is stamped
    with the time the answer arrived as [token_obtain_time], persisted,
    and [service-login] is emitted; when the request fails, nothing is
    persisted and nothing is emitted. *)
Theorem login_callback_cases (checks : host_checks) (url : string) (w : world) :
  (find url auth_code_key <= 0 -> login_callback checks url w = (Done tt, w)) /\
  (forall query code verifier r rest,
      0 < find url auth_code_key ->
      url_query checks url = Ok query ->
      first_value auth_code_key (parse_qsl query) = Ok code ->
      w_verifier w = Some verifier ->
      decode_utf8 verifier = Ok verifier ->
      w_net w = r :: rest ->
      (forall res_json user_data,
          payload r = Some res_json ->
          get_path ["response"; "success"] res_json = Ok (JDict user_data) ->
          user_data <> [] ->
          exists w',
            login_callback checks url w = (Done tt, w') /\
            requests (w_trace w')
            = (requests (w_trace w)
               ++ [EvPost register_url []
                     (registration_data code (w_client_id w) verifier
                        (w_serial w))])%list /\
            w_user w'
            = Some (JDict (dict_set "token_obtain_time"
                             (JFloat (w_now w + latency r)%Q) user_data)) /\
            writes user_path (w_trace w')
            = (writes user_path (w_trace w)
               ++ [JDict (dict_set "token_obtain_time"
                            (JFloat (w_now w + latency r)%Q) user_data)])%list /\
            emitted (w_trace w')
            = (emitted (w_trace w) ++ ["service-login"])%list) /\
      (payload r = None ->
       exists w',
         login_callback checks url w = (Done tt, w') /\
         w_user w' = w_user w /\
         writes user_path (w_trace w') = writes user_path (w_trace w) /\
         emitted (w_trace w') = emitted (w_trace w))).
Proof.
  split.
  - intros H. unfold login_callback. fold auth_code_key.
    destruct (find url auth_code_key >? 0) eqn:E; [| reflexivity].
    apply Z.gtb_lt in E. lia.
  - intros query code verifier r rest Hfind Hquery Hcode Hv Hd Hn.
    pose proof (login_callback_with_code checks url w query code
                  Hfind Hquery Hcode) as Hrun.
    pose proof (register_device_request code
                  (add_trace [EvLog INFO "Got authorization code" []] w)
                  verifier r rest Hv Hd Hn) as Hreg.
    cbn zeta in Hreg. cbn [add_trace w_client_id w_serial] in Hreg.
    split.
    + intros j ud Hj Hsucc Hne. rewrite Hj in Hreg.
      cbn [get_path] in Hsucc. unfold rbind in Hsucc.
      destruct (subscript j "response") as [e | response] eqn:E1;
        [discriminate |].
      destruct (subscript response "success") as [e | s] eqn:E2;
        [discriminate |].
      unfold Ok in Hsucc. injection Hsucc as ->.
      cbn [lift bind ret] in Hreg.
      rewrite E2 in Hreg. cbn [lift bind ret] in Hreg.
      rewrite (bind_done _ _ _ _ _ Hreg) in Hrun.
      assert (Ht : truthy (JDict ud) = true)
        by (destruct ud; [congruence | reflexivity]).
      rewrite Ht in Hrun.
      cbn [negb bind time_time set_path setitem lift Ok ret save_user_data
             write_json record] in Hrun.
      eexists. split; [exact Hrun |].
      cbn [w_trace w_user w_now add_trace set_file receive].
      rewrite !requests_app, !writes_app, !emitted_app.
      cbn [requests filter writes emitted flat_map app].
      rewrite !app_nil_r. repeat split.
    + intros Hfail. rewrite Hfail in Hreg.
      rewrite (bind_done _ _ _ _ _ Hreg) in Hrun.
      cbn [truthy negb ret] in Hrun.
      eexists. split; [exact Hrun |].
      cbn [w_trace w_user add_trace receive].
      rewrite !writes_app, !emitted_app.
      cbn [writes emitted flat_map app]. rewrite !app_nil_r.
      repeat split.
Qed.

Lemma login_callback_cases_witness :
  login_callback plain_hosts "https://www.amazon.com/"
    (world_login registration_reply)
  = (Done tt, world_login registration_reply) /\
  (exists w',
      login_callback plain_hosts redirect_url (world_login registration_reply)
      = (Done tt, w') /\
      requests (w_trace w')
      = [EvPost register_url []
           (registration_data "ANdNAVhyhqirUelHGEHA" (JStr "3030")
              "dBjftJeZ4CVP-mB92K27uhbUJU1p1r_wW1gFWFOEjXk" (JStr "00"))] /\
      w_user w'
      = Some (JDict
                [("tokens",
                  JDict [("bearer",
                          JDict [("access_token", JStr "Atna|a");
                                 ("refresh_token", JStr "Atnr|r");
                                 ("expires_in", JStr "3600")])]);
                 ("token_obtain_time", JFloat (50 + 2)%Q)]) /\
      writes user_path (w_trace w')
      = [JDict
           [("tokens",
             JDict [("bearer",
                     JDict [("access_token", JStr "Atna|a");
                            ("refresh_token", JStr "Atnr|r");
                            ("expires_in", JStr "3600")])]);
            ("token_obtain_time", JFloat (50 + 2)%Q)]] /\
      emitted (w_trace w') = ["service-login"]) /\
  (exists w',
      login_callback plain_hosts redirect_url (world_login http_error)
      = (Done tt, w') /\
      w_user w' = None /\
      writes user_path (w_trace w') = [] /\
      emitted (w_trace w') = []).
Proof.
  split; [| split].
  - apply (proj1 (login_callback_cases plain_hosts "https://www.amazon.com/"
                    (world_login registration_reply))).
    vm_compute. discriminate.
  - apply (proj1 (proj2 (login_callback_cases plain_hosts redirect_url
                           (world_login registration_reply))
                    (list_ascii_of_string "openid.assoc_handle=amzn_sonic_games_launcher&openid.oa2.authorization_code=ANdNAVhyhqirUelHGEHA&openid.mode=id_res")
                    "ANdNAVhyhqirUelHGEHA"
                    "dBjftJeZ4CVP-mB92K27uhbUJU1p1r_wW1gFWFOEjXk"
                    registration_reply []
                    eq_refl eq_refl eq_refl eq_refl eq_refl eq_refl)
             (JDict
                [("response",
                  JDict [("success",
                          JDict [("tokens",
                                  JDict [("bearer",
                                          JDict [("access_token", JStr "Atna|a");
                                                 ("refresh_token", JStr "Atnr|r");
                                                 ("expires_in", JStr "3600")])])])])])
             [("tokens",
               JDict [("bearer",
                       JDict [("access_token", JStr "Atna|a");
                              ("refresh_token", JStr "Atnr|r");
                              ("expires_in", JStr "3600")])])]);
      [reflexivity | reflexivity | discriminate].
  - apply (proj2 (proj2 (login_callback_cases plain_hosts redirect_url
                           (world_login http_error))
                    (list_ascii_of_string "openid.assoc_handle=amzn_sonic_games_launcher&openid.oa2.authorization_code=ANdNAVhyhqirUelHGEHA&openid.mode=id_res")
                    "ANdNAVhyhqirUelHGEHA"
                    "dBjftJeZ4CVP-mB92K27uhbUJU1p1r_wW1gFWFOEjXk"
                    http_error []
                    eq_refl eq_refl eq_refl eq_refl eq_refl eq_refl)).
    reflexivity.
Defined.

(** ** get_library: the requests *)

Lemma request_sds_page tok body w r rest j :
  w_net w = r :: rest -> payload r = Some j ->
  request_sds GetEntitlementsV2 tok body w = (Done j, asked tok body r rest w).
Proof.
  intros Hn Hp. unfold request_sds.
  rewrite (bind_done _ _ _ _ _ (post_answered _ _ _ _ _ _ Hn)).
  rewrite Hp. reflexivity.
Qed.

Lemma request_sds_failed tok body w r rest :
  w_net w = r :: rest -> payload r = None ->
  request_sds GetEntitlementsV2 tok body w
  = (Done JNull,
     add_trace [EvLog ERROR failed_to_request [JStr sds_url]]
               (asked tok body r rest w)).
Proof.
  intros Hn Hp. unfold request_sds.
  rewrite (bind_done _ _ _ _ _ (post_answered _ _ _ _ _ _ Hn)).
  rewrite Hp. reflexivity.
Qed.

(** One turn of the loop on a page: it ends when the page has no
    [nextToken] and goes on with the token when it has one. *)
Lemma sync_loop_turn turns s tok games cursor w r rest ents next :
  w_net w = r :: rest -> is_page r ents next ->
  sync_loop (S turns) (JStr s) tok games cursor w =
  let w1 := asked tok (sync_request_data s cursor) r rest w in
  match next with
  | None => (Done (Some (games ++ ents)%list), w1)
  | Some t =>
      sync_loop turns (JStr s) tok (games ++ ents)%list t
        (add_trace
           [EvLog INFO "Got next token in response, making next request" []]
           w1)
  end.
Proof.
  intros Hn (d & Hp & He & Hnext).
  cbn [sync_loop get_sync_request_data encode rbind lift Ok bind ret].
  rewrite (bind_done _ _ _ _ _ (request_sds_page _ _ _ _ _ _ Hn Hp)).
  assert (Ht : truthy (JDict d) = true).
  { destruct d; [discriminate | reflexivity]. }
  rewrite Ht. cbn [negb subscript]. rewrite He.
  cbn [lift Ok bind ret iterate].
  unfold contains, dict_mem. rewrite Hnext.
  destruct next as [t |]; cbn [negb]; [| reflexivity].
  cbn [bind log record ret lift Ok]. reflexivity.
Qed.

Lemma last_cons {A} (a d : A) l : last (a :: l) d = last l a.
Proof.
  revert a d. induction l as [| b l IH]; intros a d; [reflexivity |].
  change (last (a :: b :: l) d) with (last (b :: l) d).
  rewrite (IH b d), (IH b a). reflexivity.
Qed.

(** The pages that announce a next page keep the loop going. *)
Lemma sync_loop_more rs more :
  are_pages rs more ->
  forall turns s tok games cursor w tail,
    w_net w = (rs ++ tail)%list ->
    exists w1,
      sync_loop (List.length rs + turns) (JStr s) tok games cursor w
      = sync_loop turns (JStr s) tok
          (games ++ List.concat (map fst more))%list
          (last (map snd more) cursor) w1 /\
      w_net w1 = tail /\ quiet w w1 /\
      sds_requests (w_trace w1)
      = (sds_requests (w_trace w)
         ++ map (sync_request_data s)
                (removelast (cursor :: map snd more)))%list.
Proof.
  induction 1 as [| r [ents t] rs more Hpage Hrest IH];
    intros turns s tok games cursor w tail Hn.
  - exists w. cbn. rewrite !app_nil_r. repeat split; auto.
  - cbn [List.length Nat.add fst snd] in *.
    rewrite <- app_comm_cons in Hn.
    rewrite (sync_loop_turn _ _ _ _ _ _ _ _ _ _ Hn Hpage). cbn beta iota zeta.
    match goal with |- context [sync_loop _ _ _ _ _ ?w0] => set (wa := w0) end.
    destruct (IH turns s tok (games ++ ents)%list t wa tail eq_refl)
      as (w1 & Hrun & Hnet & (Hu & Hc & Hl) & Hreq).
    exists w1. split; [| split; [exact Hnet | split; [split; [| split] |]]].
    + rewrite Hrun. cbn [map fst snd List.concat]. rewrite <- app_assoc.
      rewrite last_cons. reflexivity.
    + exact Hu.
    + exact Hc.
    + exact Hl.
    + rewrite Hreq. subst wa. cbn [w_trace add_trace asked receive].
      rewrite !sds_requests_app. cbn [sds_requests flat_map app].
      change (sds_url =? amazon_sds ++ "/amazon/")%string with true.
      cbn [map snd]. rewrite <- !app_assoc. cbn [app].
      reflexivity.
Qed.

(** ** What a method leaves alone *)

Lemma keeps_cache_ret {A} (a : A) : keeps_cache (ret a).
Proof. intros w. reflexivity. Qed.

Lemma keeps_cache_raise {A} e : keeps_cache (@raise A e).
Proof. intros w. reflexivity. Qed.

Lemma keeps_cache_lift {A} (r : res A) : keeps_cache (lift r).
Proof. destruct r; intros w; reflexivity. Qed.

Lemma keeps_cache_bind {A B} (c : M A) (k : A -> M B) :
  keeps_cache c -> (forall a, keeps_cache (k a)) -> keeps_cache (bind c k).
Proof.
  intros Hc Hk w. unfold bind. specialize (Hc w).
  destruct (c w) as [[a | e |] w'] eqn:E; cbn [snd] in *.
  - rewrite Hk. exact Hc.
  - exact Hc.
  - exact Hc.
Qed.

Lemma keeps_cache_record e : keeps_cache (record e).
Proof. intros w. reflexivity. Qed.

Lemma keeps_cache_time : keeps_cache time_time.
Proof. intros w. reflexivity. Qed.

Lemma keeps_cache_read p : keeps_cache (read_json p).
Proof.
  intros w. unfold read_json. destruct (file p w); reflexivity.
Qed.

Lemma keeps_cache_save d : keeps_cache (save_user_data d).
Proof. intros w. reflexivity. Qed.

Lemma keeps_cache_post url headers body : keeps_cache (post url headers body).
Proof.
  intros w. unfold post, bind, record. cbn [add_trace w_net].
  destruct (w_net w); reflexivity.
Qed.

Ltac solve_keeps_cache :=
  repeat first
    [ apply keeps_cache_ret | apply keeps_cache_raise | apply keeps_cache_lift
    | apply keeps_cache_record | apply keeps_cache_time
    | apply keeps_cache_read | apply keeps_cache_save | apply keeps_cache_post
    | apply keeps_cache_bind; [| intros ]
    | match goal with
      | |- keeps_cache (if ?b then _ else _) => destruct b
      | |- keeps_cache (match ?x with _ => _ end) => destruct x
      end ].

Lemma keeps_cache_is_token_expired : keeps_cache is_token_expired.
Proof. unfold is_token_expired, load_user_data. solve_keeps_cache. Qed.

Lemma keeps_cache_refresh_token : keeps_cache refresh_token.
Proof. unfold refresh_token, load_user_data, log. solve_keeps_cache. Qed.

Lemma keeps_cache_credentials : keeps_cache get_library_credentials.
Proof.
  unfold get_library_credentials.
  apply keeps_cache_bind; [apply keeps_cache_is_token_expired | intros b].
  apply keeps_cache_bind;
    [destruct b; [apply keeps_cache_refresh_token | apply keeps_cache_ret] |].
  intros _. unfold load_user_data. solve_keeps_cache.
Qed.

(** ** get_library: the whole call *)

Lemma get_library_uncached w :
  w_cache w = None ->
  get_library w =
  bind get_library_credentials
    (fun credentials =>
       let (access_token, serial) := credentials in
       bind get_world (fun w =>
       bind (sync_loop (S (List.length (w_net w))) serial access_token [] JNull)
         (fun fetched =>
            match fetched with
            | None => ret JNull
            | Some games =>
                bind (write_json cache_path (JList games))
                     (fun _ => ret (JList games))
            end))) w.
Proof.
  intros H. unfold get_library. unfold bind at 1.
  unfold path_exists. cbn [file]. rewrite H. reflexivity.
Qed.

Lemma get_library_cache_hit w c :
  w_cache w = Some c ->
  get_library w
  = (Done c,
     add_trace [EvLog DEBUG "Returning cached Amazon library" [];
                EvRead cache_path] w).
Proof.
  intros H. unfold get_library. unfold bind at 1.
  unfold path_exists. cbn [file]. rewrite H.
  cbn [bind log record ret].
  unfold read_json. cbn [file add_trace w_cache]. rewrite H.
  cbn [bind record ret]. unfold add_trace. cbn.
  rewrite <- app_assoc. reflexivity.
Qed.

Lemma get_library_fetch w w1 tok s rs more r_last ents rest :
  w_cache w = None ->
  get_library_credentials w = (Done (tok, JStr s), w1) ->
  w_net w1 = (rs ++ r_last :: rest)%list ->
  are_pages rs more ->
  is_page r_last ents None ->
  let games := (List.concat (map fst more) ++ ents)%list in
  exists w',
    get_library w = (Done (JList games), w') /\
    w_cache w' = Some (JList games) /\
    w_user w' = w_user w1 /\
    w_net w' = rest /\
    sds_requests (w_trace w')
    = (sds_requests (w_trace w1)
       ++ map (sync_request_data s) (JNull :: map snd more))%list.
Proof.
  intros Hc Hcred Hnet Hpages Hlast games.
  rewrite (get_library_uncached _ Hc).
  rewrite (bind_done _ _ _ _ _ Hcred).
  cbn [bind get_world]. rewrite Hnet.
  replace (S (List.length (rs ++ r_last :: rest)))
    with (List.length rs + S (S (List.length rest)))%nat
    by (rewrite length_app; cbn [List.length]; lia).
  destruct (sync_loop_more rs more Hpages (S (S (List.length rest)))
              s tok [] JNull w1 _ Hnet)
    as (w2 & Hrun & Hnet2 & (Hu & Hc2 & Hl) & Hreq).
  rewrite (sync_loop_turn _ _ _ _ _ _ _ _ _ _ Hnet2 Hlast) in Hrun.
  cbn beta iota zeta in Hrun. cbn [app] in Hrun.
  rewrite (bind_done _ _ _ _ _ Hrun). cbn [bind write_json ret].
  eexists. split; [reflexivity |].
  cbn [w_cache w_user w_net w_trace add_trace set_file asked receive].
  repeat split.
  - exact Hu.
  - rewrite !sds_requests_app, Hreq.
    cbn [sds_requests flat_map app].
    change (sds_url =? amazon_sds ++ "/amazon/")%string with true.
    cbn [app]. rewrite !app_nil_r, <- app_assoc. f_equal.
    change [sync_request_data s (last (map snd more) JNull)]
      with (map (sync_request_data s) [last (map snd more) JNull]).
    rewrite <- map_app. f_equal.
    rewrite <- (last_cons JNull JNull).
    symmetry. apply app_removelast_last. discriminate.
Qed.

Lemma get_library_abort w w1 tok s rs more r_bad rest :
  w_cache w = None ->
  get_library_credentials w = (Done (tok, JStr s), w1) ->
  w_net w1 = (rs ++ r_bad :: rest)%list ->
  are_pages rs more ->
  payload r_bad = None ->
  exists w',
    get_library w = (Done JNull, w') /\
    w_cache w' = None /\
    w_user w' = w_user w1 /\
    w_net w' = rest.
Proof.
  intros Hc Hcred Hnet Hpages Hbad.
  rewrite (get_library_uncached _ Hc).
  rewrite (bind_done _ _ _ _ _ Hcred).
  cbn [bind get_world]. rewrite Hnet.
  replace (S (List.length (rs ++ r_bad :: rest)))
    with (List.length rs + S (S (List.length rest)))%nat
    by (rewrite length_app; cbn [List.length]; lia).
  destruct (sync_loop_more rs more Hpages (S (S (List.length rest)))
              s tok [] JNull w1 _ Hnet)
    as (w2 & Hrun & Hnet2 & (Hu & Hc2 & Hl) & Hreq).
  cbn [sync_loop get_sync_request_data encode rbind lift Ok bind ret]
    in Hrun.
  rewrite (bind_done _ _ _ _ _ (request_sds_failed _ _ _ _ _ Hnet2 Hbad))
    in Hrun.
  cbn [truthy negb ret] in Hrun.
  rewrite (bind_done _ _ _ _ _ Hrun). cbn [ret].
  eexists. split; [reflexivity |].
  cbn [w_cache w_user w_net add_trace asked receive].
  repeat split.
  - rewrite Hc2. pose proof (keeps_cache_credentials w) as K.
    rewrite Hcred in K. cbn [snd] in K. congruence.
  - exact Hu.
Qed.

Lemma add_trace_requests es w :
  requests es = [] ->
  requests (w_trace (add_trace es w)) = requests (w_trace w).
Proof.
  intros H. cbn [add_trace w_trace]. rewrite requests_app, H.
  apply app_nil_r.
Qed.

(** C4: whenever the library cache file exists, [get_library] returns
    its contents unchanged; all it does is log and read that file: no
    request goes out (the replies to come and the clock are untouched),
    the credential file is neither read nor written, whatever it holds
    and whether it exists or not. *)
Theorem get_library_cached (w : world) (c : json) :
  w_cache w = Some c ->
  get_library w
  = (Done c,
     add_trace [EvLog DEBUG "Returning cached Amazon library" [];
                EvRead cache_path] w)
  /\ (let w' := snd (get_library w) in
      requests (w_trace w') = requests (w_trace w) /\
      w_net w' = w_net w /\ w_now w' = w_now w /\
      w_user w' = w_user w /\ w_cache w' = Some c).
Proof.
  intros H. rewrite (get_library_cache_hit _ _ H).
  split; [reflexivity |]. cbn [snd].
  split; [apply add_trace_requests; reflexivity |].
  cbn [add_trace w_net w_now w_user w_cache]. auto.
Qed.

(** The cache is there, the credential file is not, and the network
    would fail. *)
Lemma get_library_cached_witness :
  get_library world_cached
  = (Done (JList [game "a1" "Alpha"]),
     add_trace [EvLog DEBUG "Returning cached Amazon library" [];
                EvRead cache_path] world_cached)
  /\ (let w' := snd (get_library world_cached) in
      requests (w_trace w') = requests (w_trace world_cached) /\
      w_net w' = w_net world_cached /\ w_now w' = w_now world_cached /\
      w_user w' = w_user world_cached /\
      w_cache w' = Some (JList [game "a1" "Alpha"])).
Proof.
  apply (get_library_cached world_cached (JList [game "a1" "Alpha"])).
  reflexivity.
Defined.

(** C2: with no cache file and every page request answered by a page,
    [get_library] returns the entitlements of all the pages, in the order
    of the pages and of each page, writes exactly that list to the cache
    file, and sends one request per page, each carrying the [nextToken] of
    the page before it ([None] for the first); after the page without
    [nextToken] no request is sent.  A turn of the loop on a page goes on
    to another request iff the page has the key [nextToken]. *)
Theorem get_library_paginated (w w1 : world) (tok : json) (s : string)
  (rs : list reply) (more : list (list json * json)) (r_last : reply)
  (ents : list json) (rest : list reply) :
  w_cache w = None ->
  get_library_credentials w = (Done (tok, JStr s), w1) ->
  w_net w1 = (rs ++ r_last :: rest)%list ->
  are_pages rs more ->
  is_page r_last ents None ->
  let games := (List.concat (map fst more) ++ ents)%list in
  (exists w',
      get_library w = (Done (JList games), w') /\
      w_cache w' = Some (JList games) /\
      w_net w' = rest /\
      sds_requests (w_trace w')
      = (sds_requests (w_trace w1)
         ++ map (sync_request_data s) (JNull :: map snd more))%list) /\
  (forall turns acc cursor w0 r tail page next,
      w_net w0 = r :: tail -> is_page r page next ->
      sync_loop (S turns) (JStr s) tok acc cursor w0
      = match next with
        | None =>
            (Done (Some (acc ++ page)%list),
             asked tok (sync_request_data s cursor) r tail w0)
        | Some t =>
            sync_loop turns (JStr s) tok (acc ++ page)%list t
              (add_trace
                 [EvLog INFO
                    "Got next token in response, making next request" []]
                 (asked tok (sync_request_data s cursor) r tail w0))
        end).
Proof.
  intros Hc Hcred Hnet Hpages Hlast games. split.
  - destruct (get_library_fetch _ _ _ _ _ _ _ _ _ Hc Hcred Hnet Hpages Hlast)
      as (w' & Hrun & Hcache & _ & Hrest & Hreq).
    exists w'. auto.
  - intros turns acc cursor w0 r tail page next Hn Hp.
    rewrite (sync_loop_turn _ _ _ _ _ _ _ _ _ _ Hn Hp). reflexivity.
Qed.

Lemma are_pages_two r1 p1 r2 p2 :
  is_page r1 (fst p1) (Some (snd p1)) ->
  is_page r2 (fst p2) (Some (snd p2)) ->
  are_pages [r1; r2] [p1; p2].
Proof. intros H1 H2. repeat constructor; assumption. Qed.

Lemma is_page_page ents next : is_page (page ents next) ents next.
Proof.
  unfold is_page, page. cbn [payload]. eexists. split; [reflexivity |].
  destruct next; split; reflexivity.
Qed.

(** Three pages, [nextToken] on the first two. *)
Lemma get_library_paginated_witness :
  exists w',
    get_library world_three_pages
    = (Done (JList [game "a1" "Alpha"; game "b2" "Beta"; game "c3" "Gamma";
                    game "d4" "Delta"]), w') /\
    w_cache w'
    = Some (JList [game "a1" "Alpha"; game "b2" "Beta"; game "c3" "Gamma";
                   game "d4" "Delta"]) /\
    w_net w' = [] /\
    sds_requests (w_trace w')
    = map (sync_request_data "G0W0XX")
          [JNull; JStr "cursor-1"; JStr "cursor-2"].
Proof.
  apply (proj1 (get_library_paginated
                  world_three_pages
                  (snd (get_library_credentials world_three_pages))
                  (JStr "Atna|old") "G0W0XX"
                  [page [game "a1" "Alpha"; game "b2" "Beta"]
                        (Some (JStr "cursor-1"));
                   page [game "c3" "Gamma"] (Some (JStr "cursor-2"))]
                  [([game "a1" "Alpha"; game "b2" "Beta"], JStr "cursor-1");
                   ([game "c3" "Gamma"], JStr "cursor-2")]
                  (page [game "d4" "Delta"] None)
                  [game "d4" "Delta"] []
                  eq_refl eq_refl eq_refl
                  (are_pages_two _ (_, _) _ (_, _)
                     (is_page_page _ _) (is_page_page _ _))
                  (is_page_page _ _))).
Defined.

(** C3: when the request for some page fails, [get_library] returns no
    result ([None]), the cache file is not created, and the entitlements
    of the pages before it are not returned. *)
Theorem get_library_page_failure (w w1 : world) (tok : json) (s : string)
  (rs : list reply) (more : list (list json * json)) (r_bad : reply)
  (rest : list reply) :
  w_cache w = None ->
  get_library_credentials w = (Done (tok, JStr s), w1) ->
  w_net w1 = (rs ++ r_bad :: rest)%list ->
  are_pages rs more ->
  payload r_bad = None ->
  exists w',
    get_library w = (Done JNull, w') /\
    w_cache w' = None /\
    w_net w' = rest.
Proof.
  intros Hc Hcred Hnet Hpages Hbad.
  destruct (get_library_abort _ _ _ _ _ _ _ _ Hc Hcred Hnet Hpages Hbad)
    as (w' & Hrun & Hcache & _ & Hrest).
  exists w'. auto.
Qed.

(** The second of three pages fails. *)
Lemma get_library_page_failure_witness :
  exists w',
    get_library world_page_two_fails = (Done JNull, w') /\
    w_cache w' = None /\
    w_net w' = [page [game "d4" "Delta"] None].
Proof.
  apply (get_library_page_failure
           world_page_two_fails
           (snd (get_library_credentials world_page_two_fails))
           (JStr "Atna|old") "G0W0XX"
           [page [game "a1" "Alpha"] (Some (JStr "cursor-1"))]
           [([game "a1" "Alpha"], JStr "cursor-1")]
           http_error [page [game "d4" "Delta"] None]
           eq_refl eq_refl eq_refl
           (Forall2_cons _ (_, _) (is_page_page _ _)
              (Forall2_nil _))
           eq_refl).
Defined.

Lemma concat_empty_pages (more : list (list json * json)) :
  Forall (fun p => fst p = []) more -> List.concat (map fst more) = [].
Proof.
  induction 1 as [| p more Hp _ IH]; [reflexivity |].
  cbn [map List.concat]. rewrite Hp, IH. reflexivity.
Qed.

(** C10: with no cache file, when every page is answered with an empty
    [entitlements] array, [get_library] writes the empty array to the
    cache file and returns the empty list; from then on, in any state in
    which the cache file is still what was written, [get_library] returns
    the empty list again without sending a request and leaves the cache
    file as it is. *)
Theorem get_library_empty_sync_cached (w w1 : world) (tok : json)
  (s : string) (rs : list reply) (more : list (list json * json))
  (r_last : reply) (rest : list reply) :
  w_cache w = None ->
  get_library_credentials w = (Done (tok, JStr s), w1) ->
  w_net w1 = (rs ++ r_last :: rest)%list ->
  are_pages rs more ->
  Forall (fun p => fst p = []) more ->
  is_page r_last [] None ->
  exists w',
    get_library w = (Done (JList []), w') /\
    w_cache w' = Some (JList []) /\
    forall w2,
      w_cache w2 = w_cache w' ->
      fst (get_library w2) = Done (JList []) /\
      requests (w_trace (snd (get_library w2))) = requests (w_trace w2) /\
      w_net (snd (get_library w2)) = w_net w2 /\
      w_cache (snd (get_library w2)) = w_cache w2.
Proof.
  intros Hc Hcred Hnet Hpages Hempty Hlast.
  destruct (get_library_fetch _ _ _ _ _ _ _ _ _ Hc Hcred Hnet Hpages Hlast)
    as (w' & Hrun & Hcache & _ & _ & _).
  rewrite (concat_empty_pages _ Hempty) in Hrun, Hcache.
  cbn [app] in Hrun, Hcache.
  exists w'. split; [exact Hrun |]. split; [exact Hcache |].
  intros w2 H2. rewrite Hcache in H2.
  rewrite (get_library_cache_hit _ _ H2). cbn [fst snd].
  split; [reflexivity |].
  split; [apply add_trace_requests; reflexivity |].
  cbn [add_trace w_net w_cache]. auto.
Qed.

Lemma get_library_empty_sync_cached_witness :
  exists w',
    get_library world_empty_library = (Done (JList []), w') /\
    w_cache w' = Some (JList []) /\
    forall w2,
      w_cache w2 = w_cache w' ->
      fst (get_library w2) = Done (JList []) /\
      requests (w_trace (snd (get_library w2))) = requests (w_trace w2) /\
      w_net (snd (get_library w2)) = w_net w2 /\
      w_cache (snd (get_library w2)) = w_cache w2.
Proof.
  apply (get_library_empty_sync_cached
           world_empty_library
           (snd (get_library_credentials world_empty_library))
           (JStr "Atna|old") "G0W0XX" [] [] (page [] None) []
           eq_refl eq_refl eq_refl (Forall2_nil _) (Forall_nil _)
           (is_page_page _ _)).
Defined.

(** The token has expired: it is refreshed first, and the pages are
    asked with the new token. *)
Example get_library_after_refresh :
  let w :=
    fresh_world (Some doc_valid) 4000
      [token_reply; page [game "a1" "Alpha"] (Some (JStr "cursor-1"));
       page [] None] in
  fst (get_library w) = Done (JList [game "a1" "Alpha"]) /\
  fst (get_library_credentials w) = Done (JStr "Atna|new", JStr "G0W0XX") /\
  w_cache (snd (get_library w)) = Some (JList [game "a1" "Alpha"]).
Proof. vm_compute. repeat split. Qed.

(** The second call after an empty synchronisation: the network would
    fail, and is not asked. *)
Example get_library_twice :
  let w1 := snd (get_library world_empty_library) in
  let w2 :=
    {| w_user := w_user w1; w_cache := w_cache w1;
       w_is_loading := false; w_client_id := JNull; w_serial := JNull;
       w_verifier := None; w_now := 9999; w_net := [http_error];
       w_trace := [] |} in
  fst (get_library w2) = Done (JList []) /\
  w_net (snd (get_library w2)) = [http_error].
Proof. vm_compute. split; reflexivity. Qed.
(** ** load *)

(** A bare [except] whose handler returns lets no exception out. *)
Lemma try_except_never_raises {A} (c h : M A) :
  (forall w, exists a w', h w = (Done a, w')) ->
  forall w,
    (exists a w', try_except c h w = (Done a, w')) \/
    (exists w', try_except c h w = (Blocked, w')).
Proof.
  intros Hh w. unfold try_except.
  destruct (c w) as [[a | e |] w1].
  - left. eauto.
  - left. apply Hh.
  - right. eauto.
Qed.

Section LoadFacts.

Variable py_str : json -> string.
Variable slugify : json -> res string.
Variable json_dumps : json -> string.

(** C7: [load] called while [is_loading] is set returns at once: it
    logs a warning and does nothing else (no request, no file or library
    change).  A [load] that found the flag clear and returns leaves the
    flag clear and never raises: whatever exception the fetch, the mapping
    or the saving raised has been turned into "no games". *)
Theorem load_guard (w : world) :
  (w_is_loading w = true ->
   load py_str slugify json_dumps w
   = (Done None,
      add_trace [EvLog WARNING "Amazon games are already loading" []] w)) /\
  (w_is_loading w = false ->
   forall r w',
     load py_str slugify json_dumps w = (r, w') ->
     r <> Blocked ->
     w_is_loading w' = false /\ exists games, r = Done games).
Proof.
  split.
  - intros H. unfold load. cbn [bind get_world]. rewrite H. reflexivity.
  - intros H r w' Hrun Hr.
    destruct w as [user cache loading client_id serial verifier now net tr].
    cbn [w_is_loading] in H. subst loading.
    unfold load, is_authenticated, path_exists in Hrun.
    cbn [bind get_world w_is_loading file w_user] in Hrun.
    destruct user as [d |].
    + cbn [negb bind set_is_loading] in Hrun.
      match type of Hrun with
      | bind (try_except ?c ?h) _ ?w0 = _ =>
          destruct (try_except_never_raises c h
                      ltac:(intros w0'; eexists; eexists; reflexivity) w0)
            as [(g & w3 & E) | (w3 & E)]
      end.
      * rewrite (bind_done _ _ _ _ _ E) in Hrun. cbn in Hrun.
        injection Hrun as <- <-. split; [reflexivity |].
        eexists. reflexivity.
      * rewrite (bind_blocked _ _ _ _ E) in Hrun.
        injection Hrun as <- <-. congruence.
    + cbn in Hrun. injection Hrun as <- <-. split; [reflexivity |].
      eexists. reflexivity.
Qed.

End LoadFacts.

Lemma load_guard_witness :
  load id_text title_slug no_details world_loading
  = (Done None,
     add_trace [EvLog WARNING "Amazon games are already loading" []]
               world_loading) /\
  (w_is_loading
     (snd (load id_text title_slug no_details world_three_pages)) = false /\
   exists games,
     fst (load id_text title_slug no_details world_three_pages) = Done games)
  /\
  (w_is_loading
     (snd (load id_text title_slug no_details world_page_two_fails)) = false
   /\
   exists games,
     fst (load id_text title_slug no_details world_page_two_fails)
     = Done games).
Proof.
  split; [| split].
  - apply (proj1 (load_guard id_text title_slug no_details world_loading)).
    reflexivity.
  - apply (proj2 (load_guard id_text title_slug no_details world_three_pages)
             eq_refl _ _ (surjective_pairing _)).
    vm_compute. discriminate.
  - apply (proj2 (load_guard id_text title_slug no_details
                    world_page_two_fails)
             eq_refl _ _ (surjective_pairing _)).
    vm_compute. discriminate.
Defined.

(** A full load of three pages, and one whose second page fails: the
    fetch returns [None], iterating over it raises, and the exception is
    turned into "no games". *)
Example load_runs :
  fst (load id_text title_slug no_details world_three_pages)
  = Done (Some [ {| appid := "a1"; slug := "Alpha"; name := JStr "Alpha";
                    details := "" |};
                 {| appid := "b2"; slug := "Beta"; name := JStr "Beta";
                    details := "" |};
                 {| appid := "c3"; slug := "Gamma"; name := JStr "Gamma";
                    details := "" |};
                 {| appid := "d4"; slug := "Delta"; name := JStr "Delta";
                    details := "" |} ])
  /\ fst (load id_text title_slug no_details world_page_two_fails) = Done None.
Proof. vm_compute. split; reflexivity. Qed.
(** * Further properties *)

(** ** Texts *)

Lemma length_string_of_list_ascii cs :
  String.length (string_of_list_ascii cs) = List.length cs.
Proof. induction cs as [| c cs IH]; [reflexivity |]. simpl. now rewrite IH. Qed.

Lemma length_list_ascii_of_string s :
  List.length (list_ascii_of_string s) = String.length s.
Proof. induction s as [| c s IH]; [reflexivity |]. simpl. now rewrite IH. Qed.

Lemma list_ascii_of_string_app s t :
  list_ascii_of_string (s ++ t)
  = (list_ascii_of_string s ++ list_ascii_of_string t)%list.
Proof. induction s as [| c s IH]; [reflexivity |]. simpl. now rewrite IH. Qed.

Lemma all_chars_of_list p cs :
  all_chars p (string_of_list_ascii cs) = forallb p cs.
Proof.
  unfold all_chars. now rewrite list_ascii_of_string_of_list_ascii.
Qed.

(** Text of 7-bit characters is well-formed UTF-8. *)
Lemma utf8_valid_7bit cs :
  forallb (fun c => byte_val c <? 128) cs = true ->
  utf8_valid (map byte_val cs) = true.
Proof.
  induction cs as [| c cs IH]; [reflexivity |].
  cbn [forallb map]. intros H. apply andb_true_iff in H. destruct H as [Hc H].
  cbn [utf8_valid].
  replace (byte_val c <=? 127) with true
    by (symmetry; apply Z.leb_le; apply Z.ltb_lt in Hc; lia).
  apply IH. exact H.
Qed.

(** ** The unpadded URL-safe encoding *)

Lemma sextet_is_urlsafe i :
  0 <= i < 64 -> is_urlsafe (Base64.sextet Base64.urlsafe_alphabet i) = true.
Proof.
  intros Hi.
  assert (T : forallb (fun n => is_urlsafe (Base64.sextet
                                  Base64.urlsafe_alphabet (Z.of_nat n)))
                      (seq 0 64) = true) by (vm_compute; reflexivity).
  pose proof (proj1 (forallb_forall _ _) T (Z.to_nat i)) as H.
  cbv beta in H. rewrite Z2Nat.id in H by lia. apply H. apply in_seq. lia.
Qed.

Lemma is_urlsafe_7bit c : is_urlsafe c = true -> (byte_val c <? 128) = true.
Proof.
  unfold is_urlsafe. intros H. apply existsb_exists in H.
  destruct H as (a & Hin & Ha). apply Ascii.eqb_eq in Ha. subst a.
  assert (T : forallb (fun c => byte_val c <? 128) Base64.urlsafe_alphabet
              = true) by (vm_compute; reflexivity).
  apply (proj1 (forallb_forall _ _) T c Hin).
Qed.

Lemma is_urlsafe_not_pad c : is_urlsafe c = true -> c <> "="%char.
Proof. intros H ->. vm_compute in H. discriminate. Qed.

Lemma base64url_nopad_list_shape bs :
  Z.of_nat (List.length (Base64.base64url_nopad_list bs))
  = (4 * Z.of_nat (List.length bs) + 2) / 3 /\
  forallb is_urlsafe (Base64.base64url_nopad_list bs) = true.
Proof.
  induction bs as [| a | a b | a b c rest IH] using Base64Facts.triples_ind.
  - split; reflexivity.
  - split; [reflexivity |].
    cbn [Base64.base64url_nopad_list forallb].
    rewrite !sextet_is_urlsafe
      by (apply Base64Facts.s1_range || apply Base64Facts.s2_range).
    reflexivity.
  - split; [reflexivity |].
    cbn [Base64.base64url_nopad_list forallb].
    rewrite !sextet_is_urlsafe
      by (apply Base64Facts.s1_range || apply Base64Facts.s2_range
          || apply Base64Facts.s3_range).
    reflexivity.
  - destruct IH as [IHl IHs]. split.
    + cbn [Base64.base64url_nopad_list List.length].
      rewrite !Nat2Z.inj_succ, IHl.
      Z.div_mod_to_equations. lia.
    + cbn [Base64.base64url_nopad_list forallb].
      rewrite !sextet_is_urlsafe
        by (apply Base64Facts.s1_range || apply Base64Facts.s2_range
            || apply Base64Facts.s3_range || apply Base64Facts.s4_range).
      exact IHs.
Qed.

Lemma base64url_nopad_shape s :
  Z.of_nat (String.length (Base64.base64url_nopad s))
  = (4 * Z.of_nat (String.length s) + 2) / 3 /\
  all_chars is_urlsafe (Base64.base64url_nopad s) = true.
Proof.
  unfold Base64.base64url_nopad.
  rewrite length_string_of_list_ascii, all_chars_of_list.
  rewrite <- (length_list_ascii_of_string s).
  apply base64url_nopad_list_shape.
Qed.

Lemma urlsafe_text_decodes s :
  all_chars is_urlsafe s = true -> decode_utf8 s = Ok s.
Proof.
  intros H. unfold decode_utf8. rewrite utf8_valid_7bit; [reflexivity |].
  unfold all_chars in H. apply forallb_forall. intros c Hc.
  apply is_urlsafe_7bit. apply (proj1 (forallb_forall _ _) H c Hc).
Qed.

(** ** The digest *)

Lemma length_be_bytes len n : List.length (SHA256.be_bytes len n) = len.
Proof.
  revert n. induction len as [| len IH]; intros n; [reflexivity |].
  cbn [SHA256.be_bytes]. rewrite length_app, IH. cbn. lia.
Qed.

Lemma length_compress h block :
  List.length h = 8%nat -> List.length (SHA256.compress h block) = 8%nat.
Proof.
  intros H. unfold SHA256.compress.
  rewrite length_map, length_combine, H. reflexivity.
Qed.

Lemma length_blocks n : forall h bs,
  List.length h = 8%nat -> List.length (SHA256.blocks n h bs) = 8%nat.
Proof.
  induction n as [| n IH]; intros h bs H; [exact H |].
  cbn [SHA256.blocks]. destruct bs; [exact H |].
  apply IH. apply length_compress. exact H.
Qed.

Lemma length_flat_map_be_bytes h :
  List.length (flat_map (SHA256.be_bytes 4) h) = (4 * List.length h)%nat.
Proof.
  induction h as [| x h IH]; [reflexivity |].
  cbn [flat_map]. rewrite length_app, length_be_bytes, IH. cbn [List.length]. lia.
Qed.

(** A SHA-256 digest has 32 bytes. *)
Lemma length_sha256 msg : String.length (sha256 msg) = 32%nat.
Proof.
  unfold sha256, SHA256.digest.
  rewrite length_string_of_list_ascii, length_map, length_flat_map_be_bytes.
  rewrite length_blocks; reflexivity.
Qed.

(** X1: for the 32 bytes it asks [secrets.token_bytes] for,
    [generate_code_verifier] returns a text of 43 characters, all of the
    URL-safe base64 alphabet (so without padding), which decodes as UTF-8
    as [register_device] needs; all it does is log. *)
Theorem generate_code_verifier_shape (token_bytes : string) (w : world) :
  String.length token_bytes = 32%nat ->
  exists verifier,
    generate_code_verifier token_bytes w
    = (Done verifier,
       add_trace [EvLog INFO "Generated code_verifier: %s" [JStr verifier]] w)
    /\ String.length verifier = 43%nat
    /\ all_chars is_urlsafe verifier = true
    /\ decode_utf8 verifier = Ok verifier.
Proof.
  intros Hlen. unfold generate_code_verifier.
  rewrite rstrip_urlsafe_b64encode.
  destruct (base64url_nopad_shape token_bytes) as [Hl Hs].
  eexists. split; [reflexivity |]. rewrite Hlen in Hl.
  split; [| split; [exact Hs | apply urlsafe_text_decodes; exact Hs]].
  change ((4 * Z.of_nat 32 + 2) / 3) with 43 in Hl. lia.
Qed.

Lemma generate_code_verifier_shape_witness :
  exists verifier,
    generate_code_verifier token_bytes_example world_new
    = (Done verifier,
       add_trace [EvLog INFO "Generated code_verifier: %s" [JStr verifier]]
                 world_new)
    /\ String.length verifier = 43%nat
    /\ all_chars is_urlsafe verifier = true
    /\ decode_utf8 verifier = Ok verifier.
Proof.
  apply (generate_code_verifier_shape token_bytes_example world_new).
  reflexivity.
Defined.

(** X2: whatever the verifier, the challenge [generate_challange]
    returns has 43 characters, all of the URL-safe base64 alphabet. *)
Theorem generate_challange_shape (code_verifier : string) (w : world) :
  exists challenge,
    fst (generate_challange code_verifier w) = Done challenge /\
    String.length challenge = 43%nat /\
    all_chars is_urlsafe challenge = true.
Proof.
  unfold generate_challange. rewrite rstrip_urlsafe_b64encode.
  destruct (base64url_nopad_shape (sha256 code_verifier)) as [Hl Hs].
  eexists. split; [reflexivity |]. split; [| exact Hs].
  rewrite length_sha256 in Hl.
  change ((4 * Z.of_nat 32 + 2) / 3) with 43 in Hl. lia.
Qed.

(** ** Hexadecimal digits *)

Lemma hex_digit_table d :
  0 <= d < 16 ->
  hex_val (hex_digit false d) = Some d /\
  hex_val (ascii_upper (hex_digit false d)) = Some d /\
  is_lower_hex (hex_digit false d) = true /\
  is_upper_hex (ascii_upper (hex_digit false d)) = true.
Proof.
  intros Hd.
  assert (T : forallb
                (fun n =>
                   let d := Z.of_nat n in
                   match hex_val (hex_digit false d),
                         hex_val (ascii_upper (hex_digit false d)) with
                   | Some a, Some b =>
                       (a =? d) && (b =? d)
                       && is_lower_hex (hex_digit false d)
                       && is_upper_hex (ascii_upper (hex_digit false d))
                   | _, _ => false
                   end)
                (seq 0 16) = true) by (vm_compute; reflexivity).
  pose proof (proj1 (forallb_forall _ _) T (Z.to_nat d)) as H.
  cbv beta zeta in H. rewrite Z2Nat.id in H by lia.
  specialize (H ltac:(apply in_seq; lia)).
  destruct (hex_val (hex_digit false d)) as [a |]; [| discriminate].
  destruct (hex_val (ascii_upper (hex_digit false d))) as [b |];
    [| discriminate].
  rewrite !andb_true_iff in H. destruct H as [[[Ha Hb] Hl] Hu].
  apply Z.eqb_eq in Ha, Hb. subst. auto.
Qed.

Lemma length_hex_digits len n : List.length (hex_digits len n) = len.
Proof.
  revert n. induction len as [| len IH]; intros n; [reflexivity |].
  cbn [hex_digits]. rewrite length_app, IH. cbn. lia.
Qed.

Lemma hex_value_app cs c :
  hex_value (cs ++ [c])
  = match hex_value cs, hex_val c with
    | Some a, Some d => Some (16 * a + d)
    | _, _ => None
    end.
Proof. unfold hex_value. rewrite fold_left_app. reflexivity. Qed.

(** The digits, put in capitals, read back as the number. *)
Lemma hex_value_hex_digits len : forall n,
  0 <= n ->
  hex_value (map ascii_upper (hex_digits len n))
  = Some (n mod 16 ^ Z.of_nat len) /\
  forallb is_upper_hex (map ascii_upper (hex_digits len n)) = true.
Proof.
  induction len as [| len IH]; intros n Hn.
  - split; [| reflexivity]. cbn. now rewrite Z.mod_1_r.
  - cbn [hex_digits]. rewrite map_app. cbn [map].
    destruct (IH (n / 16) ltac:(apply Z.div_pos; lia)) as [IHv IHs].
    destruct (hex_digit_table (n mod 16) ltac:(apply Z.mod_pos_bound; lia))
      as (_ & Hu & _ & Hs).
    split.
    + rewrite hex_value_app, IHv, Hu. f_equal.
      rewrite Nat2Z.inj_succ, Z.pow_succ_r by lia.
      rewrite (Z.rem_mul_r n 16 (16 ^ Z.of_nat len)) by lia. lia.
    + rewrite forallb_app, IHs. cbn [forallb]. rewrite Hs. reflexivity.
Qed.

(** X3: for a node number of up to 128 bits (the hardware address is
    48), [generate_device_serial] returns 32 capital hexadecimal digits
    that read back as the node number, so that two node numbers never
    share a serial; all it does is log. *)
Theorem generate_device_serial_decodes (node : Z) (w : world) :
  0 <= node < 2 ^ 128 ->
  exists serial,
    generate_device_serial node w
    = (Done serial,
       add_trace [EvLog INFO "Generated serial: %s" [JStr serial]] w) /\
    String.length serial = 32%nat /\
    all_chars is_upper_hex serial = true /\
    hex_value (list_ascii_of_string serial) = Some node.
Proof.
  intros Hn. unfold generate_device_serial, uuid_hex.
  replace ((0 <=? node) && (node <? 2 ^ 128)) with true
    by (symmetry; apply andb_true_iff; split;
        [apply Z.leb_le | apply Z.ltb_lt]; lia).
  cbn [lift Ok bind ret log record].
  eexists. split; [reflexivity |].
  unfold upper. rewrite list_ascii_of_string_of_list_ascii.
  rewrite length_string_of_list_ascii, length_map, length_hex_digits.
  rewrite all_chars_of_list, list_ascii_of_string_of_list_ascii.
  destruct (hex_value_hex_digits 32 node ltac:(lia)) as [Hv Hs].
  split; [reflexivity |]. split; [exact Hs |].
  rewrite Hv. f_equal. apply Z.mod_small.
  change (16 ^ Z.of_nat 32) with (2 ^ 128). lia.
Qed.

Lemma generate_device_serial_decodes_witness :
  exists serial,
    generate_device_serial 0x1234567890ab world_new
    = (Done serial,
       add_trace [EvLog INFO "Generated serial: %s" [JStr serial]] world_new)
    /\ String.length serial = 32%nat
    /\ all_chars is_upper_hex serial = true
    /\ hex_value (list_ascii_of_string serial) = Some 0x1234567890ab.
Proof.
  apply (generate_device_serial_decodes 0x1234567890ab world_new).
  split; [discriminate | reflexivity].
Defined.

Example generate_device_serial_runs :
  fst (generate_device_serial 0x1234567890ab world_new)
  = Done "000000000000000000001234567890AB" /\
  generate_device_serial (2 ^ 128) world_new = (Raised ValueError, world_new)
  /\ generate_device_serial (-1) world_new = (Raised ValueError, world_new).
Proof. vm_compute. repeat split. Qed.

Lemma byte_chr_byte_val c : byte_chr (byte_val c) = c.
Proof.
  unfold byte_chr, byte_val. pose proof (N_ascii_bounded c).
  rewrite Z.mod_small by lia. rewrite N2Z.id. apply ascii_N_embedding.
Qed.

(** The two digits of every byte read back as the byte. *)
Lemma unhex_hex cs :
  unhex (flat_map (fun c => [hex_digit false (byte_val c / 16);
                             hex_digit false (byte_val c mod 16)]) cs)
  = Some cs /\
  forallb is_lower_hex
    (flat_map (fun c => [hex_digit false (byte_val c / 16);
                         hex_digit false (byte_val c mod 16)]) cs) = true.
Proof.
  induction cs as [| c cs [IHv IHs]]; [split; reflexivity |].
  cbn [flat_map app unhex forallb].
  assert (Hc : 0 <= byte_val c < 256)
    by (unfold byte_val; pose proof (N_ascii_bounded c); lia).
  destruct (hex_digit_table (byte_val c / 16)
              ltac:(Z.div_mod_to_equations; lia)) as (H1 & _ & L1 & _).
  destruct (hex_digit_table (byte_val c mod 16)
              ltac:(Z.div_mod_to_equations; lia)) as (H2 & _ & L2 & _).
  rewrite H1, H2, IHv, L1, L2, IHs. split; [| reflexivity].
  f_equal. f_equal.
  rewrite <- (byte_chr_byte_val c) at 3. f_equal.
  Z.div_mod_to_equations. lia.
Qed.

Lemma length_append s t :
  String.length (s ++ t) = (String.length s + String.length t)%nat.
Proof. induction s as [| c s IH]; [reflexivity |]. simpl. now rewrite IH. Qed.

Lemma length_hex upper_case s :
  String.length (hex upper_case s) = (2 * String.length s)%nat.
Proof.
  unfold hex. rewrite length_string_of_list_ascii.
  rewrite <- (length_list_ascii_of_string s).
  induction (list_ascii_of_string s) as [| c cs IH]; [reflexivity |].
  cbn [flat_map app List.length]. rewrite IH. lia.
Qed.

(** X4: for a serial of 7-bit characters, [generate_client_id] returns
    twice as many small hexadecimal digits as the serial followed by
    [#A2UMVHOX7UP4V7] has characters, and they read back as exactly that
    text, so that two serials never share a client id; all it does is
    log.  For any other serial the encoding raises ([UnicodeEncodeError],
    a [ValueError]) and nothing is logged. *)
Theorem generate_client_id_decodes (serial : string) (w : world) :
  (all_chars (fun c => byte_val c <? 128) serial = true ->
   exists client_id,
     generate_client_id serial w
     = (Done client_id,
        add_trace [EvLog INFO "Generated client_id: %s" [JStr client_id]] w)
     /\ String.length client_id = (2 * (String.length serial + 15))%nat
     /\ all_chars is_lower_hex client_id = true
     /\ unhex (list_ascii_of_string client_id)
        = Some (list_ascii_of_string (serial ++ "#A2UMVHOX7UP4V7"))) /\
  (all_chars (fun c => byte_val c <? 128) serial = false ->
   generate_client_id serial w = (Raised ValueError, w)).
Proof.
  unfold generate_client_id, encode_ascii, all_chars.
  rewrite list_ascii_of_string_app, forallb_app.
  change (forallb (fun c => byte_val c <? 128)
            (list_ascii_of_string "#A2UMVHOX7UP4V7")) with true.
  rewrite andb_true_r. split; intros H; rewrite H.
  - cbn [lift Ok bind ret log record].
    eexists. split; [reflexivity |].
    rewrite length_hex, length_append.
    split; [reflexivity |].
    unfold hex. rewrite list_ascii_of_string_of_list_ascii.
    destruct (unhex_hex (list_ascii_of_string (serial ++ "#A2UMVHOX7UP4V7")))
      as [Hv Hs].
    split; [exact Hs |]. rewrite Hv, list_ascii_of_string_app. reflexivity.
  - reflexivity.
Qed.

Lemma generate_client_id_decodes_witness :
  (exists client_id,
     generate_client_id "00AB" world_new
     = (Done client_id,
        add_trace [EvLog INFO "Generated client_id: %s" [JStr client_id]]
                  world_new)
     /\ String.length client_id = (2 * (String.length "00AB" + 15))%nat
     /\ all_chars is_lower_hex client_id = true
     /\ unhex (list_ascii_of_string client_id)
        = Some (list_ascii_of_string ("00AB" ++ "#A2UMVHOX7UP4V7"))) /\
  generate_client_id (String (ascii_of_nat 233) "") world_new
  = (Raised ValueError, world_new).
Proof.
  split.
  - apply (proj1 (generate_client_id_decodes "00AB" world_new)).
    reflexivity.
  - apply (proj2 (generate_client_id_decodes
                    (String (ascii_of_nat 233) "") world_new)).
    reflexivity.
Defined.

(** ** Query strings *)

Lemma unquote_plus_unfold cs :
  unquote_plus cs = string_of_list_ascii (unquote (map plus_to_space cs)).
Proof. reflexivity. Qed.

(** What [quote_plus] makes of one character: something, made of plain
    7-bit characters, that [unquote_to_bytes] after [+] to space reads
    back. *)
Lemma quote_plus_char_facts c :
  quote_plus_char c <> [] /\
  forallb is_plain (quote_plus_char c) = true /\
  forallb is_7bit (map plus_to_space (quote_plus_char c)) = true /\
  forall rest,
    unquote_to_bytes (map plus_to_space (quote_plus_char c ++ rest))
    = c :: unquote_to_bytes (map plus_to_space rest).
Proof.
  destruct c as [[] [] [] [] [] [] [] []];
    (split; [discriminate
            | split; [reflexivity
                     | split; [reflexivity | intros rest; reflexivity]]]).
Qed.

Lemma quote_plus_plain s : forallb is_plain (quote_plus s) = true.
Proof.
  unfold quote_plus.
  induction (list_ascii_of_string s) as [| c cs IH]; [reflexivity |].
  cbn [flat_map]. rewrite forallb_app, IH.
  now rewrite (proj1 (proj2 (quote_plus_char_facts c))).
Qed.

Lemma quote_plus_7bit s :
  forallb is_7bit (map plus_to_space (quote_plus s)) = true.
Proof.
  unfold quote_plus.
  induction (list_ascii_of_string s) as [| c cs IH]; [reflexivity |].
  cbn [flat_map]. rewrite map_app, forallb_app, IH.
  now rewrite (proj1 (proj2 (proj2 (quote_plus_char_facts c)))).
Qed.

Lemma unquote_to_bytes_quote_plus s :
  unquote_to_bytes (map plus_to_space (quote_plus s)) = list_ascii_of_string s.
Proof.
  unfold quote_plus.
  induction (list_ascii_of_string s) as [| c cs IH]; [reflexivity |].
  cbn [flat_map]. rewrite (proj2 (proj2 (proj2 (quote_plus_char_facts c)))).
  now rewrite IH.
Qed.

(** 7-bit bytes are well-formed UTF-8: decoding keeps them. *)
Lemma decode_replace_7bit cs :
  forallb is_7bit cs = true ->
  map byte_chr (decode_replace (map byte_val cs)) = cs.
Proof.
  induction cs as [| c cs IH]; [reflexivity |].
  cbn [forallb map decode_replace]. intros H. apply andb_true_iff in H.
  destruct H as [Hc H]. unfold is_7bit in Hc. rewrite Hc.
  cbn [map]. rewrite byte_chr_byte_val. now rewrite IH.
Qed.

Lemma unquote_to_bytes_no_percent cs :
  has "%" cs = false -> unquote_to_bytes cs = cs.
Proof.
  induction cs as [| c cs IH]; [reflexivity |].
  unfold has. cbn [existsb unquote_to_bytes]. intros H.
  apply orb_false_iff in H. destruct H as [Hc H].
  rewrite Ascii.eqb_sym in Hc. rewrite Hc. now rewrite IH.
Qed.

Lemma unquote_to_bytes_7bit cs :
  forallb is_7bit cs = true -> runs cs = match cs with
                                         | [] => []
                                         | _ :: _ => [(true, cs)]
                                         end.
Proof.
  induction cs as [| c cs IH]; [reflexivity |].
  cbn [forallb runs]. intros H. apply andb_true_iff in H.
  destruct H as [Hc H]. rewrite (IH H), Hc.
  destruct cs; reflexivity.
Qed.

(** On 7-bit text [unquote] is [unquote_to_bytes] followed by the
    decoding. *)
Lemma unquote_7bit cs :
  forallb is_7bit cs = true ->
  unquote cs = map byte_chr (decode_replace (map byte_val (unquote_to_bytes cs))).
Proof.
  intros H. unfold unquote. destruct (has "%" cs) eqn:E.
  - rewrite (unquote_to_bytes_7bit cs H).
    destruct cs as [| c cs]; [discriminate |].
    cbn [flat_map fst snd]. apply app_nil_r.
  - rewrite (unquote_to_bytes_no_percent cs E).
    symmetry. now apply decode_replace_7bit.
Qed.

(** A 7-bit text comes back from [quote_plus]. *)
Lemma unquote_plus_quote_plus s :
  all_chars is_7bit s = true -> unquote_plus (quote_plus s) = s.
Proof.
  intros H. rewrite unquote_plus_unfold.
  rewrite (unquote_7bit _ (quote_plus_7bit s)).
  rewrite unquote_to_bytes_quote_plus, (decode_replace_7bit _ H).
  apply string_of_list_ascii_of_string.
Qed.

Lemma quote_plus_empty s : quote_plus s = [] -> s = "".
Proof.
  destruct s as [| c s]; [reflexivity |].
  unfold quote_plus. cbn [list_ascii_of_string flat_map]. intros H.
  apply app_eq_nil in H. destruct H as [H _].
  now apply (proj1 (quote_plus_char_facts c)) in H.
Qed.

Lemma is_plain_not c x :
  is_plain c = true ->
  In x ["&"; "="; "#"; "?"; byte_chr 9; byte_chr 10; byte_chr 13]%char ->
  Ascii.eqb c x = false.
Proof.
  unfold is_plain. intros H Hx. apply negb_true_iff in H.
  destruct (Ascii.eqb c x) eqn:E; [| reflexivity].
  assert (existsb (Ascii.eqb c)
            ["&"; "="; "#"; "?"; byte_chr 9; byte_chr 10; byte_chr 13]%char
          = true) by (apply existsb_exists; eauto).
  congruence.
Qed.

Lemma before_absent x cs :
  forallb (fun c => negb (Ascii.eqb c x)) cs = true -> before x cs = cs.
Proof.
  induction cs as [| c cs IH]; [reflexivity |].
  cbn [forallb before]. intros H. apply andb_true_iff in H.
  destruct H as [Hc H]. apply negb_true_iff in Hc. rewrite Hc.
  now rewrite IH.
Qed.

Lemma before_first x p r :
  forallb (fun c => negb (Ascii.eqb c x)) p = true ->
  before x (p ++ x :: r) = p.
Proof.
  induction p as [| c p IH]; cbn [forallb before app]; intros H.
  - now rewrite Ascii.eqb_refl.
  - apply andb_true_iff in H. destruct H as [Hc H].
    apply negb_true_iff in Hc. rewrite Hc. now rewrite IH.
Qed.

Lemma after_first x p r :
  forallb (fun c => negb (Ascii.eqb c x)) p = true ->
  after x (p ++ x :: r) = Some r.
Proof.
  induction p as [| c p IH]; cbn [forallb after app]; intros H.
  - now rewrite Ascii.eqb_refl.
  - apply andb_true_iff in H. destruct H as [Hc H].
    apply negb_true_iff in Hc. rewrite Hc. now apply IH.
Qed.

Lemma split_on_absent x p :
  forallb (fun c => negb (Ascii.eqb c x)) p = true -> split_on x p = [p].
Proof.
  induction p as [| c p IH]; [reflexivity |].
  cbn [forallb split_on]. intros H. apply andb_true_iff in H.
  destruct H as [Hc H]. apply negb_true_iff in Hc. rewrite Hc.
  now rewrite IH.
Qed.

Lemma split_on_first x p r :
  forallb (fun c => negb (Ascii.eqb c x)) p = true ->
  split_on x (p ++ x :: r) = p :: split_on x r.
Proof.
  induction p as [| c p IH]; cbn [forallb split_on app]; intros H.
  - now rewrite Ascii.eqb_refl.
  - apply andb_true_iff in H. destruct H as [Hc H].
    apply negb_true_iff in Hc. rewrite Hc. now rewrite IH.
Qed.

Lemma split_on_join x pieces :
  pieces <> [] ->
  Forall (fun p => forallb (fun c => negb (Ascii.eqb c x)) p = true) pieces ->
  split_on x (join x pieces) = pieces.
Proof.
  intros Hne H. induction H as [| p pieces Hp Hrest IH]; [congruence |].
  destruct pieces as [| q pieces].
  - cbn [join]. now apply split_on_absent.
  - change (join x (p :: q :: pieces))
      with (p ++ x :: join x (q :: pieces))%list.
    rewrite split_on_first by exact Hp. f_equal. apply IH. discriminate.
Qed.

Lemma forallb_weaken {A} (p q : A -> bool) l :
  (forall a, p a = true -> q a = true) ->
  forallb p l = true -> forallb q l = true.
Proof.
  intros Hpq H. apply forallb_forall. intros a Ha.
  apply Hpq. apply (proj1 (forallb_forall _ _) H a Ha).
Qed.

Lemma plain_without x cs :
  In x ["&"; "="; "#"; "?"; byte_chr 9; byte_chr 10; byte_chr 13]%char ->
  forallb is_plain cs = true ->
  forallb (fun c => negb (Ascii.eqb c x)) cs = true.
Proof.
  intros Hx. apply forallb_weaken. intros c Hc.
  now rewrite (is_plain_not c x Hc Hx).
Qed.

Lemma field_without x kv :
  In x ["&"; "#"; "?"; byte_chr 9; byte_chr 10; byte_chr 13]%char ->
  forallb (fun c => negb (Ascii.eqb c x)) (field kv) = true.
Proof.
  intros Hx. unfold field. rewrite forallb_app. cbn [forallb].
  assert (Hx' : In x ["&"; "="; "#"; "?"; byte_chr 9; byte_chr 10;
                      byte_chr 13]%char).
  { cbn [In] in *. tauto. }
  rewrite !(plain_without x) by (exact Hx' || apply quote_plus_plain).
  cbn [andb]. rewrite andb_true_r. apply negb_true_iff.
  cbn [In] in Hx.
  destruct Hx as [<- | [<- | [<- | [<- | [<- | [<- | []]]]]]]; reflexivity.
Qed.

(** What [parse_qsl] makes of one field of 7-bit text. *)
Lemma parse_field kv :
  all_chars is_7bit (fst kv) = true ->
  all_chars is_7bit (urlarg_text (snd kv)) = true ->
  match after "=" (field kv) with
  | Some (c :: value) =>
      [(unquote_plus (before "=" (field kv)), unquote_plus (c :: value))]
  | Some [] | None => []
  end
  = with_value [(fst kv, urlarg_text (snd kv))].
Proof.
  intros H7k H7v. unfold field.
  assert (Hk : forallb (fun c => negb (Ascii.eqb c "=")) (quote_plus (fst kv))
               = true).
  { apply plain_without; [cbn; tauto | apply quote_plus_plain]. }
  rewrite after_first, before_first by exact Hk.
  unfold with_value. cbn [filter snd].
  destruct (quote_plus (urlarg_text (snd kv))) as [| c value] eqn:E.
  - apply quote_plus_empty in E. rewrite E. reflexivity.
  - assert (Hne : (urlarg_text (snd kv) =? "")%string = false).
    { apply String.eqb_neq. intros H. rewrite H in E. discriminate. }
    rewrite Hne. cbn [negb].
    rewrite <- E, !unquote_plus_quote_plus by assumption.
    reflexivity.
Qed.

Lemma with_value_app l1 l2 :
  with_value (l1 ++ l2) = (with_value l1 ++ with_value l2)%list.
Proof. unfold with_value. apply filter_app. Qed.

(** [parse_qsl] reads back what [urlencode] wrote of 7-bit keys and
    values, the fields without a value apart. *)
Lemma parse_qsl_urlencode arguments :
  Forall (fun kv => all_chars is_7bit (fst kv) = true /\
                    all_chars is_7bit (urlarg_text (snd kv)) = true)
         arguments ->
  parse_qsl (list_ascii_of_string (urlencode arguments))
  = with_value (rendered arguments).
Proof.
  intros H7.
  unfold urlencode. rewrite list_ascii_of_string_of_list_ascii.
  change (map (fun kv => (quote_plus (fst kv)
                          ++ "="%char :: quote_plus (urlarg_text (snd kv)))%list)
              arguments) with (map field arguments).
  unfold parse_qsl. destruct arguments as [| kv arguments]; [reflexivity |].
  rewrite split_on_join.
  - induction H7 as [| a l [Hk Hv] _ IH]; [reflexivity |].
    cbn [map flat_map]. rewrite IH, (parse_field a Hk Hv).
    change (rendered (a :: l))
      with ([(fst a, urlarg_text (snd a))] ++ rendered l)%list.
    now rewrite with_value_app.
  - discriminate.
  - apply Forall_forall. intros p Hp. apply in_map_iff in Hp.
    destruct Hp as (a & <- & _). apply field_without. cbn. tauto.
Qed.

Lemma filter_all {A} (p : A -> bool) l :
  forallb p l = true -> filter p l = l.
Proof.
  induction l as [| a l IH]; [reflexivity |].
  cbn [forallb filter]. intros H. apply andb_true_iff in H.
  destruct H as [Ha H]. rewrite Ha. now rewrite IH.
Qed.

Lemma join_without x sep pieces :
  Ascii.eqb sep x = false ->
  Forall (fun p => forallb (fun c => negb (Ascii.eqb c x)) p = true) pieces ->
  forallb (fun c => negb (Ascii.eqb c x)) (join sep pieces) = true.
Proof.
  intros Hsep H. induction H as [| p pieces Hp Hrest IH]; [reflexivity |].
  destruct pieces as [| q pieces]; [exact Hp |].
  change (join sep (p :: q :: pieces))
    with (p ++ sep :: join sep (q :: pieces))%list.
  rewrite forallb_app, Hp. cbn [forallb andb]. rewrite Hsep. exact IH.
Qed.

Lemma urlencode_without x arguments :
  In x ["#"; "?"; byte_chr 9; byte_chr 10; byte_chr 13]%char ->
  forallb (fun c => negb (Ascii.eqb c x))
          (list_ascii_of_string (urlencode arguments)) = true.
Proof.
  intros Hx. unfold urlencode. rewrite list_ascii_of_string_of_list_ascii.
  apply join_without.
  - cbn [In] in Hx.
    destruct Hx as [<- | [<- | [<- | [<- | [<- | []]]]]]; reflexivity.
  - apply Forall_forall. intros p Hp. apply in_map_iff in Hp.
    destruct Hp as (a & <- & _). apply (field_without x a).
    cbn [In] in *. tauto.
Qed.

Lemma urlencode_safe arguments :
  filter (fun c => negb (is_unsafe c))
         (list_ascii_of_string (urlencode arguments))
  = list_ascii_of_string (urlencode arguments).
Proof.
  apply filter_all. apply forallb_forall. intros c Hc.
  pose proof (proj1 (forallb_forall _ _)
                (urlencode_without (byte_chr 9) arguments
                   ltac:(cbn; tauto)) c Hc) as H9.
  pose proof (proj1 (forallb_forall _ _)
                (urlencode_without (byte_chr 10) arguments
                   ltac:(cbn; tauto)) c Hc) as H10.
  pose proof (proj1 (forallb_forall _ _)
                (urlencode_without (byte_chr 13) arguments
                   ltac:(cbn; tauto)) c Hc) as H13.
  cbv beta in *. apply negb_true_iff in H9, H10, H13.
  apply negb_true_iff. unfold is_unsafe. cbv zeta.
  assert (E : forall n, 0 <= n < 256 ->
                        (byte_val c =? n) = Ascii.eqb c (byte_chr n)).
  { intros n Hn. destruct (Ascii.eqb c (byte_chr n)) eqn:Ec.
    - apply Ascii.eqb_eq in Ec. subst c. apply Z.eqb_eq.
      unfold byte_val, byte_chr. rewrite Z.mod_small by lia.
      rewrite N_ascii_embedding by lia. lia.
    - apply Z.eqb_neq. intros Hc'. apply Ascii.eqb_neq in Ec. apply Ec.
      rewrite <- Hc'. symmetry. apply byte_chr_byte_val. }
  rewrite !E by lia. now rewrite H9, H10, H13.
Qed.

(** The query of the URL [login_url] builds is what [urlencode] wrote,
    whatever the checks make of other hosts. *)
Lemma url_query_signin checks arguments :
  url_query checks (signin_url ++ "?" ++ urlencode arguments)
  = Ok (list_ascii_of_string (urlencode arguments)).
Proof.
  unfold url_query. rewrite !list_ascii_of_string_app.
  pose proof (urlencode_safe arguments) as Hsafe.
  pose proof (urlencode_without "#" arguments ltac:(cbn; tauto)) as Hfrag.
  remember (list_ascii_of_string (urlencode arguments)) as enc eqn:Eenc.
  clear Eenc.
  change (lstrip_c0 (list_ascii_of_string signin_url
                     ++ list_ascii_of_string "?" ++ enc)%list)
    with (list_ascii_of_string signin_url ++ "?"%char :: enc)%list.
  rewrite filter_app.
  change (filter _ (list_ascii_of_string signin_url))
    with (list_ascii_of_string signin_url).
  change (filter (fun c => negb (is_unsafe c)) ("?"%char :: enc))
    with ("?"%char :: filter (fun c => negb (is_unsafe c)) enc).
  rewrite Hsafe.
  change (without_scheme (list_ascii_of_string signin_url ++ "?"%char :: enc))
    with (list_ascii_of_string "//amazon.com/ap/signin" ++ "?"%char :: enc)%list.
  change (list_ascii_of_string "//amazon.com/ap/signin" ++ "?"%char :: enc)%list
    with ("/"%char :: "/"%char
          :: (list_ascii_of_string "amazon.com/ap/signin" ++ "?"%char :: enc))%list.
  cbv iota beta.
  change (netloc_of (list_ascii_of_string "amazon.com/ap/signin"
                     ++ "?"%char :: enc))
    with (list_ascii_of_string "amazon.com").
  change (netloc_ok checks (list_ascii_of_string "amazon.com")) with true.
  cbv iota.
  change (after_netloc (list_ascii_of_string "amazon.com/ap/signin"
                        ++ "?"%char :: enc))
    with (list_ascii_of_string "/ap/signin" ++ "?"%char :: enc)%list.
  rewrite before_absent.
  - rewrite (after_first "?" (list_ascii_of_string "/ap/signin") enc)
      by reflexivity.
    reflexivity.
  - rewrite forallb_app. cbn [forallb].
    change (forallb _ (list_ascii_of_string "/ap/signin")) with true.
    cbn [andb negb Ascii.eqb]. exact Hfrag.
Qed.

(** ** login_url *)

Lemma generate_code_verifier_run token_bytes w :
  generate_code_verifier token_bytes w
  = (Done (Base64.base64url_nopad token_bytes),
     add_trace [EvLog INFO "Generated code_verifier: %s"
                  [JStr (Base64.base64url_nopad token_bytes)]] w).
Proof.
  unfold generate_code_verifier. now rewrite rstrip_urlsafe_b64encode.
Qed.

Lemma generate_challange_run code_verifier w :
  generate_challange code_verifier w
  = (Done (Base64.base64url_nopad (sha256 code_verifier)),
     add_trace [EvLog INFO "Generated challange: %s"
                  [JStr (Base64.base64url_nopad (sha256 code_verifier))]] w).
Proof.
  unfold generate_challange. now rewrite rstrip_urlsafe_b64encode.
Qed.

Lemma generate_device_serial_run node w :
  0 <= node < 2 ^ 128 ->
  generate_device_serial node w
  = (Done (serial_of node),
     add_trace [EvLog INFO "Generated serial: %s" [JStr (serial_of node)]] w).
Proof.
  intros Hn. unfold generate_device_serial, uuid_hex.
  replace ((0 <=? node) && (node <? 2 ^ 128)) with true
    by (symmetry; apply andb_true_iff; split;
        [apply Z.leb_le | apply Z.ltb_lt]; lia).
  reflexivity.
Qed.

Lemma serial_of_shape node :
  0 <= node < 2 ^ 128 ->
  all_chars is_upper_hex (serial_of node) = true /\
  hex_value (list_ascii_of_string (serial_of node)) = Some node.
Proof.
  intros Hn. unfold serial_of, upper.
  rewrite all_chars_of_list, !list_ascii_of_string_of_list_ascii.
  destruct (hex_value_hex_digits 32 node ltac:(lia)) as [Hv Hs].
  split; [exact Hs |]. rewrite Hv. f_equal. apply Z.mod_small.
  change (16 ^ Z.of_nat 32) with (2 ^ 128). lia.
Qed.

Lemma upper_hex_7bit s :
  all_chars is_upper_hex s = true ->
  all_chars (fun c => byte_val c <? 128) s = true.
Proof.
  unfold all_chars. apply forallb_weaken. intros c. unfold is_upper_hex.
  cbv zeta. intros H. apply Z.ltb_lt.
  apply orb_true_iff in H.
  destruct H as [H | H]; apply andb_true_iff in H; destruct H as [_ H];
    apply Z.leb_le in H; lia.
Qed.

Lemma generate_client_id_run serial w :
  all_chars (fun c => byte_val c <? 128) serial = true ->
  generate_client_id serial w
  = (Done (hex false (serial ++ "#A2UMVHOX7UP4V7")),
     add_trace [EvLog INFO "Generated client_id: %s"
                  [JStr (hex false (serial ++ "#A2UMVHOX7UP4V7"))]] w).
Proof.
  unfold generate_client_id, encode_ascii, all_chars. intros H.
  rewrite list_ascii_of_string_app, forallb_app, H. reflexivity.
Qed.

Lemma nonempty_of_length s n :
  String.length s = S n -> (s =? "")%string = false.
Proof. destruct s; [discriminate | reflexivity]. Qed.

Lemma challenge_nonempty v :
  (Base64.base64url_nopad (sha256 v) =? "")%string = false.
Proof.
  apply (nonempty_of_length _ 42).
  destruct (base64url_nopad_shape (sha256 v)) as [Hl _].
  rewrite length_sha256 in Hl.
  change ((4 * Z.of_nat 32 + 2) / 3) with 43 in Hl. lia.
Qed.

(** Every argument of the login URL has a value. *)
Lemma login_arguments_with_value client_id v :
  with_value (rendered (login_arguments client_id
                          (Base64.base64url_nopad (sha256 v))))
  = rendered (login_arguments client_id (Base64.base64url_nopad (sha256 v))).
Proof.
  unfold with_value, rendered, login_arguments.
  cbn [map fst snd urlarg_text filter].
  rewrite challenge_nonempty. reflexivity.
Qed.

Lemma lower_hex_7bit s :
  all_chars is_lower_hex s = true -> all_chars is_7bit s = true.
Proof.
  unfold all_chars. apply forallb_weaken. intros c.
  unfold is_lower_hex, is_7bit. cbv zeta. intros H. apply Z.ltb_lt.
  apply orb_true_iff in H.
  destruct H as [H | H]; apply andb_true_iff in H; destruct H as [_ H];
    apply Z.leb_le in H; lia.
Qed.

Lemma urlsafe_7bit s :
  all_chars is_urlsafe s = true -> all_chars is_7bit s = true.
Proof.
  unfold all_chars. apply forallb_weaken. intros c. apply is_urlsafe_7bit.
Qed.

(** The keys and the values of the login URL are 7-bit text. *)
Lemma login_arguments_7bit client_id challenge :
  all_chars is_7bit client_id = true ->
  all_chars is_7bit challenge = true ->
  Forall (fun kv => all_chars is_7bit (fst kv) = true /\
                    all_chars is_7bit (urlarg_text (snd kv)) = true)
         (login_arguments client_id challenge).
Proof.
  intros Hc Hch. unfold login_arguments.
  repeat (apply Forall_cons; [split; try reflexivity |]);
    [| exact Hch | apply Forall_nil].
  cbn [snd urlarg_text]. unfold all_chars in *.
  rewrite list_ascii_of_string_app, forallb_app, Hc. reflexivity.
Qed.

(** X5: for a node number of up to 128 bits, [login_url] keeps the new
    verifier, serial and client id on the instance, sends nothing and
    touches no file, and returns a URL whose query reads back as exactly
    the sixteen arguments: the [code_challenge] in it is the challenge of
    the very verifier that was kept, and the [client_id] is [device:]
    followed by the client id that was kept, which reads back as the
    serial, which reads back as the node number. *)
Theorem login_url_binds_verifier (checks : host_checks) (token_bytes : string)
  (node : Z) (w : world) :
  0 <= node < 2 ^ 128 ->
  exists url query verifier serial client_id w',
    login_url token_bytes node w = (Done url, w') /\
    w_verifier w' = Some verifier /\
    w_serial w' = JStr serial /\
    w_client_id w' = JStr client_id /\
    w_user w' = w_user w /\ w_cache w' = w_cache w /\
    w_net w' = w_net w /\
    requests (w_trace w') = requests (w_trace w) /\
    url_query checks url = Ok query /\
    parse_qsl query
    = rendered (login_arguments client_id
                  (Base64.base64url_nopad (sha256 verifier))) /\
    first_value "openid.oa2.code_challenge" (parse_qsl query)
    = Ok (Base64.base64url_nopad (sha256 verifier)) /\
    first_value "openid.oa2.client_id" (parse_qsl query)
    = Ok ("device:" ++ client_id) /\
    unhex (list_ascii_of_string client_id)
    = Some (list_ascii_of_string (serial ++ "#A2UMVHOX7UP4V7")) /\
    hex_value (list_ascii_of_string serial) = Some node.
Proof.
  intros Hn.
  destruct (serial_of_shape node Hn) as [Hs Hv].
  pose proof (upper_hex_7bit _ Hs) as H7.
  unfold login_url.
  erewrite bind_done by apply generate_code_verifier_run.
  cbn [bind set_verifier].
  erewrite bind_done by apply generate_challange_run.
  erewrite bind_done by (apply generate_device_serial_run; exact Hn).
  cbn [bind set_serial].
  erewrite bind_done by (apply generate_client_id_run; exact H7).
  cbn [bind set_client_id ret].
  do 6 eexists. split; [reflexivity |].
  cbn [w_verifier w_serial w_client_id w_user w_cache w_net w_trace
       add_trace].
  assert (Hargs : parse_qsl
                    (list_ascii_of_string
                       (urlencode
                          (login_arguments
                             (hex false (serial_of node ++ "#A2UMVHOX7UP4V7"))
                             (Base64.base64url_nopad
                                (sha256
                                   (Base64.base64url_nopad token_bytes))))))
                  = rendered
                      (login_arguments
                         (hex false (serial_of node ++ "#A2UMVHOX7UP4V7"))
                         (Base64.base64url_nopad
                            (sha256 (Base64.base64url_nopad token_bytes))))).
  { rewrite parse_qsl_urlencode; [apply login_arguments_with_value |].
    apply login_arguments_7bit.
    - apply lower_hex_7bit. unfold hex. rewrite all_chars_of_list.
      apply unhex_hex.
    - apply urlsafe_7bit, base64url_nopad_shape. }
  do 6 (split; [reflexivity |]).
  split; [rewrite <- !app_assoc, requests_app; cbn; apply app_nil_r |].
  split; [apply url_query_signin |].
  rewrite Hargs. repeat split.
  - unfold hex. rewrite list_ascii_of_string_of_list_ascii.
    apply unhex_hex.
  - exact Hv.
Qed.

Lemma login_url_binds_verifier_witness :
  exists url query verifier serial client_id w',
    login_url token_bytes_example 0x1234567890ab world_new = (Done url, w') /\
    w_verifier w' = Some verifier /\
    w_serial w' = JStr serial /\
    w_client_id w' = JStr client_id /\
    w_user w' = w_user world_new /\ w_cache w' = w_cache world_new /\
    w_net w' = w_net world_new /\
    requests (w_trace w') = requests (w_trace world_new) /\
    url_query plain_hosts url = Ok query /\
    parse_qsl query
    = rendered (login_arguments client_id
                  (Base64.base64url_nopad (sha256 verifier))) /\
    first_value "openid.oa2.code_challenge" (parse_qsl query)
    = Ok (Base64.base64url_nopad (sha256 verifier)) /\
    first_value "openid.oa2.client_id" (parse_qsl query)
    = Ok ("device:" ++ client_id) /\
    unhex (list_ascii_of_string client_id)
    = Some (list_ascii_of_string (serial ++ "#A2UMVHOX7UP4V7")) /\
    hex_value (list_ascii_of_string serial) = Some 0x1234567890ab.
Proof.
  apply (login_url_binds_verifier plain_hosts token_bytes_example
           0x1234567890ab world_new).
  split; [discriminate | reflexivity].
Defined.

(** ** login_callback: the edges *)

Lemma add_trace_app es1 es2 w :
  add_trace es2 (add_trace es1 w) = add_trace (es1 ++ es2) w.
Proof. unfold add_trace. cbn. now rewrite app_assoc. Qed.

(** X6: when the first occurrence of the text is past the start of the
    URL but [login_callback] cannot get as far as a request, it raises
    and all it has done is log: [ValueError] after one log line when
    [urlparse] refuses the URL, [KeyError] after one log line when the
    query gives the parameter no value, and [AttributeError] after two
    log lines when no login URL was built before (the instance has no
    verifier).  No request is sent and nothing is persisted or
    signalled. *)
Theorem login_callback_fails_early (checks : host_checks) (url : string)
  (w : world) :
  0 < find url auth_code_key ->
  (url_query checks url = Err ValueError ->
   login_callback checks url w
   = (Raised ValueError,
      add_trace [EvLog INFO "Got authorization code" []] w)) /\
  (forall query,
      url_query checks url = Ok query ->
      (first_value auth_code_key (parse_qsl query)
       = Err (KeyError auth_code_key) ->
       login_callback checks url w
       = (Raised (KeyError auth_code_key),
          add_trace [EvLog INFO "Got authorization code" []] w)) /\
      (forall code,
          first_value auth_code_key (parse_qsl query) = Ok code ->
          w_verifier w = None ->
          login_callback checks url w
          = (Raised AttributeError,
             add_trace [EvLog INFO "Got authorization code" [];
                        EvLog INFO "Registerring a device. ID: %s"
                          [w_client_id w]]
                       w))).
Proof.
  intros Hfind.
  assert (Hgt : (find url auth_code_key >? 0) = true)
    by (apply Z.gtb_lt; lia).
  split; [| intros query Hquery; split].
  - intros Hq. unfold login_callback. fold auth_code_key. rewrite Hgt.
    cbn [bind log record]. rewrite Hq. reflexivity.
  - intros Hkey. unfold login_callback. fold auth_code_key. rewrite Hgt.
    cbn [bind log record]. rewrite Hquery. cbn [lift Ok bind ret].
    rewrite Hkey. reflexivity.
  - intros code Hcode Hv.
    rewrite (login_callback_with_code _ _ _ _ _ Hfind Hquery Hcode).
    destruct w as [user cache loading client_id serial v now net tr].
    cbn [w_verifier] in Hv. subst v. unfold register_device.
    cbn. unfold add_trace. cbn. rewrite <- app_assoc. reflexivity.
Qed.

Lemma login_callback_fails_early_witness :
  login_callback plain_hosts
    "https://[www.amazon.com/?openid.oa2.authorization_code=abc" world_new
  = (Raised ValueError,
     add_trace [EvLog INFO "Got authorization code" []] world_new) /\
  login_callback plain_hosts stray_url world_new
  = (Raised (KeyError auth_code_key),
     add_trace [EvLog INFO "Got authorization code" []] world_new) /\
  login_callback plain_hosts redirect_url world_new
  = (Raised AttributeError,
     add_trace [EvLog INFO "Got authorization code" [];
                EvLog INFO "Registerring a device. ID: %s"
                  [w_client_id world_new]]
               world_new).
Proof.
  split; [| split].
  - apply (proj1 (login_callback_fails_early plain_hosts
                    "https://[www.amazon.com/?openid.oa2.authorization_code=abc"
                    world_new eq_refl)).
    reflexivity.
  - apply (proj1 (proj2 (login_callback_fails_early plain_hosts stray_url
                           world_new eq_refl)
                    (list_ascii_of_string "openid.assoc_handle=amzn_sonic_games_launcher&missing=openid.oa2.authorization_code")
                    eq_refl)).
    reflexivity.
  - apply (proj2 (proj2 (login_callback_fails_early plain_hosts redirect_url
                           world_new eq_refl)
                    (list_ascii_of_string "openid.assoc_handle=amzn_sonic_games_launcher&openid.oa2.authorization_code=ANdNAVhyhqirUelHGEHA&openid.mode=id_res")
                    eq_refl)
             "ANdNAVhyhqirUelHGEHA");
      reflexivity.
Defined.

(** X7: when the registration endpoint answers without a credential set,
    nothing is persisted and nothing is signalled: an empty
    [response.success] (null, an empty object) makes [login_callback]
    return silently, and a reply in which [response] or [success] is
    missing makes it raise the error of the lookup. *)
Theorem login_callback_without_credentials (checks : host_checks) (url : string)
  (w : world) (query : list ascii) (code verifier : string) (r : reply)
  (rest : list reply) (res_json : json) :
  0 < find url auth_code_key ->
  url_query checks url = Ok query ->
  first_value auth_code_key (parse_qsl query) = Ok code ->
  w_verifier w = Some verifier ->
  decode_utf8 verifier = Ok verifier ->
  w_net w = r :: rest ->
  payload r = Some res_json ->
  (forall user_data,
      get_path ["response"; "success"] res_json = Ok user_data ->
      truthy user_data = false ->
      exists w',
        login_callback checks url w = (Done tt, w') /\
        w_user w' = w_user w /\ w_net w' = rest /\
        writes user_path (w_trace w') = writes user_path (w_trace w) /\
        emitted (w_trace w') = emitted (w_trace w)) /\
  (forall e,
      get_path ["response"; "success"] res_json = Err e ->
      exists w',
        login_callback checks url w = (Raised e, w') /\
        w_user w' = w_user w /\ w_net w' = rest /\
        writes user_path (w_trace w') = writes user_path (w_trace w) /\
        emitted (w_trace w') = emitted (w_trace w)).
Proof.
  intros Hfind Hquery Hcode Hv Hd Hn Hj.
  pose proof (login_callback_with_code checks url w query code
                Hfind Hquery Hcode) as Hrun.
  pose proof (register_device_request code
                (add_trace [EvLog INFO "Got authorization code" []] w)
                verifier r rest Hv Hd Hn) as Hreg.
  cbn zeta in Hreg. cbn [add_trace w_client_id w_serial] in Hreg.
  rewrite Hj in Hreg. cbn [get_path].
  unfold rbind. unfold bind at 1 in Hreg. unfold lift in Hreg.
  destruct (subscript res_json "response") as [e1 | response] eqn:E1.
  - split; [intros ud H; discriminate |].
    intros e He. unfold Err in He. injection He as <-.
    cbn [raise] in Hreg. unfold bind in Hrun at 1. rewrite Hreg in Hrun.
    eexists. split; [exact Hrun |].
    cbn [w_trace w_user w_net add_trace receive].
    rewrite !writes_app, !emitted_app. cbn [writes emitted flat_map app].
    rewrite !app_nil_r. auto.
  - cbn [ret] in Hreg. unfold bind at 1 in Hreg.
    destruct (subscript response "success") as [e2 | ud] eqn:E2.
    + split; [intros ud H; discriminate |].
      intros e He. unfold Err in He. injection He as <-.
      cbn [raise] in Hreg. unfold bind in Hrun at 1. rewrite Hreg in Hrun.
      eexists. split; [exact Hrun |].
      cbn [w_trace w_user w_net add_trace receive].
      rewrite !writes_app, !emitted_app. cbn [writes emitted flat_map app].
      rewrite !app_nil_r. auto.
    + split; [| intros e H; discriminate].
      intros ud' Hud Ht. unfold Ok in Hud. injection Hud as <-.
      cbn [ret] in Hreg. rewrite (bind_done _ _ _ _ _ Hreg) in Hrun.
      rewrite Ht in Hrun. cbn [negb ret] in Hrun.
      eexists. split; [exact Hrun |].
      cbn [w_trace w_user w_net add_trace receive].
      rewrite !writes_app, !emitted_app. cbn [writes emitted flat_map app].
      rewrite !app_nil_r. auto.
Qed.

Lemma login_callback_without_credentials_witness :
  (exists w',
      login_callback plain_hosts redirect_url (world_login empty_success_reply)
      = (Done tt, w') /\
      w_user w' = None /\ w_net w' = [] /\
      writes user_path (w_trace w') = [] /\
      emitted (w_trace w') = []) /\
  (exists w',
      login_callback plain_hosts redirect_url (world_login token_reply)
      = (Raised (KeyError "response"), w') /\
      w_user w' = None /\ w_net w' = [] /\
      writes user_path (w_trace w') = [] /\
      emitted (w_trace w') = []).
Proof.
  split.
  - apply (proj1 (login_callback_without_credentials
                    plain_hosts redirect_url
                    (world_login empty_success_reply)
                    (list_ascii_of_string "openid.assoc_handle=amzn_sonic_games_launcher&openid.oa2.authorization_code=ANdNAVhyhqirUelHGEHA&openid.mode=id_res")
                    "ANdNAVhyhqirUelHGEHA"
                    "dBjftJeZ4CVP-mB92K27uhbUJU1p1r_wW1gFWFOEjXk"
                    empty_success_reply []
                    (JDict [("response", JDict [("success", JDict [])])])
                    eq_refl eq_refl eq_refl eq_refl eq_refl eq_refl eq_refl)
             (JDict []));
      reflexivity.
  - apply (proj2 (login_callback_without_credentials
                    plain_hosts redirect_url (world_login token_reply)
                    (list_ascii_of_string "openid.assoc_handle=amzn_sonic_games_launcher&openid.oa2.authorization_code=ANdNAVhyhqirUelHGEHA&openid.mode=id_res")
                    "ANdNAVhyhqirUelHGEHA"
                    "dBjftJeZ4CVP-mB92K27uhbUJU1p1r_wW1gFWFOEjXk"
                    token_reply []
                    (JDict [("access_token", JStr "Atna|new");
                            ("token_type", JStr "bearer");
                            ("expires_in", JInt 3600)])
                    eq_refl eq_refl eq_refl eq_refl eq_refl eq_refl eq_refl)
             (KeyError "response")).
    reflexivity.
Defined.

(** ** refresh_token: all or nothing *)

Lemma keeps_user_ret {A} (a : A) : keeps_user (ret a).
Proof. intros w. reflexivity. Qed.

Lemma keeps_user_raise {A} e : keeps_user (@raise A e).
Proof. intros w. reflexivity. Qed.

Lemma keeps_user_lift {A} (r : res A) : keeps_user (lift r).
Proof. destruct r; intros w; reflexivity. Qed.

Lemma keeps_user_bind {A B} (c : M A) (k : A -> M B) :
  keeps_user c -> (forall a, keeps_user (k a)) -> keeps_user (bind c k).
Proof.
  intros Hc Hk w. unfold bind. specialize (Hc w).
  destruct (c w) as [[a | e |] w'] eqn:E; cbn [snd] in *.
  - rewrite Hk. exact Hc.
  - exact Hc.
  - exact Hc.
Qed.

Lemma keeps_user_record e : keeps_user (record e).
Proof. intros w. reflexivity. Qed.

Lemma keeps_user_time : keeps_user time_time.
Proof. intros w. reflexivity. Qed.

Lemma keeps_user_read p : keeps_user (read_json p).
Proof. intros w. unfold read_json. destruct (file p w); reflexivity. Qed.

Lemma keeps_user_post url headers body : keeps_user (post url headers body).
Proof.
  intros w. unfold post, bind, record. cbn [add_trace w_net].
  destruct (w_net w); reflexivity.
Qed.

Lemma writes_user_last_keeps {A} (c : M A) :
  keeps_user c -> writes_user_last c.
Proof. intros H w. right. apply H. Qed.

Lemma writes_user_last_save d : writes_user_last (save_user_data d).
Proof. intros w. left. exists tt. reflexivity. Qed.

Lemma writes_user_last_bind {A B} (c : M A) (k : A -> M B) :
  keeps_user c -> (forall a, writes_user_last (k a)) ->
  writes_user_last (bind c k).
Proof.
  intros Hc Hk w. unfold bind. specialize (Hc w).
  destruct (c w) as [[a | e |] w'] eqn:E; cbn [snd] in *.
  - destruct (Hk a w') as [Hd | Hu]; [left; exact Hd | right; congruence].
  - right. exact Hc.
  - right. exact Hc.
Qed.

Ltac solve_keeps_user :=
  repeat first
    [ apply keeps_user_ret | apply keeps_user_raise | apply keeps_user_lift
    | apply keeps_user_record | apply keeps_user_time
    | apply keeps_user_read | apply keeps_user_post
    | apply keeps_user_bind; [| intros ]
    | match goal with
      | |- keeps_user (if ?b then _ else _) => destruct b
      | |- keeps_user (match ?x with _ => _ end) => destruct x
      end ].

(** X8: [refresh_token] changes the credential file only as the last
    step of a call that returns: whenever it raises (no credential file,
    no [refresh_token] in it, a reply without [access_token] or
    [expires_in]) or is left waiting, the file is as it was, also when
    some of the new values had already been put into the document in
    memory. *)
Theorem refresh_token_all_or_nothing (w : world) :
  fst (refresh_token w) = Done tt \/
  w_user (snd (refresh_token w)) = w_user w.
Proof.
  assert (H : writes_user_last refresh_token).
  { unfold refresh_token, load_user_data, log.
    repeat (apply writes_user_last_bind; [solve_keeps_user | intros]).
    match goal with |- writes_user_last (match ?r with _ => _ end) =>
      destruct r end.
    - repeat (apply writes_user_last_bind; [solve_keeps_user | intros]).
      apply writes_user_last_save.
    - apply writes_user_last_keeps. solve_keeps_user. }
  destruct (H w) as [[[] Hd] | Hu]; auto.
Qed.

(** The reply has the new token but no [expires_in]. *)
Example refresh_token_half_reply :
  let w := world_refresh
             {| latency := 2;
                payload := Some (JDict [("access_token", JStr "Atna|new")]) |}
  in
  fst (refresh_token w) = Raised (KeyError "expires_in") /\
  w_user (snd (refresh_token w)) = Some doc_valid.
Proof. vm_compute. split; reflexivity. Qed.

(** ** get_library: the cache and the network *)

Lemma bind_raised {A B} (c : M A) (k : A -> M B) w e w' :
  c w = (Raised e, w') -> bind c k w = (Raised e, w').
Proof. intros H. unfold bind. rewrite H. reflexivity. Qed.

Lemma keeps_cache_request_sds target tok body :
  keeps_cache (request_sds target tok body).
Proof. unfold request_sds, log. solve_keeps_cache. Qed.

Lemma keeps_cache_sync_loop turns : forall serial tok games cursor,
  keeps_cache (sync_loop turns serial tok games cursor).
Proof.
  induction turns as [| turns IH]; intros serial tok games cursor.
  - intros w. reflexivity.
  - cbn [sync_loop].
    apply keeps_cache_bind; [apply keeps_cache_lift | intros body].
    apply keeps_cache_bind; [apply keeps_cache_request_sds | intros j].
    destruct (negb (truthy j)); [apply keeps_cache_ret |].
    apply keeps_cache_bind; [apply keeps_cache_lift | intros ents].
    apply keeps_cache_bind; [apply keeps_cache_lift | intros items].
    destruct (negb (contains j "nextToken")); [apply keeps_cache_ret |].
    apply keeps_cache_bind; [apply keeps_cache_record | intros _].
    apply keeps_cache_bind; [apply keeps_cache_lift | intros next].
    apply IH.
Qed.

(** X9: whatever the credential file holds and whatever the network
    answers (pages, errors, replies of any shape, or nothing), a call of
    [get_library] that finds no cache file either returns a list and
    leaves exactly that list in the cache file, or returns no list and
    leaves no cache file: the cache never holds a partial result. *)
Theorem get_library_cache_whole_or_absent (w : world) :
  w_cache w = None ->
  (exists games,
      fst (get_library w) = Done (JList games) /\
      w_cache (snd (get_library w)) = Some (JList games)) \/
  (w_cache (snd (get_library w)) = None /\
   forall games, fst (get_library w) <> Done (JList games)).
Proof.
  intros Hc. rewrite (get_library_uncached _ Hc).
  pose proof (keeps_cache_credentials w) as K1.
  destruct (get_library_credentials w) as [[[tok serial] | e |] w1] eqn:E1;
    cbn [snd] in K1.
  - rewrite !(bind_done _ _ _ _ _ E1). cbn beta iota.
    rewrite !(bind_done get_world _ w1 w1 w1 eq_refl).
    pose proof (keeps_cache_sync_loop (S (List.length (w_net w1)))
                  serial tok [] JNull w1) as K2.
    destruct (sync_loop _ serial tok [] JNull w1)
      as [[[games |] | e |] w2] eqn:E2; cbn [snd] in K2.
    + rewrite !(bind_done _ _ _ _ _ E2).
      left. exists games. split; reflexivity.
    + rewrite !(bind_done _ _ _ _ _ E2).
      right. cbn [ret fst snd]. split; [congruence | discriminate].
    + rewrite !(bind_raised _ _ _ _ _ E2).
      right. cbn [fst snd]. split; [congruence | discriminate].
    + rewrite !(bind_blocked _ _ _ _ E2).
      right. cbn [fst snd]. split; [congruence | discriminate].
  - rewrite !(bind_raised _ _ _ _ _ E1).
    right. cbn [fst snd]. split; [congruence | discriminate].
  - rewrite !(bind_blocked _ _ _ _ E1).
    right. cbn [fst snd]. split; [congruence | discriminate].
Qed.

Lemma get_library_cache_whole_or_absent_witness :
  (exists games,
      fst (get_library world_page_two_fails) = Done (JList games) /\
      w_cache (snd (get_library world_page_two_fails)) = Some (JList games))
  \/
  (w_cache (snd (get_library world_page_two_fails)) = None /\
   forall games, fst (get_library world_page_two_fails) <> Done (JList games)).
Proof.
  apply (get_library_cache_whole_or_absent world_page_two_fails).
  reflexivity.
Defined.

(** The loop when the pages [rs] are followed by the reply [r]. *)
Lemma get_library_then w w1 tok s rs more r rest :
  w_cache w = None ->
  get_library_credentials w = (Done (tok, JStr s), w1) ->
  w_net w1 = (rs ++ r :: rest)%list ->
  are_pages rs more ->
  exists w2 games cursor,
    w_net w2 = r :: rest /\ w_cache w2 = None /\
    get_library w =
    bind (sync_loop (S (S (List.length rest))) (JStr s) tok games cursor)
      (fun fetched =>
         match fetched with
         | None => ret JNull
         | Some games =>
             bind (write_json cache_path (JList games))
                  (fun _ => ret (JList games))
         end) w2.
Proof.
  intros Hc Hcred Hnet Hpages.
  rewrite (get_library_uncached _ Hc).
  rewrite (bind_done _ _ _ _ _ Hcred).
  cbn beta iota. rewrite (bind_done get_world _ w1 w1 w1 eq_refl).
  rewrite Hnet.
  replace (S (List.length (rs ++ r :: rest)))
    with (List.length rs + S (S (List.length rest)))%nat
    by (rewrite length_app; cbn [List.length]; lia).
  destruct (sync_loop_more rs more Hpages (S (S (List.length rest)))
              s tok [] JNull w1 _ Hnet)
    as (w2 & Hrun & Hnet2 & (Hu & Hc2 & Hl) & Hreq).
  exists w2. do 2 eexists. split; [exact Hnet2 |]. split.
  - rewrite Hc2. pose proof (keeps_cache_credentials w) as K.
    rewrite Hcred in K. cbn [snd] in K. congruence.
  - unfold bind at 1. rewrite Hrun. reflexivity.
Qed.

(** X10: a reply of the entitlement endpoint that is empty (an empty
    object, null) ends [get_library] as a transport failure does: it
    returns [None] and no cache file is written, whatever the pages before
    it held.  A reply that is an object without [entitlements] makes it
    raise [KeyError], again with no cache file. *)
Theorem get_library_unusable_reply (w w1 : world) (tok : json) (s : string)
  (rs : list reply) (more : list (list json * json)) (r : reply)
  (rest : list reply) (j : json) :
  w_cache w = None ->
  get_library_credentials w = (Done (tok, JStr s), w1) ->
  w_net w1 = (rs ++ r :: rest)%list ->
  are_pages rs more ->
  payload r = Some j ->
  (truthy j = false ->
   exists w',
     get_library w = (Done JNull, w') /\ w_cache w' = None /\
     w_net w' = rest) /\
  (forall d,
      j = JDict d -> d <> [] -> dict_get "entitlements" d = None ->
      exists w',
        get_library w = (Raised (KeyError "entitlements"), w') /\
        w_cache w' = None /\ w_net w' = rest).
Proof.
  intros Hc Hcred Hnet Hpages Hj.
  destruct (get_library_then _ _ _ _ _ _ _ _ Hc Hcred Hnet Hpages)
    as (w2 & games & cursor & Hnet2 & Hc2 & Hrun).
  pose proof (request_sds_page tok (sync_request_data s cursor) w2 r rest j
                Hnet2 Hj) as Hreq.
  split.
  - intros Ht.
    assert (Hloop : sync_loop (S (S (List.length rest))) (JStr s) tok games
                      cursor w2
                    = (Done None,
                       asked tok (sync_request_data s cursor) r rest w2)).
    { cbn [sync_loop get_sync_request_data encode rbind lift Ok bind ret].
      rewrite (bind_done _ _ _ _ _ Hreq). rewrite Ht. reflexivity. }
    rewrite Hrun, (bind_done _ _ _ _ _ Hloop).
    eexists. split; [reflexivity |]. auto.
  - intros d -> Hd He.
    assert (Hloop : sync_loop (S (S (List.length rest))) (JStr s) tok games
                      cursor w2
                    = (Raised (KeyError "entitlements"),
                       asked tok (sync_request_data s cursor) r rest w2)).
    { cbn [sync_loop get_sync_request_data encode rbind lift Ok bind ret].
      rewrite (bind_done _ _ _ _ _ Hreq).
      replace (truthy (JDict d)) with true
        by (destruct d; [contradiction | reflexivity]).
      cbn [negb subscript]. rewrite He. reflexivity. }
    rewrite Hrun, (bind_raised _ _ _ _ _ Hloop).
    eexists. split; [reflexivity |]. auto.
Qed.

Lemma get_library_unusable_reply_witness :
  (exists w',
     get_library
       (fresh_world (Some doc_valid) 200
          [page [game "a1" "Alpha"] (Some (JStr "cursor-1"));
           {| latency := 1; payload := Some (JDict []) |}])
     = (Done JNull, w') /\ w_cache w' = None /\ w_net w' = []) /\
  (exists w',
     get_library (fresh_world (Some doc_valid) 200 [token_reply])
     = (Raised (KeyError "entitlements"), w') /\
     w_cache w' = None /\ w_net w' = []).
Proof.
  split.
  - apply (proj1 (get_library_unusable_reply
                    (fresh_world (Some doc_valid) 200
                       [page [game "a1" "Alpha"] (Some (JStr "cursor-1"));
                        {| latency := 1; payload := Some (JDict []) |}])
                    (snd (get_library_credentials
                            (fresh_world (Some doc_valid) 200
                               [page [game "a1" "Alpha"]
                                     (Some (JStr "cursor-1"));
                                {| latency := 1;
                                   payload := Some (JDict []) |}])))
                    (JStr "Atna|old") "G0W0XX"
                    [page [game "a1" "Alpha"] (Some (JStr "cursor-1"))]
                    [([game "a1" "Alpha"], JStr "cursor-1")]
                    {| latency := 1; payload := Some (JDict []) |} []
                    (JDict [])
                    eq_refl eq_refl eq_refl
                    (Forall2_cons _ (_, _) (is_page_page _ _) (Forall2_nil _))
                    eq_refl)).
    reflexivity.
  - apply (proj2 (get_library_unusable_reply
                    (fresh_world (Some doc_valid) 200 [token_reply])
                    (snd (get_library_credentials
                            (fresh_world (Some doc_valid) 200 [token_reply])))
                    (JStr "Atna|old") "G0W0XX" [] [] token_reply []
                    (JDict [("access_token", JStr "Atna|new");
                            ("token_type", JStr "bearer");
                            ("expires_in", JInt 3600)])
                    eq_refl eq_refl eq_refl (Forall2_nil _) eq_refl)
             _ eq_refl ltac:(discriminate) eq_refl).
Defined.

(** ** get_library: the credentials *)

(** [is_token_expired] does nothing but read the credential file. *)
Lemma is_token_expired_world w d :
  w_user w = Some d ->
  snd (is_token_expired w) = add_trace [EvRead user_path] w.
Proof.
  intros Hu. unfold is_token_expired.
  rewrite (bind_done _ _ _ _ _ (load_user_data_some _ _ Hu)).
  destruct (subscript d "token_obtain_time") as [e | tot];
    [reflexivity |]. cbn [lift bind ret].
  destruct (subscript d "tokens") as [e | tokens]; [reflexivity |].
  cbn [lift bind ret].
  destruct (subscript tokens "bearer") as [e | bearer]; [reflexivity |].
  cbn [lift bind ret].
  destruct (subscript bearer "expires_in") as [e | ei]; [reflexivity |].
  cbn [lift bind ret].
  destruct (negb (truthy tot) || negb (truthy ei))%bool; [reflexivity |].
  cbn [bind time_time].
  destruct (py_int ei) as [e | n]; [reflexivity |]. cbn [lift bind ret].
  destruct (add_int tot n) as [e | deadline]; reflexivity.
Qed.

(** The end of lines 339-345: the token and the serial are read from
    the credential file as it then is. *)
Lemma credentials_read w d tok serial :
  w_user w = Some d ->
  get_path ["tokens"; "bearer"; "access_token"] d = Ok tok ->
  get_path ["extensions"; "device_info"; "device_serial_number"] d
  = Ok serial ->
  bind load_user_data (fun user_data =>
  bind (lift (subscript user_data "tokens")) (fun tokens =>
  bind (lift (subscript tokens "bearer")) (fun bearer =>
  bind (lift (subscript bearer "access_token")) (fun access_token =>
  bind (lift (subscript user_data "extensions")) (fun extensions =>
  bind (lift (subscript extensions "device_info")) (fun device_info =>
  bind (lift (subscript device_info "device_serial_number")) (fun serial =>
  ret (access_token, serial)))))))) w
  = (Done (tok, serial), add_trace [EvRead user_path] w).
Proof.
  intros Hu Ht Hs.
  rewrite (bind_done _ _ _ _ _ (load_user_data_some _ _ Hu)).
  cbn [get_path] in Ht, Hs. unfold rbind in Ht, Hs.
  destruct (subscript d "tokens") as [e | tokens]; [discriminate |].
  cbn [lift bind ret].
  destruct (subscript tokens "bearer") as [e | bearer]; [discriminate |].
  cbn [lift bind ret].
  destruct (subscript bearer "access_token") as [e | a]; [discriminate |].
  cbn [lift bind ret].
  destruct (subscript d "extensions") as [e | ext]; [discriminate |].
  cbn [lift bind ret].
  destruct (subscript ext "device_info") as [e | di]; [discriminate |].
  cbn [lift bind ret].
  destruct (subscript di "device_serial_number") as [e | sn];
    [discriminate |].
  unfold Ok in Ht, Hs. injection Ht as ->. injection Hs as ->.
  reflexivity.
Qed.

(** A successful refresh: the document that is written. *)
Lemma refresh_token_success w d rt r rest res_json a e :
  w_user w = Some d ->
  get_path ["tokens"; "bearer"; "refresh_token"] d = Ok rt ->
  w_net w = r :: rest ->
  payload r = Some res_json ->
  subscript res_json "access_token" = Ok a ->
  subscript res_json "expires_in" = Ok e ->
  exists d' w',
    refresh_token w = (Done tt, w') /\
    w_user w' = Some d' /\ w_net w' = rest /\
    get_path ["tokens"; "bearer"; "access_token"] d' = Ok a /\
    forall p, other_field p = true -> get_path p d' = get_path p d.
Proof.
  intros Hu Hp Hn Hj Ha He.
  destruct (refresh_token_request _ _ _ _ _ Hu Hp Hn)
    as (w1 & Hu1 & Hnow & Hn1 & Hw & Hrun).
  rewrite Hj in Hrun.
  destruct (set_path_bearer d "access_token" _ _ Hp a) as (d1 & H1).
  assert (Hp1 : get_path ["tokens"; "bearer"; "refresh_token"] d1 = Ok rt).
  { rewrite (get_path_set_path_apart
               _ _ ["tokens"; "bearer"; "refresh_token"] _ _ H1 eq_refl).
    exact Hp. }
  destruct (set_path_bearer d1 "expires_in" _ _ Hp1 e) as (d2 & H2).
  assert (H3 : exists d3, set_path ["token_obtain_time"]
                            (JFloat (w_now w1)) d2 = Ok d3).
  { destruct (set_path_cons _ _ _ _ _ H2) as (c & Hc & _).
    destruct d2; try (destruct d1; discriminate).
    cbn [set_path setitem]. eexists. reflexivity. }
  destruct H3 as (d3 & H3).
  rewrite Ha in Hrun. cbn [lift bind ret Ok] in Hrun. rewrite H1 in Hrun.
  cbn [lift bind ret Ok] in Hrun. rewrite He in Hrun.
  cbn [lift bind ret Ok] in Hrun. rewrite H2 in Hrun.
  cbn [lift bind ret Ok time_time] in Hrun. rewrite H3 in Hrun.
  cbn [lift bind ret Ok save_user_data write_json] in Hrun.
  exists d3. eexists. split; [exact Hrun |].
  cbn [w_user w_net add_trace set_file].
  split; [reflexivity |]. split; [exact Hn1 |]. split.
  - rewrite (get_path_set_path_apart
               _ _ ["tokens"; "bearer"; "access_token"] _ _ H3 eq_refl).
    rewrite (get_path_set_path_apart
               _ _ ["tokens"; "bearer"; "access_token"] _ _ H2 eq_refl).
    apply (get_path_set_path_same _ _ _ _ _ H1).
  - intros p Hother.
    destruct (other_field_apart _ Hother) as (A1 & A2 & A3).
    rewrite (get_path_set_path_apart _ _ _ _ _ H3 A3).
    rewrite (get_path_set_path_apart _ _ _ _ _ H2 A2).
    apply (get_path_set_path_apart _ _ _ _ _ H1 A1).
Qed.

(** X11: how [get_library] gets its credentials.  While the token is
    valid it reads the credential file and sends nothing.  Once the token
    has expired it asks for a new one first: when that request fails, it
    goes on with the stored (expired) access token and leaves the file as
    it is; when it succeeds, it goes on with the new access token, the
    serial being the same in all cases. *)
Theorem get_library_credentials_cases (w : world) (d tok serial : json) :
  w_user w = Some d ->
  get_path ["tokens"; "bearer"; "access_token"] d = Ok tok ->
  get_path ["extensions"; "device_info"; "device_serial_number"] d
  = Ok serial ->
  (fst (is_token_expired w) = Done false ->
   get_library_credentials w
   = (Done (tok, serial), add_trace [EvRead user_path; EvRead user_path] w))
  /\
  (fst (is_token_expired w) = Done true ->
   forall rt r rest,
     get_path ["tokens"; "bearer"; "refresh_token"] d = Ok rt ->
     w_net w = r :: rest ->
     (payload r = None ->
      exists w',
        get_library_credentials w = (Done (tok, serial), w') /\
        w_user w' = Some d /\ w_net w' = rest) /\
     (forall res_json a e,
         payload r = Some res_json ->
         subscript res_json "access_token" = Ok a ->
         subscript res_json "expires_in" = Ok e ->
         exists w',
           get_library_credentials w = (Done (a, serial), w') /\
           w_net w' = rest)).
Proof.
  intros Hu Ht Hs.
  pose proof (is_token_expired_world _ _ Hu) as Hw.
  destruct (is_token_expired w) as [r0 w0] eqn:E. cbn [fst snd] in Hw.
  subst w0. split; intros Hr; cbn [fst] in Hr; subst r0.
  - unfold get_library_credentials.
    rewrite (bind_done _ _ _ _ _ E). cbn [bind ret].
    rewrite (credentials_read _ d tok serial) by assumption.
    rewrite add_trace_app. reflexivity.
  - intros rt r rest Hrt Hn.
    set (w0 := add_trace [EvRead user_path] w) in *.
    assert (Hu0 : w_user w0 = Some d) by exact Hu.
    assert (Hn0 : w_net w0 = r :: rest) by exact Hn.
    split.
    + intros Hfail.
      destruct (refresh_token_request _ _ _ _ _ Hu0 Hrt Hn0)
        as (w1 & Hu1 & _ & Hn1 & _ & Hrun).
      rewrite Hfail in Hrun.
      unfold get_library_credentials.
      rewrite (bind_done _ _ _ _ _ E).
      rewrite (bind_done _ _ _ _ _ Hrun).
      rewrite (credentials_read _ d tok serial);
        [| cbn [add_trace w_user]; congruence | assumption | assumption].
      eexists. split; [reflexivity |].
      cbn [add_trace w_user w_net]. split; congruence.
    + intros j a e Hj Ha He.
      destruct (refresh_token_success _ _ _ _ _ _ _ _ Hu0 Hrt Hn0 Hj Ha He)
        as (d' & w1 & Hrun & Hu1 & Hn1 & Ha' & Hframe).
      unfold get_library_credentials.
      rewrite (bind_done _ _ _ _ _ E).
      rewrite (bind_done _ _ _ _ _ Hrun).
      rewrite (credentials_read _ d' a serial);
        [| exact Hu1 | exact Ha' | rewrite Hframe; [exact Hs | reflexivity]].
      eexists. split; [reflexivity |]. exact Hn1.
Qed.

Lemma get_library_credentials_cases_witness :
  get_library_credentials (fresh_world (Some doc_valid) 200 [])
  = (Done (JStr "Atna|old", JStr "G0W0XX"),
     add_trace [EvRead user_path; EvRead user_path]
               (fresh_world (Some doc_valid) 200 [])) /\
  (exists w',
      get_library_credentials (world_refresh http_error)
      = (Done (JStr "Atna|old", JStr "G0W0XX"), w') /\
      w_user w' = Some doc_valid /\ w_net w' = []) /\
  (exists w',
      get_library_credentials (world_refresh token_reply)
      = (Done (JStr "Atna|new", JStr "G0W0XX"), w') /\
      w_net w' = []).
Proof.
  split; [| split].
  - apply (proj1 (get_library_credentials_cases
                    (fresh_world (Some doc_valid) 200 []) doc_valid
                    (JStr "Atna|old") (JStr "G0W0XX")
                    eq_refl eq_refl eq_refl)).
    reflexivity.
  - apply (proj1 (proj2 (get_library_credentials_cases
                           (world_refresh http_error) doc_valid
                           (JStr "Atna|old") (JStr "G0W0XX")
                           eq_refl eq_refl eq_refl)
                    eq_refl (JStr "Atnr|r0") http_error []
                    eq_refl eq_refl)).
    reflexivity.
  - apply (proj2 (proj2 (get_library_credentials_cases
                           (world_refresh token_reply) doc_valid
                           (JStr "Atna|old") (JStr "G0W0XX")
                           eq_refl eq_refl eq_refl)
                    eq_refl (JStr "Atnr|r0") token_reply []
                    eq_refl eq_refl)
             (JDict [("access_token", JStr "Atna|new");
                     ("token_type", JStr "bearer");
                     ("expires_in", JInt 3600)])
             (JStr "Atna|new") (JInt 3600));
      reflexivity.
Defined.

(** ** load: the mapping *)

Lemma saved_app tr1 tr2 :
  saved (tr1 ++ tr2) = (saved tr1 ++ saved tr2)%list.
Proof. unfold saved. apply flat_map_app. Qed.

Lemma saved_map_EvSave games : saved (map EvSave games) = games.
Proof.
  induction games as [| g games IH]; [reflexivity |].
  change (saved (map EvSave (g :: games)))
    with (g :: saved (map EvSave games)).
  now rewrite IH.
Qed.

Lemma requests_map_EvSave games : requests (map EvSave games) = [].
Proof. induction games as [| g games IH]; [reflexivity | exact IH]. Qed.

Lemma save_all_run games w :
  save_all games w = (Done tt, add_trace (map EvSave games) w).
Proof.
  revert w. induction games as [| g games IH]; intros w.
  - unfold add_trace. cbn. rewrite app_nil_r. now destruct w.
  - cbn [save_all bind record map]. rewrite IH, add_trace_app. reflexivity.
Qed.

Section LoadMapping.

Variable py_str : json -> string.
Variable slugify : json -> res string.
Variable json_dumps : json -> string.

(** X12: [load] maps the whole library before it saves anything.  With
    the library in the cache file, when every record maps (it has [id]
    and [product.title], and the title can be slugified), [load] returns
    the games in the order of the library, after saving each of them in
    that order; when one record does not map, [load] returns [None] and
    not one game has been saved.  Either way nothing is sent and the flag
    is clear afterwards. *)
Theorem load_maps_before_saving (w : world) (d : json) (items : list json) :
  w_is_loading w = false ->
  w_user w = Some d ->
  w_cache w = Some (JList items) ->
  exists games w',
    load py_str slugify json_dumps w = (Done games, w') /\
    games = match rmap (new_from_amazon_game py_str slugify json_dumps)
                       items with
            | inr mapped => Some mapped
            | inl _ => None
            end /\
    saved (w_trace w')
    = (saved (w_trace w)
       ++ match games with Some mapped => mapped | None => [] end)%list /\
    requests (w_trace w') = requests (w_trace w) /\
    w_net w' = w_net w /\ w_is_loading w' = false.
Proof.
  intros Hl Hu Hc.
  destruct w as [user cache loading client_id serial verifier now net tr].
  cbn [w_is_loading w_user w_cache] in Hl, Hu, Hc. subst.
  unfold load, is_authenticated, path_exists.
  cbn [bind get_world w_is_loading file w_user negb set_is_loading].
  match goal with
  | |- context [try_except ?c ?h ?w0] =>
      assert (Hlib : get_library w0
                     = (Done (JList items),
                        add_trace
                          [EvLog DEBUG "Returning cached Amazon library" [];
                           EvRead cache_path] w0))
        by (apply get_library_cache_hit; reflexivity)
  | |- context [bind (try_except ?c ?h) _ ?w0] =>
      assert (Hlib : get_library w0
                     = (Done (JList items),
                        add_trace
                          [EvLog DEBUG "Returning cached Amazon library" [];
                           EvRead cache_path] w0))
        by (apply get_library_cache_hit; reflexivity)
  end.
  unfold bind at 1. unfold try_except.
  rewrite (bind_done _ _ _ _ _ Hlib). cbn [iterate lift Ok bind ret].
  destruct (rmap (new_from_amazon_game py_str slugify json_dumps) items)
    as [e | mapped].
  - cbn [lift raise bind log record ret set_is_loading].
    do 2 eexists. split; [reflexivity |]. split; [reflexivity |].
    cbn [w_trace add_trace w_net w_is_loading].
    rewrite !saved_app, !requests_app. cbn. rewrite !app_nil_r. auto.
  - cbn [lift bind ret].
    erewrite bind_done by apply save_all_run.
    cbn [bind ret set_is_loading].
    do 2 eexists. split; [reflexivity |]. split; [reflexivity |].
    cbn [w_trace add_trace w_net w_is_loading].
    rewrite !saved_app, !requests_app, saved_map_EvSave,
      requests_map_EvSave.
    cbn. rewrite !app_nil_r. auto.
Qed.

End LoadMapping.

Lemma load_maps_before_saving_witness :
  exists games w',
    load id_text title_slug no_details world_cached_library
    = (Done games, w') /\
    games = match rmap (new_from_amazon_game id_text title_slug no_details)
                       [game "a1" "Alpha"; JDict [("id", JStr "b2")]] with
            | inr mapped => Some mapped
            | inl _ => None
            end /\
    saved (w_trace w')
    = (saved (w_trace world_cached_library)
       ++ match games with Some mapped => mapped | None => [] end)%list /\
    requests (w_trace w') = requests (w_trace world_cached_library) /\
    w_net w' = w_net world_cached_library /\ w_is_loading w' = false.
Proof.
  apply (load_maps_before_saving id_text title_slug no_details
           world_cached_library doc_valid
           [game "a1" "Alpha"; JDict [("id", JStr "b2")]]);
    reflexivity.
Defined.

(** The second record has no [product]: the first is not saved. *)
Example load_half_mapped :
  fst (load id_text title_slug no_details world_cached_library) = Done None
  /\ saved (w_trace (snd (load id_text title_slug no_details
                            world_cached_library))) = [].
Proof. vm_compute. split; reflexivity. Qed.

(** ** is_token_expired: fields of another type *)

(** X13: fields that are present and non-empty but not of the
    expected type make [is_token_expired] raise, after it has read the
    credential file and done nothing else.  [int] raises on an
    [expires_in] that is a list or an object ([TypeError]), a text that
    is no whole number or a NaN ([ValueError]), or an infinity
    ([OverflowError]); and when [int] has made a number of [expires_in],
    a [token_obtain_time] that is a text, a list or an object makes the
    sum raise [TypeError]. *)
Theorem is_token_expired_other_types (w : world) (d tot ei : json) :
  w_user w = Some d ->
  subscript d "token_obtain_time" = Ok tot ->
  get_path ["tokens"; "bearer"; "expires_in"] d = Ok ei ->
  truthy tot = true -> truthy ei = true ->
  snd (is_token_expired w) = add_trace [EvRead user_path] w /\
  ((exists l, ei = JList l) \/ (exists o, ei = JDict o) ->
   fst (is_token_expired w) = Raised TypeError) /\
  (forall s, ei = JStr s -> int_of_str s = Err ValueError ->
             fst (is_token_expired w) = Raised ValueError) /\
  (ei = JFloat NaN -> fst (is_token_expired w) = Raised ValueError) /\
  (forall negative, ei = JFloat (Infinity negative) ->
                    fst (is_token_expired w) = Raised OverflowError) /\
  (forall n, py_int ei = Ok n ->
             (exists s, tot = JStr s) \/ (exists l, tot = JList l)
             \/ (exists o, tot = JDict o) ->
             fst (is_token_expired w) = Raised TypeError).
Proof.
  intros Hu Ht Hp Htt Hte.
  split; [apply (is_token_expired_world _ _ Hu) |].
  rewrite (is_token_expired_reads _ _ _ _ Hu Ht Hp).
  rewrite Htt, Hte. cbn [negb orb].
  assert (Hint : forall e, py_int ei = Err e ->
            fst (bind time_time (fun now =>
                 bind (lift (py_int ei)) (fun n =>
                 bind (lift (add_int tot n)) (fun deadline =>
                 ret (gt_number now deadline))))
                   (add_trace [EvRead user_path] w))
            = Raised e).
  { intros e He. unfold bind at 1. cbn [time_time]. rewrite He. reflexivity. }
  split; [| split; [| split; [| split]]].
  - intros [[l ->] | [o ->]]; apply Hint; reflexivity.
  - intros s -> Hs. apply Hint. exact Hs.
  - intros ->. apply Hint. reflexivity.
  - intros negative ->. apply Hint. reflexivity.
  - intros n Hn Htot. unfold bind at 1. cbn [time_time]. rewrite Hn.
    cbn [lift Ok bind ret].
    destruct Htot as [[s ->] | [[l ->] | [o ->]]]; reflexivity.
Qed.

Lemma is_token_expired_other_types_witness :
  fst (is_token_expired
         (fresh_world
            (Some (user_doc [("token_obtain_time", JFloat 100)]
                            [("expires_in", JList [JInt 3600])]))
            200 []))
  = Raised TypeError /\
  fst (is_token_expired
         (fresh_world
            (Some (user_doc [("token_obtain_time", JFloat 100)]
                            [("expires_in", JStr "3600.0")]))
            200 []))
  = Raised ValueError /\
  fst (is_token_expired
         (fresh_world
            (Some (user_doc [("token_obtain_time", JFloat 100)]
                            [("expires_in", JFloat NaN)]))
            200 []))
  = Raised ValueError /\
  fst (is_token_expired
         (fresh_world
            (Some (user_doc [("token_obtain_time", JFloat 100)]
                            [("expires_in", JFloat (Infinity false))]))
            200 []))
  = Raised OverflowError /\
  fst (is_token_expired
         (fresh_world
            (Some (user_doc [("token_obtain_time", JStr "1700000000")]
                            [("expires_in", JInt 3600)]))
            200 []))
  = Raised TypeError.
Proof.
  split; [| split; [| split; [| split]]].
  - apply (proj1 (proj2 (is_token_expired_other_types
                           (fresh_world
                              (Some (user_doc
                                       [("token_obtain_time", JFloat 100)]
                                       [("expires_in", JList [JInt 3600])]))
                              200 [])
                           _ (JFloat 100) (JList [JInt 3600])
                           eq_refl eq_refl eq_refl eq_refl eq_refl))).
    left. exists [JInt 3600]. reflexivity.
  - apply (proj1 (proj2 (proj2 (is_token_expired_other_types
                                  (fresh_world
                                     (Some (user_doc
                                              [("token_obtain_time",
                                                JFloat 100)]
                                              [("expires_in",
                                                JStr "3600.0")]))
                                     200 [])
                                  _ (JFloat 100) (JStr "3600.0")
                                  eq_refl eq_refl eq_refl eq_refl eq_refl)))
             "3600.0");
      reflexivity.
  - apply (proj1 (proj2 (proj2 (proj2 (is_token_expired_other_types
                                         (fresh_world
                                            (Some (user_doc
                                                     [("token_obtain_time",
                                                       JFloat 100)]
                                                     [("expires_in",
                                                       JFloat NaN)]))
                                            200 [])
                                         _ (JFloat 100) (JFloat NaN)
                                         eq_refl eq_refl eq_refl eq_refl
                                         eq_refl))))).
    reflexivity.
  - apply (proj1 (proj2 (proj2 (proj2 (proj2
             (is_token_expired_other_types
                (fresh_world
                   (Some (user_doc [("token_obtain_time", JFloat 100)]
                                   [("expires_in",
                                     JFloat (Infinity false))]))
                   200 [])
                _ (JFloat 100) (JFloat (Infinity false))
                eq_refl eq_refl eq_refl eq_refl eq_refl)))))
             false).
    reflexivity.
  - apply (proj2 (proj2 (proj2 (proj2 (proj2
             (is_token_expired_other_types
                (fresh_world
                   (Some (user_doc
                            [("token_obtain_time", JStr "1700000000")]
                            [("expires_in", JInt 3600)]))
                   200 [])
                _ (JStr "1700000000") (JInt 3600)
                eq_refl eq_refl eq_refl eq_refl eq_refl)))))
             3600 eq_refl).
    left. exists "1700000000". reflexivity.
Defined.

(** ** get_library: waiting *)

Lemma dry_ret {A} (a : A) : waits_only_when_dry (ret a).
Proof. intros w H. discriminate. Qed.

Lemma dry_raise {A} e : waits_only_when_dry (@raise A e).
Proof. intros w H. discriminate. Qed.

Lemma dry_lift {A} (r : res A) : waits_only_when_dry (lift r).
Proof. destruct r; intros w H; discriminate. Qed.

Lemma dry_record e : waits_only_when_dry (record e).
Proof. intros w H. discriminate. Qed.

Lemma dry_time : waits_only_when_dry time_time.
Proof. intros w H. discriminate. Qed.

Lemma dry_read p : waits_only_when_dry (read_json p).
Proof.
  intros w. unfold read_json. destruct (file p w); intros H; discriminate.
Qed.

Lemma dry_write p v : waits_only_when_dry (write_json p v).
Proof. intros w H. discriminate. Qed.

Lemma dry_post url headers body :
  waits_only_when_dry (post url headers body).
Proof.
  intros w. unfold post, bind, record. cbn [add_trace w_net].
  destruct (w_net w) eqn:E; intros H; [exact E | discriminate].
Qed.

Lemma dry_bind {A B} (c : M A) (k : A -> M B) :
  waits_only_when_dry c -> (forall a, waits_only_when_dry (k a)) ->
  waits_only_when_dry (bind c k).
Proof.
  intros Hc Hk w. unfold bind. specialize (Hc w).
  destruct (c w) as [[a | e |] w'] eqn:E; cbn [fst snd] in *.
  - apply Hk.
  - discriminate.
  - intros _. now apply Hc.
Qed.

Ltac solve_dry :=
  repeat first
    [ apply dry_ret | apply dry_raise | apply dry_lift
    | apply dry_record | apply dry_time | apply dry_read | apply dry_write
    | apply dry_post
    | apply dry_bind; [| intros ]
    | match goal with
      | |- waits_only_when_dry (if ?b then _ else _) => destruct b
      | |- waits_only_when_dry (match ?x with _ => _ end) => destruct x
      end ].

Lemma dry_credentials : waits_only_when_dry get_library_credentials.
Proof.
  unfold get_library_credentials, is_token_expired, refresh_token,
    load_user_data, save_user_data, log.
  solve_dry.
Qed.

Lemma dry_bind_at {A B} (c : M A) (k : A -> M B) w :
  (fst (c w) = Blocked -> w_net (snd (c w)) = []) ->
  (forall a w1, c w = (Done a, w1) ->
     fst (k a w1) = Blocked -> w_net (snd (k a w1)) = []) ->
  fst (bind c k w) = Blocked -> w_net (snd (bind c k w)) = [].
Proof.
  intros Hc Hk. unfold bind.
  destruct (c w) as [[a | e |] w'] eqn:E; cbn [fst snd] in *.
  - now apply Hk.
  - discriminate.
  - intros _. now apply Hc.
Qed.

Lemma lift_done {A} (r : res A) a w w1 :
  lift r w = (Done a, w1) -> w1 = w.
Proof. destruct r; intros H; inversion H; reflexivity. Qed.

(** An answered request has taken one reply. *)
Lemma request_sds_takes target tok body w j w1 :
  request_sds target tok body w = (Done j, w1) ->
  S (List.length (w_net w1)) = List.length (w_net w).
Proof.
  unfold request_sds, post, record, bind. unfold add_trace. cbn [w_net].
  destruct (w_net w) as [| r rest]; [intros H; discriminate |].
  cbn [ret log record]. unfold add_trace, receive.
  destruct (payload r); intros H; inversion H; reflexivity.
Qed.

Lemma dry_request_sds target tok body :
  waits_only_when_dry (request_sds target tok body).
Proof. unfold request_sds, log. solve_dry. Qed.

(** With more turns than replies to come, the loop is left waiting only
    once the replies are used up. *)
Lemma dry_sync_loop turns : forall serial tok games cursor w,
  (List.length (w_net w) < turns)%nat ->
  fst (sync_loop turns serial tok games cursor w) = Blocked ->
  w_net (snd (sync_loop turns serial tok games cursor w)) = [].
Proof.
  induction turns as [| turns IH]; intros serial tok games cursor w Hlen;
    [lia |].
  cbn [sync_loop].
  apply dry_bind_at; [apply dry_lift | intros body w0 H0].
  apply lift_done in H0. subst w0.
  apply dry_bind_at; [apply dry_request_sds | intros j w1 H1].
  apply request_sds_takes in H1.
  destruct (negb (truthy j)); [apply dry_ret |].
  apply dry_bind_at; [apply dry_lift | intros ents w2 H2].
  apply lift_done in H2. subst w2.
  apply dry_bind_at; [apply dry_lift | intros items w2 H2].
  apply lift_done in H2. subst w2.
  destruct (negb (contains j "nextToken")); [apply dry_ret |].
  apply dry_bind_at; [apply dry_record | intros u w2 H2].
  inversion H2; subst w2.
  apply dry_bind_at; [apply dry_lift | intros next w3 H3].
  apply lift_done in H3. subst w3.
  apply IH. unfold add_trace. cbn [w_net]. lia.
Qed.

(** X14: the replies the network is going to give being finitely many,
    a call of [get_library] that is left waiting for a reply has taken
    every one of them: it never stops asking while a reply is there to
    be had. *)
Theorem get_library_waits_only_when_dry (w : world) :
  fst (get_library w) = Blocked -> w_net (snd (get_library w)) = [].
Proof.
  destruct (w_cache w) as [c |] eqn:Ec.
  - rewrite (get_library_cache_hit _ _ Ec). intros H. discriminate.
  - rewrite (get_library_uncached _ Ec).
    revert w Ec.
    assert (H : waits_only_when_dry
                  (bind get_library_credentials
                     (fun credentials =>
                        let (access_token, serial) := credentials in
                        bind get_world (fun w0 =>
                        bind (sync_loop (S (List.length (w_net w0))) serial
                                access_token [] JNull)
                          (fun fetched =>
                             match fetched with
                             | None => ret JNull
                             | Some games =>
                                 bind (write_json cache_path (JList games))
                                      (fun _ => ret (JList games))
                             end))))).
    { apply dry_bind; [apply dry_credentials | intros [tok serial]].
      intros w1.
      apply dry_bind_at; [intros H; discriminate | intros w0 w2 H0].
      inversion H0; subst w0 w2.
      apply dry_bind_at; [apply dry_sync_loop; lia | intros fetched w3 _].
      destruct fetched; [apply dry_bind; intros |]; solve_dry. }
    intros w _. apply H.
Qed.

Lemma get_library_waits_only_when_dry_witness :
  w_net (snd (get_library (fresh_world (Some doc_valid) 200
                             [page [] (Some (JStr "cursor-1"))])))
  = [].
Proof.
  apply (get_library_waits_only_when_dry
           (fresh_world (Some doc_valid) 200
              [page [] (Some (JStr "cursor-1"))])).
  reflexivity.
Defined.

(** ** get_sync_request_data: the hardware hash *)






(** ** login_url, then login_callback *)


Lemma sends_nothing_raise {A} e : sends_nothing (@raise A e).
Proof. intros w. split; reflexivity. Qed.











(** ** refresh_token, then is_token_expired *)


(** ** Rounding to binary64 *)













